(** * svdff: a shallow network on SVD features, cross-validated

    A shallow embedding of [src/features/svdff.py].  The script is glue
    code around numpy, scipy, sklearn, keras, pandas and matplotlib; the
    embedding keeps the script's own control flow (try/except caching,
    the fold loop, the test-time averaging loop, the file writes) and takes
    the library routines it calls as an interface record.

    Numbers.  numpy floats are modelled as extended reals [xreal]: the
    IEEE special values (both infinities and NaN) are kept, with their
    propagation rules, while finite arithmetic is exact.  Rounding,
    overflow and the sign of zero are outside that model.  The
    symmetrization, whose algebra depends on them, is given on IEEE 754
    binary64 numbers as well ([symmetrize64]). *)

From Stdlib Require Import Floats.
From Stdlib Require Import Reals Lra Ascii.
From stdpp Require Import gmap strings list pretty sorting.

(** ** Extended reals *)

Inductive xreal : Type :=
  | Finite (r : R)
  | PInf
  | NInf
  | NaN.

Definition is_finite (a : xreal) : Prop :=
  match a with Finite _ => True | _ => False end.

Definition is_finiteb (a : xreal) : bool :=
  match a with Finite _ => true | _ => false end.

Definition xzero : xreal := Finite 0.

Definition xneg (a : xreal) : xreal :=
  match a with
  | Finite x => Finite (- x)
  | PInf => NInf
  | NInf => PInf
  | NaN => NaN
  end.

Definition xadd (a b : xreal) : xreal :=
  match a, b with
  | NaN, _ | _, NaN => NaN
  | Finite x, Finite y => Finite (x + y)
  | PInf, NInf | NInf, PInf => NaN
  | PInf, _ | _, PInf => PInf
  | NInf, _ | _, NInf => NInf
  end.

Definition xsub (a b : xreal) : xreal := xadd a (xneg b).

Definition xmul (a b : xreal) : xreal :=
  match a, b with
  | NaN, _ | _, NaN => NaN
  | Finite x, Finite y => Finite (x * y)
  | Finite x, PInf | PInf, Finite x =>
      if Req_dec_T x 0 then NaN else if Rlt_dec 0 x then PInf else NInf
  | Finite x, NInf | NInf, Finite x =>
      if Req_dec_T x 0 then NaN else if Rlt_dec 0 x then NInf else PInf
  | PInf, PInf | NInf, NInf => PInf
  | PInf, NInf | NInf, PInf => NInf
  end.

Definition xdiv (a b : xreal) : xreal :=
  match a, b with
  | NaN, _ | _, NaN => NaN
  | Finite x, Finite y =>
      if Req_dec_T y 0
      then (if Req_dec_T x 0 then NaN else if Rlt_dec 0 x then PInf else NInf)
      else Finite (x / y)
  | Finite _, (PInf | NInf) => Finite 0
  | (PInf | NInf), (PInf | NInf) => NaN
  | PInf, Finite y => if Rlt_dec y 0 then NInf else PInf
  | NInf, Finite y => if Rlt_dec y 0 then PInf else NInf
  end.

Definition xlog (a : xreal) : xreal :=
  match a with
  | Finite x =>
      if Req_dec_T x 0 then NInf
      else if Rlt_dec 0 x then Finite (ln x) else NaN
  | PInf => PInf
  | NInf | NaN => NaN
  end.

Definition xof_nat (n : nat) : xreal := Finite (INR n).

(** [np.sqrt(n)] for a Python integer [n], which is never negative here. *)
Definition xsqrt_nat (n : nat) : xreal := Finite (sqrt (INR n)).

(** [scipy.special.logit]: [x /= 1 - x; return log(x)]. *)
Definition logit (p : xreal) : xreal :=
  xlog (xdiv p (xsub (Finite 1) p)).

(** Python's [<] on floats: every comparison with NaN is false. *)
Definition xlt (a b : xreal) : Prop :=
  match a, b with
  | NaN, _ | _, NaN => False
  | Finite x, Finite y => (x < y)%R
  | NInf, (Finite _ | PInf) => True
  | Finite _, PInf => True
  | _, _ => False
  end.

Global Instance xlt_dec a b : Decision (xlt a b).
Proof.
  destruct a, b; simpl; try (left; exact I); try (right; intros []).
  apply Rlt_dec.
Defined.

(** ** Dense matrices, as lists of rows *)

Abbreviation matrix := (list (list xreal)).

(** [M.shape[0]] and [M.shape[1]]; a matrix without rows has no recorded
    width. *)
Definition nrows (M : matrix) : nat := length M.
Definition ncols (M : matrix) : nat :=
  match M with [] => 0 | r :: _ => length r end.

Definition mat_zip (f : xreal → xreal → xreal) (A B : matrix) : matrix :=
  zip_with (zip_with f) A B.
Definition mat_map (f : xreal → xreal) (A : matrix) : matrix :=
  map (map f) A.

Definition mat_add : matrix → matrix → matrix := mat_zip xadd.
Definition mat_sub : matrix → matrix → matrix := mat_zip xsub.
Definition mat_neg : matrix → matrix := mat_map xneg.
(** [A / c] and [A * c] for a scalar [c]. *)
Definition mat_div_scalar (A : matrix) (c : xreal) : matrix :=
  mat_map (λ a, xdiv a c) A.
Definition mat_mul_scalar (A : matrix) (c : xreal) : matrix :=
  mat_map (λ a, xmul a c) A.

(** [np.vsplit(U, 2)]: two halves of equal height, an error when the
    number of rows is odd. *)
Definition vsplit {T : Type} (U : list T) : option (list T * list T) :=
  let n := length U in
  if Nat.even n then Some (take (n / 2) U, drop (n / 2) U) else None.

(** [np.hstack([A, B])]: rows side by side, an error when the heights
    differ. *)
Definition hstack {T : Type} (A B : list (list T))
  : option (list (list T)) :=
  if decide (length A = length B) then Some (zip_with app A B) else None.

(** Lines 213-214 and 248-249 of the script:
    [Uq1, Uq2 = np.vsplit(U, 2)]
    [U = np.hstack([(Uq1 + Uq2) / 2.0, (Uq1 - Uq2) / 2.0])]. *)
Definition symmetrize (U : matrix) : option matrix :=
  '(Uq1, Uq2) ← vsplit U;
  hstack (mat_div_scalar (mat_add Uq1 Uq2) (Finite 2))
         (mat_div_scalar (mat_sub Uq1 Uq2) (Finite 2)).

(** The same two lines with the arithmetic numpy performs them in:
    [U] is a float64 array, and [+], [-] and [/ 2.0] are the IEEE 754
    binary64 operations, rounding to nearest, ties to even. *)
Abbreviation matrix64 := (list (list float)).

Definition mat64_add (A B : matrix64) : matrix64 :=
  zip_with (zip_with PrimFloat.add) A B.
Definition mat64_sub (A B : matrix64) : matrix64 :=
  zip_with (zip_with PrimFloat.sub) A B.
Definition mat64_neg (A : matrix64) : matrix64 := map (map PrimFloat.opp) A.
(** [A / 2.0]. *)
Definition mat64_half (A : matrix64) : matrix64 :=
  map (map (λ a, a / 2)%float) A.

Definition symmetrize64 (U : matrix64) : option matrix64 :=
  '(Uq1, Uq2) ← vsplit U;
  hstack (mat64_half (mat64_add Uq1 Uq2)) (mat64_half (mat64_sub Uq1 Uq2)).

(** The two lines over any arithmetic: what [symmetrize] and
    [symmetrize64] have in common. *)
Definition symmetrize_with {T : Type} (add sub : T → T → T) (half : T → T)
    (U : list (list T)) : option (list (list T)) :=
  '(Uq1, Uq2) ← vsplit U;
  hstack (map (map half) (zip_with (zip_with add) Uq1 Uq2))
         (map (map half) (zip_with (zip_with sub) Uq1 Uq2)).

(** [np.diag(v)] for a vector [v]. *)
Definition diag (v : list xreal) : matrix :=
  imap (λ i a, replicate i xzero ++ a :: replicate (length v - S i) xzero) v.

Fixpoint transpose_cols (n : nat) (M : matrix) : matrix :=
  match n with
  | 0 => []
  | S n' => transpose_cols n' M ++ [map (λ r, default xzero (r !! n')) M]
  end.
(** [M.transpose()]. *)
Definition transpose (M : matrix) : matrix := transpose_cols (ncols M) M.

Definition dot_product (u v : list xreal) : xreal :=
  foldr xadd xzero (zip_with xmul u v).

(** [A.dot(B)]: an error when a row of [A] is not as long as [B] is
    high. *)
Definition dot (A B : matrix) : option matrix :=
  if decide (Forall (λ r, length r = length B) A)
  then Some (map (λ r, map (dot_product r) (transpose B)) A)
  else None.

(** [dst[idx] = vals] for an index array: every index must be in range and
    the two arrays must be equally long; where an index occurs twice the
    later assignment stands. *)
Fixpoint scatter (dst : list xreal) (idx : list nat) (vals : list xreal)
  : option (list xreal) :=
  match idx, vals with
  | [], [] => Some dst
  | i :: idx', v :: vals' =>
      if decide (i < length dst) then scatter (<[i:=v]> dst) idx' vals'
      else None
  | _, _ => None
  end.

(** [A[idx]] for an index array. *)
Definition take_rows {A : Type} (X : list A) (idx : list nat) : option (list A) :=
  mapM (λ i, X !! i) idx.

(** ** Paths *)

Definition starts_with_sep (b : string) : bool :=
  match b with
  | String c _ => bool_decide (c = "/"%char)
  | EmptyString => false
  end.

Fixpoint ends_with_sep (a : string) : bool :=
  match a with
  | EmptyString => false
  | String c EmptyString => bool_decide (c = "/"%char)
  | String _ a' => ends_with_sep a'
  end.

(** [os.path.join(a, b)] on a POSIX system. *)
Definition join_path (a b : string) : string :=
  if starts_with_sep b then b
  else if bool_decide (a = "") || ends_with_sep a then a +:+ b
  else a +:+ "/" +:+ b.

(** [join_path(dump_dir, 'model_%d.pkl' % i)], the checkpoint of fold [i]. *)
Definition model_path (dump_dir : string) (i : nat) : string :=
  join_path dump_dir ("model_" +:+ pretty i +:+ ".pkl").

(** [options.get('dump_dir') or '.'] *)
Definition ff_dump_dir (d : option string) : string :=
  match d with
  | Some d => if bool_decide (d = "") then "." else d
  | None => "."
  end.

(** ** Data frames *)

Inductive cell : Type :=
  | CInt (z : Z)
  | CFloat (x : xreal)
  | CStr (s : string).

(** A frame is a row count and named columns, in order. *)
Record dataframe : Type := DataFrame {
  df_nrows : nat;
  df_cols : list (string * list cell)
}.

Fixpoint get_col (name : string) (cols : list (string * list cell))
  : option (list cell) :=
  match cols with
  | [] => None
  | (n, c) :: cols' => if String.eqb n name then Some c else get_col name cols'
  end.

Fixpoint set_col (name : string) (vals : list cell)
    (cols : list (string * list cell)) : list (string * list cell) :=
  match cols with
  | [] => [(name, vals)]
  | (n, c) :: cols' =>
      if String.eqb n name then (n, vals) :: cols'
      else (n, c) :: set_col name vals cols'
  end.

(** [df[name].values]; a missing column raises. *)
Definition get_column (df : dataframe) (name : string) : option (list cell) :=
  get_col name (df_cols df).

(** [df[name] = vals]: the values must be as many as the frame has rows;
    an existing column is overwritten in place, a new one is appended. *)
Definition set_column (df : dataframe) (name : string) (vals : list cell)
  : option dataframe :=
  if decide (length vals = df_nrows df)
  then Some (DataFrame (df_nrows df) (set_col name vals (df_cols df)))
  else None.

(** [df[[c1, c2, ...]]] *)
Definition select_columns (df : dataframe) (names : list string)
  : option dataframe :=
  cols ← mapM (λ n, c ← get_column df n; Some (n, c)) names;
  Some (DataFrame (df_nrows df) cols).

(** The rows of a frame, one cell per column. *)
Definition frame_rows (df : dataframe) : option (list (list cell)) :=
  mapM (λ j, mapM (λ nc : string * list cell, nc.2 !! j) (df_cols df))
       (seq 0 (df_nrows df)).

Definition cell_to_float (c : cell) : option xreal :=
  match c with
  | CInt z => Some (Finite (IZR z))
  | CFloat x => Some x
  | CStr _ => None
  end.

(** [df[name] + arr] for a float array [arr] of the frame's length. *)
Definition series_add (col : list cell) (arr : list xreal) : option (list cell) :=
  if decide (length col = length arr) then
    mapM (λ '(c, a), x ← cell_to_float c; Some (CFloat (xadd x a))) (zip col arr)
  else None.

(** [df[name] / n] for a Python integer [n]. *)
Definition series_div (col : list cell) (n : nat) : option (list cell) :=
  mapM (λ c, x ← cell_to_float c; Some (CFloat (xdiv x (xof_nat n)))) col.

Record csv : Type := Csv {
  csv_index : bool;
  csv_header : list string;
  csv_rows : list (list cell)
}.

(** Modelled from the spec: the column names [FieldsTrain.id],
    [FieldsTrain.is_duplicate] and [FieldsTest.test_id] of [lib.dataset],
    which is not part of the sources at hand; the spec names the train
    output columns id, label and score and the test output columns id and
    score. *)
Definition FieldsTrain_id : string := "id".
Definition FieldsTrain_is_duplicate : string := "is_duplicate".
Definition FieldsTest_test_id : string := "test_id".

(** The array stored under a key of an [.npz] archive. *)
Fixpoint npz_get (key : string) (arrays : list (string * matrix))
  : option matrix :=
  match arrays with
  | [] => None
  | (k, a) :: arrays' => if String.eqb k key then Some a else npz_get key arrays'
  end.

(** ** Networks and figures *)

Record dense : Type := Dense {
  units : nat;
  activation : string;
  input_dim : option nat
}.

Record network : Type := Network {
  net_layers : list dense;
  net_loss : string;
  net_optimizer : string;
  net_metrics : list string
}.

Record curve : Type := Curve {
  curve_x : option (list xreal);
  curve_y : list xreal;
  curve_fmt : string;
  curve_label : option string
}.

Record figure : Type := Figure {
  fig_title : string;
  fig_curves : list curve;
  fig_ylim : option (xreal * xreal)
}.

(** [np.linspace(0, 1, 10)] *)
Definition linspace_0_1_10 : list xreal :=
  map (λ i, Finite (INR i / 9)) (seq 0 10).

(** Lines 95-103 of [train_ff]: the layers added to the [Sequential]
    model.  [layers[0]] and [activations[0]] raise on an empty list;
    the loop enumerates [layers[1:]] from 0 and reads [activations] at
    the loop counter. *)
Definition build_layers (layers : list nat) (activations : list string)
    (input_dim : nat) : option (list dense) :=
  l0 ← layers !! 0;
  a0 ← activations !! 0;
  rest ← mapM (λ '(layer, layer_size),
                 a ← activations !! layer; Some (Dense layer_size a None))
              (imap pair (tail layers));
  Some (Dense l0 a0 (Some input_dim) :: rest ++ [Dense 1 "sigmoid" None]).

Definition build_network (layers : list nat) (activations : list string)
    (input_dim : nat) (method : string) : option network :=
  ls ← build_layers layers activations input_dim;
  Some (Network ls "binary_crossentropy" method ["accuracy"]).

(** ** Programs: state passing with exceptions

    A program maps a state to an optional result and a state; [None] is a
    raised exception, and the state reached when it was raised is kept, so
    that a handler runs on it. *)

Definition prog (St A : Type) : Type := St → option A * St.

Definition ret {St A} (a : A) : prog St A := λ s, (Some a, s).

Definition bind {St A B} (m : prog St A) (k : A → prog St B) : prog St B :=
  λ s, match m s with
       | (Some a, s') => k a s'
       | (None, s') => (None, s')
       end.

Definition raise {St A} : prog St A := λ s, (None, s).

(** [try: m except: h], with a bare [except]. *)
Definition try_except {St A} (m h : prog St A) : prog St A :=
  λ s, match m s with
       | (Some a, s') => (Some a, s')
       | (None, s') => h s'
       end.

(** A pure computation that may raise. *)
Definition lift {St A} (o : option A) : prog St A := λ s, (o, s).

Global Instance prog_ret {St} : MRet (prog St) := λ A, ret.
Global Instance prog_bind {St} : MBind (prog St) := λ A B k m, bind m k.

(** [for i, x in enumerate(l, start=i0): acc = body(i, x, acc)] *)
Fixpoint for_enumerate {St A B} (i0 : nat) (l : list A)
    (body : nat → A → B → prog St B) (acc : B) : prog St B :=
  match l with
  | [] => ret acc
  | x :: l' => bind (body i0 x acc) (for_enumerate (S i0) l' body)
  end.

(** [for x in l: acc = body(x, acc)] *)
Fixpoint for_each {St A B} (l : list A) (body : A → B → prog St B) (acc : B)
  : prog St B :=
  match l with
  | [] => ret acc
  | x :: l' => bind (body x acc) (for_each l' body)
  end.

(** ** Configuration *)

(** [conf['svdff.svd']]: the key [k] read by [get_int], the tree as a whole
    passed on to [compute_svd]. *)
Record svd_options (Kwargs : Type) : Type := SvdOptions {
  svd_k : option nat;
  svd_kwargs : Kwargs
}.
Arguments SvdOptions {_} _ _.
Arguments svd_k {_} _.
Arguments svd_kwargs {_} _.

(** The keyword arguments of [train_ff]. *)
Record ff_options : Type := FFOptions {
  opt_dump_dir : option string;
  opt_layers : option (list nat);
  opt_activations : option (list string);
  opt_method : option string;
  opt_epochs : option nat;
  opt_batch_size : option nat
}.

(** [conf['svdff.ff']], the keyword arguments other than [dump_dir]. *)
Record ff_conf : Type := FFConf {
  ff_layers : option (list nat);
  ff_activations : option (list string);
  ff_method : option string;
  ff_epochs : option nat;
  ff_batch_size : option nat
}.

Record config (Dataset Kwargs : Type) : Type := Config {
  conf_dump_dir : string;
  conf_dataset : Dataset;
  conf_vectorizer : Kwargs;
  conf_svd : svd_options Kwargs;
  conf_ff : ff_conf
}.
Arguments Config {_ _} _ _ _ _ _.
Arguments conf_dump_dir {_ _} _.
Arguments conf_dataset {_ _} _.
Arguments conf_vectorizer {_ _} _.
Arguments conf_svd {_ _} _.
Arguments conf_ff {_ _} _.

(** One entry of [quality['folds']]. *)
Record fold_quality : Type := FoldQuality {
  fold : nat;
  dump : string;
  ll_train : xreal;
  ll_valid : xreal;
  auc_train : xreal;
  auc_valid : xreal;
  roc_train : list xreal * list xreal;
  roc_valid : list xreal * list xreal;
  reliability_train : list xreal * list xreal;
  reliability_valid : list xreal * list xreal
}.

(** ** The script *)

Section Pipeline.
Context {Vectorizer Model Dataset Kwargs : Type}.

(** What a file under the dump directory can hold.  [FOther] stands for
    any content none of the loaders accepts. *)
Inductive content : Type :=
  | FConfig
  | FVectorizer (v : Vectorizer)
  | FMatrix (X : matrix)
  | FText (v : list xreal)
  | FNpz (arrays : list (string * matrix))
  | FModel (m : Model)
  | FFigure (fig : figure)
  | FCsv (c : csv)
  | FOther (raw : string).

(** The calls into the outside world that a run leaves behind, in order. *)
Inductive event : Type :=
  | EvMakedirs (path : string)
  | EvWrite (path : string) (c : content)
  | EvTrainVectorizer (df : dataframe) (opts : Kwargs)
  | EvComputeFeatures (df : dataframe) (v : Vectorizer)
  | EvComputeSvd (X : matrix) (opts : svd_options Kwargs)
  | EvSplit (X : matrix) (y : list cell)
  | EvFit (net : network) (X : matrix) (y : list cell) (epochs batch_size : nat)
  | EvPredict (m : Model) (U : matrix).

(** The files under the dump directory, by path. *)
Definition filesystem : Type := string → option content.

Definition fs_insert (path : string) (c : content) (fs : filesystem)
  : filesystem :=
  λ q, if String.eqb q path then Some c else fs q.

Record state : Type := State {
  files : filesystem;
  trace : list event
}.

(** The library routines the script calls.  [None] is a raised
    exception.  [compute_feature_matrix] is called with
    [combine='stack'] throughout; [skf_split] is [skfold().split];
    [fit] stands for building, compiling and fitting a [Sequential]
    model; [predict_row] is [predict_proba] on one row. *)
Record externals : Type := Externals {
  load_train_df : Dataset → option dataframe;
  load_test_df : Dataset → option dataframe;
  train_vectorizer : dataframe → Kwargs → option Vectorizer;
  compute_feature_matrix : dataframe → Vectorizer → option matrix;
  compute_svd : matrix → svd_options Kwargs → option (list xreal * matrix);
  skf_split : matrix → list cell → option (list (list nat * list nat));
  fit : network → matrix → list cell → nat → nat → option Model;
  predict_row : Model → list xreal → option xreal;
  log_loss : list cell → list xreal → option xreal;
  roc_auc_score : list cell → list xreal → option xreal;
  roc_curve : list cell → list xreal → option (list xreal * list xreal);
  reliability_curve :
    list cell → list xreal → nat → option (list xreal * list xreal)
}.

Variable ext : externals.

Local Abbreviation M := (prog state).

Definition emit (e : event) : M () :=
  λ s, (Some (), State (files s) (trace s ++ [e])).

(** Writing a file: the write is recorded and always succeeds. *)
Definition write (path : string) (c : content) : M () :=
  λ s, (Some (), State (fs_insert path c (files s))
                   (trace s ++ [EvWrite path c])).

(** Reading a file raises when there is none. *)
Definition read (path : string) : M content :=
  λ s, (files s path, s).

(** [lib.utils.makedirs]: directories hold no content of their own. *)
Definition makedirs (path : string) : M () := emit (EvMakedirs path).

(** [joblib.load] *)
Definition joblib_load (path : string) : M Vectorizer :=
  c ← read path;
  match c with FVectorizer v => ret v | _ => raise end.

(** [keras.models.load_model] and [save_model] *)
Definition load_model (path : string) : M Model :=
  c ← read path;
  match c with FModel m => ret m | _ => raise end.
Definition save_model (f : Model) (path : string) : M () :=
  write path (FModel f).

(** [np.loadtxt] *)
Definition np_loadtxt (path : string) : M (list xreal) :=
  c ← read path;
  match c with FText v => ret v | _ => raise end.

(** [len(S)] for the result of [np.loadtxt]: a file with a single value
    loads as a zero-dimensional array, which has no length. *)
Definition loadtxt_len (S : list xreal) : option nat :=
  if decide (length S = 1) then None else Some (length S).

(** [np.load(path)[key]] *)
Definition np_load (path key : string) : M matrix :=
  c ← read path;
  match c with FNpz arrays => lift (npz_get key arrays) | _ => raise end.

(** Modelled from the spec: [load_feature_matrix] and
    [save_feature_matrix] of [features.linear], which is not part of the
    sources at hand.  The loader attempts to deserialize a feature matrix
    from disk and answers [None] on any failure; the saver persists the
    matrix to the path. *)
Definition load_feature_matrix (path : string) : M (option matrix) :=
  λ s, (Some (match files s path with
              | Some (FMatrix X) => Some X
              | _ => None
              end), s).
Definition save_feature_matrix (X : matrix) (path : string) : M () :=
  write path (FMatrix X).

(** [df.to_csv(path, index=False)] *)
Definition to_csv (df : dataframe) (path : string) : M () :=
  rows ← lift (frame_rows df);
  write path (FCsv (Csv false (map fst (df_cols df)) rows)).

(** [f.predict_proba(X).flatten()] *)
Definition predict_proba (f : Model) (X : matrix) : M (list xreal) :=
  emit (EvPredict f X);;
  lift (mapM (predict_row ext f) X).

(** [sorted(s, reverse=True)] *)
Definition sorted_reverse (s : list xreal) : list xreal :=
  merge_sort (λ a b, ¬ xlt a b) s.

(** Lines 35-42.  [s[0]] raises on an empty list and
    [plt.ylim([0, s[0]])] on a limit that is infinite or NaN, both
    before the figure is saved. *)
Definition plot_singular_values (s : list xreal) (img_dir : string) : M () :=
  let s := sorted_reverse s in
  s0 ← lift (s !! 0);
  (if is_finiteb s0 then ret () else raise);;
  write (join_path img_dir "singular_values.png")
    (FFigure (Figure "Singular values"
                [Curve None s "b.-" None] (Some (xzero, s0)))).

(** Lines 46-52 and 56-62: what [plot_quality] draws. *)
Definition roc_figure (quality : fold_quality) : figure :=
  Figure "ROC"
    [Curve (Some (fst (roc_train quality))) (snd (roc_train quality))
       "b-" (Some "train");
     Curve (Some (fst (roc_valid quality))) (snd (roc_valid quality))
       "r-" (Some "valid");
     Curve (Some linspace_0_1_10) linspace_0_1_10 "k--" None] None.
Definition reliability_figure (quality : fold_quality) : figure :=
  Figure "Reliability"
    [Curve (Some (snd (reliability_train quality)))
       (fst (reliability_train quality)) "b-" (Some "train");
     Curve (Some (snd (reliability_valid quality)))
       (fst (reliability_valid quality)) "r-" (Some "valid");
     Curve (Some linspace_0_1_10) linspace_0_1_10 "k--" None] None.

Definition plot_quality (quality : fold_quality) (img_dir : string) : M () :=
  write (join_path img_dir "roc.png") (FFigure (roc_figure quality));;
  write (join_path img_dir "reliability.png")
    (FFigure (reliability_figure quality)).

(** Lines 87-107: load the fold's checkpoint, or build, fit and save a
    new model. *)
Definition load_or_train_model (dump_file : string)
    (layers : list nat) (activations : list string) (input_dim : nat)
    (method : string) (epochs batch_size : nat)
    (X_train : matrix) (y_train : list cell) : M Model :=
  try_except
    (load_model dump_file)
    (net ← lift (build_network layers activations input_dim method);
     emit (EvFit net X_train y_train epochs batch_size);;
     f ← lift (fit ext net X_train y_train epochs batch_size);
     save_model f dump_file;;
     ret f).

(** The body of the fold loop, lines 83-146. *)
Definition train_fold (X : matrix) (y : list cell) (dump_dir : string)
    (layers : list nat) (activations : list string) (input_dim : nat)
    (method : string) (epochs batch_size : nat)
    (i : nat) (split : list nat * list nat)
    (acc : list fold_quality * list xreal)
  : M (list fold_quality * list xreal) :=
  let '(train_idx, valid_idx) := split in
  let '(folds, predictions) := acc in
  X_train ← lift (take_rows X train_idx);
  y_train ← lift (take_rows y train_idx);
  let dump_file := model_path dump_dir i in
  f ← load_or_train_model dump_file layers activations input_dim method
        epochs batch_size X_train y_train;
  p_train ← predict_proba f X_train;
  ll_train ← lift (log_loss ext y_train p_train);
  auc_train ← lift (roc_auc_score ext y_train p_train);
  roc_train ← lift (roc_curve ext y_train p_train);
  rel_train ← lift (reliability_curve ext y_train p_train 50);
  X_valid ← lift (take_rows X valid_idx);
  y_valid ← lift (take_rows y valid_idx);
  p_valid ← predict_proba f X_valid;
  ll_valid ← lift (log_loss ext y_valid p_valid);
  auc_valid ← lift (roc_auc_score ext y_valid p_valid);
  roc_valid ← lift (roc_curve ext y_valid p_valid);
  rel_valid ← lift (reliability_curve ext y_valid p_valid 50);
  predictions ← lift (scatter predictions valid_idx (map logit p_valid));
  ret (folds ++ [FoldQuality i dump_file ll_train ll_valid auc_train
                   auc_valid roc_train roc_valid rel_train rel_valid],
       predictions).

(** [train_ff(X, y, skf, **options)]; the result is
    [(quality['folds'], predictions)]. *)
Definition train_ff (X : matrix) (y : list cell) (options : ff_options)
  : M (list fold_quality * list xreal) :=
  let predictions := replicate (length y) xzero in
  let input_dim := ncols X in
  let dump_dir := ff_dump_dir (opt_dump_dir options) in
  layers ← lift (opt_layers options);
  activations ← lift (opt_activations options);
  (if decide (length layers = length activations) then ret () else raise);;
  let method := default "adam" (opt_method options) in
  let epochs := default 10 (opt_epochs options) in
  let batch_size := default 100 (opt_batch_size options) in
  emit (EvSplit X y);;
  splits ← lift (skf_split ext X y);
  for_enumerate 0 splits
    (train_fold X y dump_dir layers activations input_dim method epochs
       batch_size)
    ([], predictions).

(** [compute_feature_matrix(df, vectorizer, combine='stack')] *)
Definition compute_features (df : dataframe) (vectorizer : Vectorizer)
  : M matrix :=
  emit (EvComputeFeatures df vectorizer);;
  lift (compute_feature_matrix ext df vectorizer).

(** Lines 163-173 of [main]: the vectorizer, loaded or trained. *)
Definition load_or_train_vectorizer (train_df : dataframe) (opts : Kwargs)
    (vectorizer_file : string) : M Vectorizer :=
  try_except
    (joblib_load vectorizer_file)
    (emit (EvTrainVectorizer train_df opts);;
     vectorizer ← lift (train_vectorizer ext train_df opts);
     write vectorizer_file (FVectorizer vectorizer);;
     ret vectorizer).

(** Lines 175-186: the train feature matrix, loaded or computed. *)
Definition load_or_compute_features (train_df : dataframe)
    (vectorizer : Vectorizer) (features_file : string) : M matrix :=
  X ← load_feature_matrix features_file;
  match X with
  | Some X => ret X
  | None =>
      X ← compute_features train_df vectorizer;
      save_feature_matrix X features_file;;
      ret X
  end.

(** Lines 193-195, the body of the [try]: both files are read and the
    rank is asserted; [Sv] is the script's [S]. *)
Definition load_svd (k : nat) (singular_values_file : string)
    (singular_vectors_file : string) : M (list xreal * matrix) :=
  Sv ← np_loadtxt singular_values_file;
  VT ← np_load singular_vectors_file "VT";
  n ← lift (loadtxt_len Sv);
  (if decide (k = n) then ret () else raise);;
  ret (Sv, VT).

(** Lines 188-204: the SVD basis, loaded or computed. *)
Definition load_or_compute_svd (opts : svd_options Kwargs) (X : matrix)
    (dump_dir : string) : M (list xreal * matrix) :=
  k ← lift (svd_k opts);
  let singular_values_file := join_path dump_dir "singular_values.txt" in
  let singular_vectors_file := join_path dump_dir "singular_vectors.npz" in
  try_except
    (load_svd k singular_values_file singular_vectors_file)
    (emit (EvComputeSvd X opts);;
     '(Sv, VT) ← lift (compute_svd ext X opts);
     write singular_values_file (FText Sv);;
     write singular_vectors_file (FNpz [("VT", VT)]);;
     plot_singular_values Sv dump_dir;;
     ret (Sv, VT)).

(** Line 207: [np.diag(1. / S) * np.sqrt(X.shape[0])]. *)
Definition make_Sinv (Sv : list xreal) (X : matrix) : matrix :=
  mat_mul_scalar (diag (map (xdiv (Finite 1)) Sv))
                 (xsqrt_nat (nrows X)).

(** Lines 208 and 245: [X.dot(VT.transpose().dot(Sinv))]. *)
Definition project (X VT Sinv : matrix) : option matrix :=
  P ← dot (transpose VT) Sinv;
  dot X P.

(** Lines 224-227: the plots of one fold. *)
Definition plot_fold (quality_dir : string) (q : fold_quality) (_ : ())
  : M () :=
  let img_dir := join_path quality_dir ("fold" +:+ pretty (fold q)) in
  makedirs img_dir;;
  plot_quality q img_dir.

(** Lines 254-256: one fold model applied to the test features. *)
Definition apply_model (U : matrix) (q : fold_quality) (test_df : dataframe)
  : M dataframe :=
  f ← load_model (dump q);
  p ← predict_proba f U;
  col ← lift (get_column test_df "svdff");
  col ← lift (series_add col (map logit p));
  lift (set_column test_df "svdff" col).

Definition main (conf : config Dataset Kwargs) : M () :=
  let dump_dir := conf_dump_dir conf in
  makedirs dump_dir;;
  write (join_path dump_dir "application.conf") FConfig;;
  train_df ← lift (load_train_df ext (conf_dataset conf));
  y ← lift (get_column train_df "is_duplicate");
  vectorizer ← load_or_train_vectorizer train_df (conf_vectorizer conf)
                 (join_path dump_dir "vectorizer.pkl");
  X ← load_or_compute_features train_df vectorizer
        (join_path dump_dir "features_train.npz");
  '(Sv, VT) ← load_or_compute_svd (conf_svd conf) X dump_dir;
  let Sinv := make_Sinv Sv X in
  U ← lift (project X VT Sinv);
  U ← lift (symmetrize U);
  '(quality, predictions) ←
    train_ff U y
      (FFOptions (Some dump_dir) (ff_layers (conf_ff conf))
         (ff_activations (conf_ff conf)) (ff_method (conf_ff conf))
         (ff_epochs (conf_ff conf)) (ff_batch_size (conf_ff conf)));
  let quality_dir := join_path dump_dir "quality" in
  makedirs quality_dir;;
  for_each quality (plot_fold quality_dir) ();;
  train_df ← lift (set_column train_df "svdff" (map CFloat predictions));
  out ← lift (select_columns train_df
                [FieldsTrain_id; FieldsTrain_is_duplicate; "svdff"]);
  to_csv out (join_path dump_dir "train.csv");;
  test_df ← lift (load_test_df ext (conf_dataset conf));
  X ← compute_features test_df vectorizer;
  U ← lift (project X VT Sinv);
  U ← lift (symmetrize U);
  test_df ← lift (set_column test_df "svdff"
                    (replicate (nrows U) (CFloat xzero)));
  test_df ← for_each quality (apply_model U) test_df;
  col ← lift (get_column test_df "svdff");
  col ← lift (series_div col (length quality));
  test_df ← lift (set_column test_df "svdff" col);
  out ← lift (select_columns test_df [FieldsTest_test_id; "svdff"]);
  to_csv out (join_path dump_dir "test.csv").
End Pipeline.

Arguments content : clear implicits.
Arguments event : clear implicits.
Arguments state : clear implicits.
Arguments filesystem : clear implicits.
Arguments externals : clear implicits.

(** ** Specification-side notions *)

(** The arithmetic mean of a list of scores. *)
Definition xsum (l : list xreal) : xreal := foldr xadd xzero l.
Definition xmean (l : list xreal) : xreal := xdiv (xsum l) (xof_nat (length l)).

(** Two matrices of the same height whose rows agree in length. *)
Definition same_shape {T : Type} (A B : list (list T)) : Prop :=
  Forall2 (λ r s : list T, length r = length s) A B.

Definition all_finite (A : matrix) : Prop := Forall (Forall is_finite) A.

(** The two blocks the symmetrization puts side by side. *)
Definition sym_block (Uq1 Uq2 : matrix) : matrix :=
  mat_div_scalar (mat_add Uq1 Uq2) (Finite 2).
Definition antisym_block (Uq1 Uq2 : matrix) : matrix :=
  mat_div_scalar (mat_sub Uq1 Uq2) (Finite 2).


(** What a run leaves behind. *)
Section Observations.
Context {Vectorizer Model Kwargs : Type}.
Local Abbreviation content := (content Vectorizer Model).
Local Abbreviation event := (event Vectorizer Model Kwargs).
Local Abbreviation state := (state Vectorizer Model Kwargs).
Local Abbreviation filesystem := (filesystem Vectorizer Model).

(** The files after the writes among [evs], in order. *)
Definition apply_writes (evs : list event) (fs : filesystem) : filesystem :=
  foldl (λ fs e, match e with EvWrite p c => fs_insert p c fs | _ => fs end)
        fs evs.

(** The state reached from [s] by the calls [evs]. *)
Definition after (s : state) (evs : list event) : state :=
  State (apply_writes evs (files s)) (trace s ++ evs).

Definition csv_writes (evs : list event) : list (string * csv) :=
  omap (λ e, match e with EvWrite p (FCsv c) => Some (p, c) | _ => None end)
       evs.

Definition figure_writes (evs : list event) : list string :=
  omap (λ e, match e with EvWrite p (FFigure _) => Some p | _ => None end)
       evs.

Definition is_compute_svd (e : event) : bool :=
  match e with EvComputeSvd _ _ => true | _ => false end.

Definition is_predict (e : event) : option (Model * matrix) :=
  match e with EvPredict f U => Some (f, U) | _ => None end.

(** The score of a CSV row is its last cell. *)
Definition row_score (r : list cell) : option xreal :=
  match last r with Some (CFloat x) => Some x | _ => None end.

Definition scores_finite (c : csv) : Prop :=
  Forall (λ r, ∃ x, row_score r = Some x ∧ is_finite x) (csv_rows c).
End Observations.

(** The validation sets of [splits] hold every index below [n] exactly
    once among them: what a k-fold splitter promises. *)
Definition in_fold (splits : list (list nat * list nat)) (j i : nat) : Prop :=
  ∃ tr va, splits !! j = Some (tr, va) ∧ i ∈ va.
Definition partitions (splits : list (list nat * list nat)) (n : nat) : Prop :=
  ∀ i, i < n → ∃ j, in_fold splits j i ∧ ∀ j', in_fold splits j' i → j' = j.

(** ** Notions the facts about paths are stated with *)

(** What [join_path] puts in front of a relative name. *)
Definition dir_prefix (d : string) : string :=
  if bool_decide (d = "") || ends_with_sep d then d else d +:+ "/".

(** The last character of a path: the end of its extension. *)
Fixpoint last_char (s : string) : option ascii :=
  match s with
  | EmptyString => None
  | String c EmptyString => Some c
  | String _ s' => last_char s'
  end.

(** ** Notions the facts about a run are stated with *)

Section Notions.
Context {Vectorizer Model Dataset Kwargs : Type}.
Variable ext : externals Vectorizer Model Dataset Kwargs.
Local Abbreviation state := (state Vectorizer Model Kwargs).
Local Abbreviation event := (event Vectorizer Model Kwargs).
Local Abbreviation content := (content Vectorizer Model).

Implicit Types (s t : state) (f : Model) (X U : matrix).

(** What the [try] block of lines 192-195 yields on the files [fs]. *)
Definition cached_svd (fs : filesystem Vectorizer Model) (k : nat)
    (dump_dir : string) : option (list xreal * matrix) :=
  match fs (join_path dump_dir "singular_values.txt"),
        fs (join_path dump_dir "singular_vectors.npz") with
  | Some (FText Sv), Some (FNpz arrays) =>
      VT ← npz_get "VT" arrays;
      n ← loadtxt_len Sv;
      if decide (k = n) then Some (Sv, VT) else None
  | _, _ => None
  end.

(** The figure [plot_singular_values] saves. *)
Definition singular_values_figure (Sv : list xreal) : option figure :=
  s0 ← sorted_reverse Sv !! 0;
  if is_finiteb s0
  then Some (Figure "Singular values"
               [Curve None (sorted_reverse Sv) "b.-" None] (Some (xzero, s0)))
  else None.

(** The calls of a fresh decomposition: computed, persisted, plotted. *)
Definition fresh_svd_events (opts : svd_options Kwargs) X (d : string)
    (Sv : list xreal) (VT : matrix) (fig : figure) : list event :=
  [EvComputeSvd X opts;
   EvWrite (join_path d "singular_values.txt") (FText Sv);
   EvWrite (join_path d "singular_vectors.npz") (FNpz [("VT", VT)]);
   EvWrite (join_path d "singular_values.png") (FFigure fig)].

(** The held-out score of record [i] under model [f]. *)
Definition held_out f X (i : nat) : xreal :=
  match X !! i with
  | Some u =>
      match predict_row ext f u with
      | Some p => logit p
      | None => xzero
      end
  | None => xzero
  end.

(** The events of the fold loop: fits, predictions and checkpoints of
    the first [n] folds. *)
Definition train_event (dd : string) (n : nat) (e : event) : Prop :=
  match e with
  | EvFit _ _ _ _ _ | EvPredict _ _ => True
  | EvWrite p (FModel _) => ∃ j, j < n ∧ p = model_path dd j
  | _ => False
  end.

(** What holds after the first [n] folds. *)
Definition train_loop_state X (dd : string)
    (splits : list (list nat * list nat)) (preds0 : list xreal) s0
    (n : nat) (acc : list fold_quality * list xreal) t : Prop :=
  length acc.2 = length preds0
  ∧ length acc.1 = n
  ∧ (∀ j q, acc.1 !! j = Some q → fold q = j ∧ dump q = model_path dd j)
  ∧ (∃ evs, t = after s0 evs ∧ Forall (train_event dd n) evs)
  ∧ (∀ p, (∀ j, j < n → p ≠ model_path dd j) → files t p = files s0 p)
  ∧ (∀ j tr va, j < n → splits !! j = Some (tr, va) →
       ∃ f, files t (model_path dd j) = Some (FModel f)
         ∧ ∀ i, i ∈ va →
             (∀ j' tr' va', j < j' → j' < n →
                            splits !! j' = Some (tr', va') → i ∉ va') →
             acc.2 !! i = Some (held_out f X i)
             ∧ ∃ u pr, X !! i = Some u ∧ predict_row ext f u = Some pr)
  ∧ (∀ i, (∀ j tr va, j < n → splits !! j = Some (tr, va) → i ∉ va) →
          acc.2 !! i = preds0 !! i).

(** The calls [plot_fold] makes for one fold. *)
Definition plot_events (quality_dir : string) (q : fold_quality)
  : list event :=
  let img_dir := join_path quality_dir ("fold" +:+ pretty (fold q)) in
  [EvMakedirs img_dir;
   EvWrite (join_path img_dir "roc.png") (FFigure (roc_figure q));
   EvWrite (join_path img_dir "reliability.png")
     (FFigure (reliability_figure q))].

(** The keyword arguments [main] calls [train_ff] with. *)
Definition train_options (conf : config Dataset Kwargs) : ff_options :=
  FFOptions (Some (conf_dump_dir conf)) (ff_layers (conf_ff conf))
    (ff_activations (conf_ff conf)) (ff_method (conf_ff conf))
    (ff_epochs (conf_ff conf)) (ff_batch_size (conf_ff conf)).

(** The values and states a successful run goes through. *)
Record run : Type := Run {
  r_train_df : dataframe;
  r_y : list cell;
  r_vectorizer : Vectorizer;
  r_sV : state;
  r_X : matrix;
  r_sF : state;
  r_Sv : list xreal;
  r_VT : matrix;
  r_sS : state;
  r_U : matrix;
  r_folds : list fold_quality;
  r_predictions : list xreal;
  r_sT : state;
  r_train_out : dataframe;
  r_train_rows : list (list cell);
  r_test_df : dataframe;
  r_X_test : matrix;
  r_U_test : matrix;
  r_test_df0 : dataframe;
  r_test_df1 : dataframe;
  r_sP : state;
  r_test_out : dataframe;
  r_test_rows : list (list cell)
}.

(** The call that writes the train CSV. *)
Definition train_csv_event (d : string) (r : run) : event :=
  EvWrite (join_path d "train.csv")
    (FCsv (Csv false (map fst (df_cols (r_train_out r))) (r_train_rows r))).

(** The call that writes the test CSV. *)
Definition test_csv_event (d : string) (r : run) : event :=
  EvWrite (join_path d "test.csv")
    (FCsv (Csv false (map fst (df_cols (r_test_out r))) (r_test_rows r))).

(** The steps of [main] on a successful run from [s] to [s'], with
    the values of [r] in between. *)
Definition main_run (conf : config Dataset Kwargs) s s' (r : run) : Prop :=
  let d := conf_dump_dir conf in
  load_train_df ext (conf_dataset conf) = Some (r_train_df r)
  ∧ get_column (r_train_df r) "is_duplicate" = Some (r_y r)
  ∧ load_or_train_vectorizer ext (r_train_df r) (conf_vectorizer conf)
      (join_path d "vectorizer.pkl")
      (after s [EvMakedirs d; EvWrite (join_path d "application.conf") FConfig])
    = (Some (r_vectorizer r), r_sV r)
  ∧ load_or_compute_features ext (r_train_df r) (r_vectorizer r)
      (join_path d "features_train.npz") (r_sV r)
    = (Some (r_X r), r_sF r)
  ∧ load_or_compute_svd ext (conf_svd conf) (r_X r) d (r_sF r)
    = (Some (r_Sv r, r_VT r), r_sS r)
  ∧ project (r_X r) (r_VT r) (make_Sinv (r_Sv r) (r_X r)) ≫= symmetrize
    = Some (r_U r)
  ∧ train_ff ext (r_U r) (r_y r) (train_options conf) (r_sS r)
    = (Some (r_folds r, r_predictions r), r_sT r)
  ∧ (∃ df, set_column (r_train_df r) "svdff" (map CFloat (r_predictions r))
           = Some df
         ∧ select_columns df
             [FieldsTrain_id; FieldsTrain_is_duplicate; "svdff"]
           = Some (r_train_out r))
  ∧ frame_rows (r_train_out r) = Some (r_train_rows r)
  ∧ load_test_df ext (conf_dataset conf) = Some (r_test_df r)
  ∧ compute_feature_matrix ext (r_test_df r) (r_vectorizer r)
    = Some (r_X_test r)
  ∧ project (r_X_test r) (r_VT r) (make_Sinv (r_Sv r) (r_X r)) ≫= symmetrize
    = Some (r_U_test r)
  ∧ set_column (r_test_df r) "svdff"
      (replicate (nrows (r_U_test r)) (CFloat xzero))
    = Some (r_test_df0 r)
  ∧ for_each (r_folds r) (apply_model ext (r_U_test r)) (r_test_df0 r)
      (after (r_sT r)
         (EvMakedirs (join_path d "quality")
          :: concat (map (plot_events (join_path d "quality")) (r_folds r))
          ++ [train_csv_event d r;
              EvComputeFeatures (r_test_df r) (r_vectorizer r)]))
    = (Some (r_test_df1 r), r_sP r)
  ∧ (∃ col col' df,
       get_column (r_test_df1 r) "svdff" = Some col
       ∧ series_div col (length (r_folds r)) = Some col'
       ∧ set_column (r_test_df1 r) "svdff" col' = Some df
       ∧ select_columns df [FieldsTest_test_id; "svdff"]
         = Some (r_test_out r))
  ∧ frame_rows (r_test_out r) = Some (r_test_rows r)
  ∧ s' = after (r_sP r) [test_csv_event d r].

(** The paths written to, in order. *)
Definition written_paths (evs : list event) : list string :=
  omap (λ e, match e with EvWrite p _ => Some p | _ => None end) evs.

(** The predictions asked for, in order. *)
Definition predicts (evs : list event) : list (Model * matrix) :=
  omap is_predict evs.

(** What the four kinds of observation make of a list of calls. *)
Record summary : Type := Summary {
  sum_csv : list (string * csv);
  sum_figures : list string;
  sum_paths : list string;
  sum_predicts : list (Model * matrix);
  sum_svd : bool
}.

(** The summary of a list of calls. *)
Definition summarize (evs : list event) : summary :=
  Summary (csv_writes evs) (figure_writes evs) (written_paths evs)
    (predicts evs) (existsb is_compute_svd evs).

(** The summary of two lists of calls, one after the other. *)
Definition summary_app (a b : summary) : summary :=
  Summary (sum_csv a ++ sum_csv b) (sum_figures a ++ sum_figures b)
    (sum_paths a ++ sum_paths b) (sum_predicts a ++ sum_predicts b)
    (sum_svd a || sum_svd b).

(** The two image files of fold [j]. *)
Definition plot_paths (qd : string) (j : nat) : list string :=
  [join_path (join_path qd ("fold" +:+ pretty j)) "roc.png";
   join_path (join_path qd ("fold" +:+ pretty j)) "reliability.png"].

(** The basis is on disk once [load_or_compute_svd] returns. *)
Definition svd_on_disk (fs : filesystem Vectorizer Model) (d : string)
    (Sv : list xreal) (VT : matrix) : Prop :=
  fs (join_path d "singular_values.txt") = Some (FText Sv)
  ∧ ∃ arrays, fs (join_path d "singular_vectors.npz") = Some (FNpz arrays)
              ∧ npz_get "VT" arrays = Some VT.

(** The calls of a run after the fold loop: plots, the train CSV, the
    test features, one prediction per fold model, the test CSV. *)
Definition post_events (conf : config Dataset Kwargs) (r : run)
    (models : list Model) : list event :=
  let d := conf_dump_dir conf in
  [EvMakedirs (join_path d "quality")]
  ++ concat (map (plot_events (join_path d "quality")) (r_folds r))
  ++ [train_csv_event d r; EvComputeFeatures (r_test_df r) (r_vectorizer r)]
  ++ map (λ f, EvPredict f (r_U_test r)) models
  ++ [test_csv_event d r].

(** The calls of a whole run, in order. *)
Definition main_events (conf : config Dataset Kwargs) (r : run)
    (vec_evs feat_evs svd_evs train_evs : list event) (models : list Model)
  : list event :=
  let d := conf_dump_dir conf in
  [EvMakedirs d; EvWrite (join_path d "application.conf") FConfig]
  ++ vec_evs ++ feat_evs ++ svd_evs
  ++ [EvSplit (r_U r) (r_y r)] ++ train_evs
  ++ post_events conf r models.

(** The scores the test loop starts from. *)
Definition zero_scores (U : matrix) : list xreal :=
  replicate (nrows U) xzero.

(** The models that [fs] holds as the checkpoints of the first [n] folds
    put out, on every row of [rows], a value strictly between 0 and 1. *)
Definition fold_outputs_open (fs : filesystem Vectorizer Model) (dd : string)
    (n : nat) (rows : matrix) : Prop :=
  ∀ j f u pr,
    j < n → fs (model_path dd j) = Some (FModel f) → u ∈ rows →
    predict_row ext f u = Some pr →
    ∃ x, pr = Finite x ∧ (0 < x < 1)%R.

(** A score that is the logit of the output, on a row of [rows], of the
    checkpoint of one of the first [n] folds. *)
Definition fold_logit (fs : filesystem Vectorizer Model) (dd : string)
    (n : nat) (rows : matrix) (v : xreal) : Prop :=
  ∃ j f u pr,
    j < n ∧ fs (model_path dd j) = Some (FModel f) ∧ u ∈ rows
    ∧ predict_row ext f u = Some pr ∧ v = logit pr.

(** Modelled from the spec: [compute_svd] of the [svd] module, which is
    not part of the sources at hand.  By the spec the rank of the basis
    must match the configured k: the routine returns as many singular
    values as the key [k] of its options asks for. *)
Definition compute_svd_rank : Prop :=
  ∀ X opts Sv VT,
    compute_svd ext X opts = Some (Sv, VT) → svd_k opts = Some (length Sv).
End Notions.

(** What entry [q] of the quality record says of a model [f] on the rows
    [idx] of the data: the four metrics of one side, train or valid. *)
Definition metrics_of {Vectorizer Model Dataset Kwargs : Type}
    (ext : externals Vectorizer Model Dataset Kwargs) (f : Model)
    (X : matrix) (y : list cell) (idx : list nat)
    (ll auc : xreal) (roc rel : list xreal * list xreal) : Prop :=
  ∃ Xi yi p,
    take_rows X idx = Some Xi ∧ take_rows y idx = Some yi
    ∧ mapM (predict_row ext f) Xi = Some p
    ∧ log_loss ext yi p = Some ll
    ∧ roc_auc_score ext yi p = Some auc
    ∧ roc_curve ext yi p = Some roc
    ∧ reliability_curve ext yi p 50 = Some rel.

(** ** A small world to run the script in

    Two training pairs, one test pair, two features per question, two
    folds.  A model is what [fit] or a checkpoint yields; [out] is its
    output, the same on every row. *)

Definition demo_train_df : dataframe :=
  DataFrame 2
    [("id", [CInt 0; CInt 1]);
     ("question1", [CStr "a"; CStr "c"]);
     ("question2", [CStr "b"; CStr "c"]);
     ("is_duplicate", [CInt 0; CInt 1])].

Definition demo_test_df : dataframe :=
  DataFrame 1
    [("test_id", [CInt 7]); ("question1", [CStr "x"]); ("question2", [CStr "y"])].

Definition demo_features (df : dataframe) : matrix :=
  replicate (df_nrows df) [Finite 1; Finite 0]
  ++ replicate (df_nrows df) [Finite 0; Finite 1].

Definition demo_splits : list (list nat * list nat) :=
  [([1], [0]); ([0], [1])].

Definition make_ext {Model : Type} (trained : Model) (out : Model → xreal)
  : externals () Model () () :=
  {| load_train_df := λ _, Some demo_train_df;
     load_test_df := λ _, Some demo_test_df;
     train_vectorizer := λ _ _, Some ();
     compute_feature_matrix := λ df _, Some (demo_features df);
     compute_svd := λ _ opts,
       k ← svd_k opts;
       Some (replicate k (Finite 1), replicate k [Finite 1; Finite 0]);
     skf_split := λ _ _, Some demo_splits;
     fit := λ _ _ _ _ _, Some trained;
     predict_row := λ m _, Some (out m);
     log_loss := λ _ _, Some xzero;
     roc_auc_score := λ _ _, Some xzero;
     roc_curve := λ _ _, Some ([], []);
     reliability_curve := λ _ _ _, Some ([], []) |}.

(** Models that are their own output: a checkpoint may hold any of them. *)
Definition demo_ext : externals () xreal () () :=
  make_ext (Finite (1 / 2)) (λ m, m).

Definition demo_conf (k : nat) : config () () :=
  Config "d" () () (SvdOptions (Some k) ())
    (FFConf (Some [4; 2]) (Some ["relu"; "tanh"]) None None None).

Definition demo_options : ff_options :=
  FFOptions (Some "d") (Some [4; 2]) (Some ["relu"; "tanh"]) None None None.

(** An empty dump directory. *)
Definition s_empty {Model : Type} : state () Model () := State (λ _, None) [].

(** A dump directory that holds a decomposition of rank 2 and, for both
    folds, a checkpoint whose output has saturated at 1. *)
Definition s_cached : state () xreal () :=
  State (λ p,
     if String.eqb p "d/singular_values.txt"
     then Some (FText [Finite 1; Finite 1])
     else if String.eqb p "d/singular_vectors.npz"
     then Some (FNpz [("VT", [[Finite 1; Finite 0]; [Finite 0; Finite 1]])])
     else if String.eqb p "d/model_0.pkl" then Some (FModel (Finite 1))
     else if String.eqb p "d/model_1.pkl" then Some (FModel (Finite 1))
     else None) [].

Definition demo_final : state () xreal () :=
  (main demo_ext (demo_conf 1) s_empty).2.
Definition cached_final : state () xreal () :=
  (main demo_ext (demo_conf 2) s_cached).2.

Definition demo_X : matrix := [[Finite 1]; [Finite 2]].
Definition demo_y : list cell := [CInt 0; CInt 1].
Definition demo_train_result : list fold_quality * list xreal :=
  default ([], []) (train_ff demo_ext demo_X demo_y demo_options s_empty).1.
Definition demo_train_final : state () xreal () :=
  (train_ff demo_ext demo_X demo_y demo_options s_empty).2.

(** Two halves of one row; their second entries agree. *)
Definition demo_Uq1 : matrix64 := [[1%float; 2%float]].
Definition demo_Uq2 : matrix64 := [[3%float; 2%float]].


(** The small world with other folds, and other states of the dump
    directory. *)
Definition split_ext (splits : list (list nat * list nat))
  : externals () xreal () () :=
  {| load_train_df := load_train_df demo_ext;
     load_test_df := load_test_df demo_ext;
     train_vectorizer := train_vectorizer demo_ext;
     compute_feature_matrix := compute_feature_matrix demo_ext;
     compute_svd := compute_svd demo_ext;
     skf_split := λ _ _, Some splits;
     fit := fit demo_ext;
     predict_row := predict_row demo_ext;
     log_loss := log_loss demo_ext;
     roc_auc_score := roc_auc_score demo_ext;
     roc_curve := roc_curve demo_ext;
     reliability_curve := reliability_curve demo_ext |}.

(** Record 1 is held out by both folds. *)
Definition overlap_splits : list (list nat * list nat) :=
  [([1], [0; 1]); ([0], [1])].

(** Record 1 is held out by no fold. *)
Definition partial_splits : list (list nat * list nat) := [([1], [0])].

(** One activation for two layers. *)
Definition bad_options : ff_options :=
  FFOptions (Some "d") (Some [4; 2]) (Some ["relu"]) None None None.

(** Two checkpoints that differ. *)
Definition s_two_models : state () xreal () :=
  State (λ p,
     if String.eqb p "d/model_0.pkl" then Some (FModel (Finite (1 / 4)))
     else if String.eqb p "d/model_1.pkl" then Some (FModel (Finite (3 / 4)))
     else None) [].

Definition overlap_train_result : list fold_quality * list xreal :=
  default ([], [])
    (train_ff (split_ext overlap_splits) demo_X demo_y demo_options
       s_two_models).1.
Definition overlap_train_final : state () xreal () :=
  (train_ff (split_ext overlap_splits) demo_X demo_y demo_options
     s_two_models).2.

Definition partial_train_result : list fold_quality * list xreal :=
  default ([], [])
    (train_ff (split_ext partial_splits) demo_X demo_y demo_options s_empty).1.
Definition partial_train_final : state () xreal () :=
  (train_ff (split_ext partial_splits) demo_X demo_y demo_options s_empty).2.

Definition cached_train_result : list fold_quality * list xreal :=
  default ([], []) (train_ff demo_ext demo_X demo_y demo_options s_cached).1.
Definition cached_train_final : state () xreal () :=
  (train_ff demo_ext demo_X demo_y demo_options s_cached).2.

Definition nofold_final : state () xreal () :=
  (main (split_ext []) (demo_conf 1) s_empty).2.

Definition demo_svd_options (k : nat) : svd_options () := SvdOptions (Some k) ().

(** A configuration without the rank. *)
Definition conf_without_k : config () () :=
  Config "d" () () (SvdOptions None ())
    (FFConf (Some [4; 2]) (Some ["relu"; "tanh"]) None None None).

(** One row of two features, one singular vector, one singular value. *)
Definition demo_row : matrix := [[Finite 1; Finite 0]].
Definition demo_projected : matrix :=
  default [] (project demo_row demo_row (make_Sinv [Finite 1] demo_row)).

(** * Facts *)

(** ** Extended reals *)

Lemma two_neq_0 : 2%R ≠ 0%R.
Proof. lra. Qed.

Lemma xdiv_finite_2 (x : R) : xdiv (Finite x) (Finite 2) = Finite (x / 2).
Proof. simpl. destruct (Req_dec_T 2 0); [lra | reflexivity]. Qed.

Lemma xadd_comm (a b : xreal) : xadd a b = xadd b a.
Proof. destruct a, b; simpl; try reflexivity. f_equal. lra. Qed.

Lemma xadd_assoc (a b c : xreal) : xadd a (xadd b c) = xadd (xadd a b) c.
Proof. destruct a, b, c; simpl; try reflexivity. f_equal. lra. Qed.

Lemma xadd_zero_l (a : xreal) : xadd xzero a = a.
Proof. destruct a; simpl; try reflexivity. f_equal. lra. Qed.

Lemma xadd_zero_r (a : xreal) : xadd a xzero = a.
Proof. rewrite xadd_comm. apply xadd_zero_l. Qed.

Lemma half_sum_plus_half_diff (a b : xreal) :
  is_finite a → is_finite b →
  xadd (xdiv (xadd a b) (Finite 2)) (xdiv (xsub a b) (Finite 2)) = a.
Proof.
  destruct a as [x| | |], b as [y| | |]; simpl; try tauto. intros _ _.
  destruct (Req_dec_T 2 0); [lra |]. simpl. f_equal. lra.
Qed.

Lemma half_sum_minus_half_diff (a b : xreal) :
  is_finite a → is_finite b →
  xsub (xdiv (xadd a b) (Finite 2)) (xdiv (xsub a b) (Finite 2)) = b.
Proof.
  destruct a as [x| | |], b as [y| | |]; simpl; try tauto. intros _ _.
  unfold xsub. simpl. destruct (Req_dec_T 2 0); [lra |]. simpl. f_equal. lra.
Qed.

Lemma half_diff_swap (a b : xreal) :
  xdiv (xsub b a) (Finite 2) = xneg (xdiv (xsub a b) (Finite 2)).
Proof.
  destruct a as [x| | |], b as [y| | |]; unfold xsub; simpl;
    repeat (destruct (Req_dec_T _ _)); repeat (destruct (Rlt_dec _ _));
    simpl; try reflexivity; try lra.
  f_equal. lra.
Qed.

(** ** Matrices *)

Lemma zip_with_rows_ext {T : Type} (f g : T → T → T) (r s : list T) :
  (∀ a b, f a b = g b a) → zip_with f r s = zip_with g s r.
Proof.
  intros Hfg. revert s. induction r as [|a r IH]; intros [|b s]; simpl;
    try reflexivity.
  by rewrite Hfg, IH.
Qed.

Lemma row_recover_sum (r s : list xreal) :
  length r = length s → Forall is_finite r → Forall is_finite s →
  zip_with xadd (map (λ a, xdiv a (Finite 2)) (zip_with xadd r s))
                (map (λ a, xdiv a (Finite 2)) (zip_with xsub r s)) = r.
Proof.
  revert s. induction r as [|a r IH]; intros [|b s] Hlen Hr Hs;
    simplify_eq/=; [done|].
  inversion_clear Hr; inversion_clear Hs.
  rewrite half_sum_plus_half_diff by done. f_equal. by apply IH.
Qed.

Lemma row_recover_diff (r s : list xreal) :
  length r = length s → Forall is_finite r → Forall is_finite s →
  zip_with xsub (map (λ a, xdiv a (Finite 2)) (zip_with xadd r s))
                (map (λ a, xdiv a (Finite 2)) (zip_with xsub r s)) = s.
Proof.
  revert s. induction r as [|a r IH]; intros [|b s] Hlen Hr Hs;
    simplify_eq/=; [done|].
  inversion_clear Hr; inversion_clear Hs.
  rewrite half_sum_minus_half_diff by done. f_equal. by apply IH.
Qed.

Lemma blocks_recover_sum (Uq1 Uq2 : matrix) :
  same_shape Uq1 Uq2 → all_finite Uq1 → all_finite Uq2 →
  mat_add (sym_block Uq1 Uq2) (antisym_block Uq1 Uq2) = Uq1.
Proof.
  unfold sym_block, antisym_block, mat_add, mat_sub, mat_div_scalar,
    mat_zip, mat_map, all_finite.
  induction 1 as [|r s A B Hrs HAB IH]; intros H1 H2; simpl; [done|].
  inversion_clear H1; inversion_clear H2.
  rewrite row_recover_sum by done. f_equal. by apply IH.
Qed.

Lemma blocks_recover_diff (Uq1 Uq2 : matrix) :
  same_shape Uq1 Uq2 → all_finite Uq1 → all_finite Uq2 →
  mat_sub (sym_block Uq1 Uq2) (antisym_block Uq1 Uq2) = Uq2.
Proof.
  unfold sym_block, antisym_block, mat_add, mat_sub, mat_div_scalar,
    mat_zip, mat_map, all_finite.
  induction 1 as [|r s A B Hrs HAB IH]; intros H1 H2; simpl; [done|].
  inversion_clear H1; inversion_clear H2.
  rewrite row_recover_diff by done. f_equal. by apply IH.
Qed.

Lemma sym_block_swap (Uq1 Uq2 : matrix) :
  sym_block Uq2 Uq1 = sym_block Uq1 Uq2.
Proof.
  unfold sym_block, mat_add, mat_zip. f_equal.
  revert Uq2. induction Uq1 as [|r A IH]; intros [|s B]; simpl; try done.
  rewrite IH. f_equal. apply zip_with_rows_ext, xadd_comm.
Qed.

Lemma antisym_block_swap (Uq1 Uq2 : matrix) :
  antisym_block Uq2 Uq1 = mat_neg (antisym_block Uq1 Uq2).
Proof.
  unfold antisym_block, mat_neg, mat_sub, mat_div_scalar, mat_zip, mat_map.
  revert Uq2. induction Uq1 as [|r A IH]; intros [|s B]; simpl; try done.
  rewrite IH. f_equal. clear.
  revert s. induction r as [|a r IH]; intros [|b s]; simpl; try done.
  by rewrite IH, half_diff_swap.
Qed.

Lemma vsplit_app {T : Type} (Uq1 Uq2 : list T) :
  length Uq1 = length Uq2 → vsplit (Uq1 ++ Uq2) = Some (Uq1, Uq2).
Proof.
  intros Hlen. unfold vsplit. rewrite length_app, <- Hlen.
  assert (Heven : Nat.even (length Uq1 + length Uq1) = true).
  { rewrite Nat.even_add. by destruct (Nat.even (length Uq1)). }
  assert (Hhalf : (length Uq1 + length Uq1) / 2 = length Uq1).
  { replace (length Uq1 + length Uq1) with (length Uq1 * 2) by lia.
    apply Nat.div_mul. lia. }
  cbv zeta. rewrite Heven, Hhalf.
  by rewrite take_app_length, drop_app_length.
Qed.

Lemma symmetrize_app (Uq1 Uq2 : matrix) :
  length Uq1 = length Uq2 →
  symmetrize (Uq1 ++ Uq2)
  = Some (zip_with app (sym_block Uq1 Uq2) (antisym_block Uq1 Uq2)).
Proof.
  intros Hlen. unfold symmetrize. rewrite vsplit_app by done. simpl.
  unfold hstack. fold (sym_block Uq1 Uq2) (antisym_block Uq1 Uq2).
  rewrite decide_True; [done|].
  unfold sym_block, antisym_block, mat_div_scalar, mat_map, mat_add, mat_sub,
    mat_zip.
  rewrite !length_map, !length_zip_with. lia.
Qed.

(** The linear algebra of the step, which holds of the exact arithmetic
    of [xreal] and not of binary64: for halves of one shape with finite
    entries the halves are the sum and the difference of the two blocks,
    and exchanging the halves keeps the first block and negates the
    second. *)
Lemma exact_symmetrize_invertible (Uq1 Uq2 : matrix) :
  same_shape Uq1 Uq2 → all_finite Uq1 → all_finite Uq2 →
  let A := mat_div_scalar (mat_add Uq1 Uq2) (Finite 2) in
  let B := mat_div_scalar (mat_sub Uq1 Uq2) (Finite 2) in
  symmetrize (Uq1 ++ Uq2) = hstack A B
  ∧ hstack A B = Some (zip_with app A B)
  ∧ mat_add A B = Uq1
  ∧ mat_sub A B = Uq2
  ∧ symmetrize (Uq2 ++ Uq1) = hstack A (mat_neg B)
  ∧ hstack A (mat_neg B) = Some (zip_with app A (mat_neg B)).
Proof.
  intros Hshape H1 H2 A B.
  assert (Hlen : length Uq1 = length Uq2) by (by eapply Forall2_length).
  assert (HAB : length A = length B).
  { unfold A, B, mat_div_scalar, mat_map, mat_add, mat_sub, mat_zip.
    rewrite !length_map, !length_zip_with. lia. }
  assert (Hh : hstack A B = Some (zip_with app A B)).
  { unfold hstack. by rewrite decide_True. }
  assert (Hh' : hstack A (mat_neg B) = Some (zip_with app A (mat_neg B))).
  { unfold hstack. rewrite decide_True; [done|].
    unfold mat_neg, mat_map. by rewrite length_map. }
  repeat split; try done.
  - rewrite Hh. by apply symmetrize_app.
  - by apply blocks_recover_sum.
  - by apply blocks_recover_diff.
  - rewrite Hh', symmetrize_app by done.
    by rewrite sym_block_swap, antisym_block_swap.
Qed.

(** ** The symmetrization in binary64 *)

(** One program, two arithmetics. *)
Lemma symmetrize_arithmetic (U : matrix) :
  symmetrize U = symmetrize_with xadd xsub (λ a, xdiv a (Finite 2)) U.
Proof. reflexivity. Qed.

Lemma symmetrize64_arithmetic (U : matrix64) :
  symmetrize64 U
  = symmetrize_with PrimFloat.add PrimFloat.sub (λ a, a / 2)%float U.
Proof. reflexivity. Qed.















(** ** Programs *)

Lemma bind_inv {St A B} (m : prog St A) (k : A → prog St B) s b s' :
  bind m k s = (Some b, s') →
  ∃ a s1, m s = (Some a, s1) ∧ k a s1 = (Some b, s').
Proof.
  unfold bind. destruct (m s) as [[a|] s1]; [eauto | discriminate].
Qed.

Lemma lift_inv {St A} (o : option A) (s : St) a s' :
  lift o s = (Some a, s') → o = Some a ∧ s' = s.
Proof. unfold lift. by intros [= -> ->]. Qed.

Lemma ret_inv {St A} (x : A) (s : St) a s' :
  ret x s = (Some a, s') → a = x ∧ s' = s.
Proof. unfold ret. by intros [= -> ->]. Qed.

Lemma try_except_inv {St A} (m h : prog St A) s a s' :
  try_except m h s = (Some a, s') →
  m s = (Some a, s') ∨ ∃ s1, m s = (None, s1) ∧ h s1 = (Some a, s').
Proof.
  unfold try_except. destruct (m s) as [[a'|] s1]; [|by eauto].
  intros [= -> ->]. by left.
Qed.

Lemma guard_inv {St} (P : Prop) `{Decision P} (s : St) u s' :
  (if decide P then ret () else raise) s = (Some u, s') → P ∧ s' = s.
Proof. destruct (decide P); [|discriminate]. by intros [= _ ->]. Qed.

(** Decomposing a successful run, one step at a time. *)
Ltac prog_unfold :=
  unfold mbind, prog_bind, mret, prog_ret in *.

Ltac prog_inv H :=
  lazymatch type of H with
  | bind ?m ?k ?s = (Some _, _) =>
      let a := fresh "a" in
      let s1 := fresh "s" in
      let E := fresh "E" in
      apply bind_inv in H as (a & s1 & E & H);
      cbv beta in H; prog_inv E
  | lift ?o ?s = (Some _, _) =>
      let E := fresh "E" in
      apply lift_inv in H as [E ->]
  | ret ?x ?s = (Some _, _) =>
      apply ret_inv in H as [-> ->]
  | (if decide ?P then ret () else raise) ?s = (Some _, _) =>
      let E := fresh "E" in
      apply guard_inv in H as [E ->]
  | _ => idtac
  end.

Lemma for_enumerate_ind {St A B} (Inv : nat → B → St → Prop)
    (body : nat → A → B → prog St B) (l : list A) i0 acc s r s' :
  Inv 0 acc s →
  (∀ j x b t b' t',
      l !! j = Some x → Inv j b t →
      body (i0 + j) x b t = (Some b', t') → Inv (S j) b' t') →
  for_enumerate i0 l body acc s = (Some r, s') →
  Inv (length l) r s'.
Proof.
  revert Inv i0 acc s. induction l as [|x l IH]; intros Inv i0 acc s H0 Hstep.
  - simpl. by intros [-> ->]%ret_inv.
  - simpl. intros (b & t & Hb & Hrest)%bind_inv.
    apply (IH (λ j, Inv (S j)) (S i0) b t).
    + apply (Hstep 0 x acc s); [done..|]. by rewrite Nat.add_0_r.
    + intros j y c u c' u' Hj HI Hbody.
      apply (Hstep (S j) y c u); [done..|].
      by rewrite <- Nat.add_succ_comm.
    + done.
Qed.

Lemma for_each_ind {St A B} (Inv : nat → B → St → Prop)
    (body : A → B → prog St B) (l : list A) acc s r s' :
  Inv 0 acc s →
  (∀ j x b t b' t',
      l !! j = Some x → Inv j b t →
      body x b t = (Some b', t') → Inv (S j) b' t') →
  for_each l body acc s = (Some r, s') →
  Inv (length l) r s'.
Proof.
  revert Inv acc s. induction l as [|x l IH]; intros Inv acc s H0 Hstep.
  - simpl. by intros [-> ->]%ret_inv.
  - simpl. intros (b & t & Hb & Hrest)%bind_inv.
    apply (IH (λ j, Inv (S j)) b t).
    + by apply (Hstep 0 x acc s).
    + intros j y c u c' u' Hj HI Hbody. by apply (Hstep (S j) y c u).
    + done.
Qed.

(** ** Strings and paths *)

Lemma append_String (a : ascii) (s t : string) :
  String a s +:+ t = String a (s +:+ t).
Proof. reflexivity. Qed.

Lemma append_assoc (s t u : string) : (s +:+ t) +:+ u = s +:+ (t +:+ u).
Proof. induction s as [|a s IH]; [done|]. by rewrite !append_String, IH. Qed.

Lemma append_length (s t : string) :
  String.length (s +:+ t) = String.length s + String.length t.
Proof. induction s as [|a s IH]; [done|]. rewrite append_String. simpl. by rewrite IH. Qed.

Lemma append_inj_r (s1 s2 t : string) : s1 +:+ t = s2 +:+ t → s1 = s2.
Proof.
  revert s2. induction s1 as [|a s1 IH]; intros [|b s2] H; [done| | |].
  - apply (f_equal String.length) in H.
    rewrite !append_length in H. simpl in H. lia.
  - apply (f_equal String.length) in H.
    rewrite !append_length in H. simpl in H. lia.
  - rewrite !append_String in H. injection H as -> H. f_equal. by apply IH.
Qed.

Lemma join_path_relative (d b : string) :
  starts_with_sep b = false → join_path d b = dir_prefix d +:+ b.
Proof.
  intros Hb. unfold join_path, dir_prefix. rewrite Hb.
  destruct (bool_decide (d = "") || ends_with_sep d); [done|].
  by rewrite append_assoc.
Qed.

Lemma join_path_inj (d b b' : string) :
  starts_with_sep b = false → starts_with_sep b' = false →
  join_path d b = join_path d b' → b = b'.
Proof.
  intros Hb Hb'. rewrite !join_path_relative by done.
  apply String.app_inj.
Qed.

Lemma model_path_inj (d : string) (i j : nat) :
  model_path d i = model_path d j → i = j.
Proof.
  unfold model_path. intros H. apply join_path_inj in H; [|done..].
  apply String.app_inj, append_inj_r in H. by apply pretty_nat_inj in H.
Qed.

Lemma last_char_append (s t : string) :
  t ≠ "" → last_char (s +:+ t) = last_char t.
Proof.
  intros Ht. induction s as [|a s IH]; [done|].
  rewrite append_String. destruct (s +:+ t) eqn:E; [|done].
  apply (f_equal String.length) in E. rewrite append_length in E.
  destruct t; [done|]. simpl in E. lia.
Qed.

Lemma last_char_join_path (d b : string) :
  b ≠ "" → last_char (join_path d b) = last_char b.
Proof.
  intros Hb. unfold join_path. destruct (starts_with_sep b); [done|].
  destruct (bool_decide (d = "") || ends_with_sep d).
  - by apply last_char_append.
  - rewrite last_char_append; [by apply last_char_append|]. by destruct b.
Qed.

Lemma last_char_model_path (d : string) (i : nat) :
  last_char (model_path d i) = Some "l"%char.
Proof.
  unfold model_path. rewrite last_char_join_path by done.
  rewrite last_char_append; [|by destruct (pretty i)].
  rewrite last_char_append; done.
Qed.

(** ** Index arrays *)

Lemma scatter_length (d : list xreal) idx vals d' :
  scatter d idx vals = Some d' → length d' = length d.
Proof.
  revert d vals. induction idx as [|i idx IH]; intros d [|v vals] H;
    simplify_eq/=; [done|].
  case_decide; [|done]. apply IH in H. by rewrite length_insert in H.
Qed.

Lemma scatter_in_range (d : list xreal) idx vals d' :
  scatter d idx vals = Some d' → ∀ i, i ∈ idx → i < length d.
Proof.
  revert d vals. induction idx as [|i0 idx IH]; intros d [|v vals] H i Hi;
    simplify_eq/=; [by apply elem_of_nil in Hi|].
  case_decide; [|done]. apply elem_of_cons in Hi as [->|Hi]; [done|].
  eapply IH in H; [|done]. by rewrite length_insert in H.
Qed.

(** Scattering values that are a function [g] of their index. *)
Lemma scatter_spec (g : nat → xreal) (d : list xreal) idx vals d' :
  scatter d idx vals = Some d' →
  Forall2 (λ i v, v = g i) idx vals →
  (∀ i, i ∈ idx → d' !! i = Some (g i)) ∧ (∀ i, i ∉ idx → d' !! i = d !! i).
Proof.
  revert d vals. induction idx as [|i0 idx IH]; intros d [|v vals] H HF;
    simplify_eq/=.
  - split; [by intros i ?%elem_of_nil|done].
  - case_decide as Hlt; [|done]. apply Forall2_cons in HF as [-> HF].
    destruct (IH _ _ H HF) as [IH1 IH2]. split.
    + intros i Hi. destruct (decide (i ∈ idx)) as [|Hni]; [by apply IH1|].
      apply elem_of_cons in Hi as [->|]; [|done].
      rewrite IH2 by done. by apply list_lookup_insert_eq.
    + intros i Hi. apply not_elem_of_cons in Hi as [Hne Hni].
      rewrite IH2 by done. by apply list_lookup_insert_ne.
Qed.

Lemma scatter_Forall (P : xreal → Prop) (d : list xreal) idx vals d' :
  scatter d idx vals = Some d' → Forall P d → Forall P vals → Forall P d'.
Proof.
  revert d vals. induction idx as [|i idx IH]; intros d [|v vals] H Hd Hv;
    simplify_eq/=; [done|].
  case_decide; [|done]. apply Forall_cons in Hv as [Hv Hvs].
  eapply IH; [done| |done]. by apply Forall_insert.
Qed.

Lemma take_rows_lookup {A} (X : list A) idx Xv :
  take_rows X idx = Some Xv → Forall2 (λ i u, X !! i = Some u) idx Xv.
Proof. apply mapM_Some_1. Qed.

(** ** Data frames *)

Lemma get_set_col name vals cols :
  get_col name (set_col name vals cols) = Some vals.
Proof.
  induction cols as [|[n c] cols IH]; simpl.
  - by rewrite String.eqb_refl.
  - destruct (String.eqb n name) eqn:E; simpl; by rewrite E.
Qed.

Lemma get_set_col_ne name name' vals cols :
  name' ≠ name → get_col name' (set_col name vals cols) = get_col name' cols.
Proof.
  intros Hne. induction cols as [|[n c] cols IH]; simpl.
  - by apply not_eq_sym, String.eqb_neq in Hne as ->.
  - destruct (String.eqb n name) eqn:E; simpl; [|by rewrite IH].
    apply String.eqb_eq in E as ->.
    by apply not_eq_sym, String.eqb_neq in Hne as ->.
Qed.

Lemma set_column_inv df name vals df' :
  set_column df name vals = Some df' →
  get_column df' name = Some vals
  ∧ df_nrows df' = df_nrows df
  ∧ length vals = df_nrows df
  ∧ ∀ name', name' ≠ name → get_column df' name' = get_column df name'.
Proof.
  unfold set_column, get_column. case_decide; [|done]. intros [= <-]. simpl.
  split_and!; try done; [apply get_set_col|].
  intros name' Hne. by apply get_set_col_ne.
Qed.

(** The rows written for a selection that ends with the column [name]
    end with the cells of that column. *)
Lemma select_rows_last df names name out rows col :
  select_columns df (names ++ [name]) = Some out →
  frame_rows out = Some rows →
  get_column df name = Some col →
  map fst (df_cols out) = names ++ [name]
  ∧ length rows = df_nrows df
  ∧ ∀ j r, rows !! j = Some r → ∃ v, col !! j = Some v ∧ last r = Some v.
Proof.
  unfold select_columns, frame_rows. intros Hsel Hrows Hcol.
  destruct (mapM _ (names ++ [name])) as [cols|] eqn:Hcols; [|done].
  injection Hsel as <-. simpl in *.
  apply mapM_Some_1 in Hcols.
  apply Forall2_app_inv_l in Hcols as (cols1 & cols2 & H1 & H2 & ->).
  apply Forall2_cons_inv_l in H2 as (nc & cols3 & Hnc & H3 & ->).
  apply Forall2_nil_inv_l in H3 as ->.
  rewrite Hcol in Hnc. injection Hnc as <-.
  apply mapM_Some_1 in Hrows. split_and!.
  - rewrite map_app. simpl. f_equal.
    clear -H1. induction H1 as [|n nc ns ncs Hn _ IH]; [done|].
    simpl. rewrite IH. f_equal.
    destruct (get_column df n); by simplify_eq/=.
  - apply Forall2_length in Hrows. by rewrite length_seq in Hrows.
  - intros j r Hj.
    destruct (Forall2_lookup_r _ _ _ _ _ Hrows Hj) as (j' & Hj' & Hr).
    apply lookup_seq in Hj' as [-> _]. simpl in Hr.
    apply mapM_Some_1 in Hr.
    apply Forall2_app_inv_l in Hr as (r1 & r2 & _ & Hr2 & ->).
    apply Forall2_cons_inv_l in Hr2 as (v & r3 & Hv & Hr3 & ->).
    apply Forall2_nil_inv_l in Hr3 as ->. simpl in Hv.
    exists v. split; [done|]. by rewrite last_snoc.
Qed.

Lemma series_add_floats (acc arr : list xreal) :
  length acc = length arr →
  series_add (map CFloat acc) arr = Some (map CFloat (zip_with xadd acc arr)).
Proof.
  intros Hlen. unfold series_add. rewrite length_map, decide_True by done.
  apply mapM_Some_2. clear Hlen. revert arr.
  induction acc as [|a acc IH]; intros [|b arr]; simpl; constructor; auto.
Qed.

Lemma series_div_floats (acc : list xreal) (n : nat) :
  series_div (map CFloat acc) n
  = Some (map CFloat (map (λ x, xdiv x (xof_nat n)) acc)).
Proof.
  unfold series_div. apply mapM_Some_2.
  induction acc as [|a acc IH]; simpl; constructor; auto.
Qed.

(** ** Sums of scores *)

Lemma foldl_xadd (a : xreal) (l : list xreal) :
  foldl xadd a l = xadd a (xsum l).
Proof.
  revert a. induction l as [|b l IH]; intros a; simpl.
  - by rewrite xadd_zero_r.
  - by rewrite IH, xadd_assoc.
Qed.

(** Adding the fold score vectors one after the other adds up, at each
    position, the scores of that position. *)
Lemma fold_scores_lookup (pss : list (list xreal)) (outs : list xreal)
    (acc0 : list xreal) (a0 : xreal) (j : nat) :
  Forall2 (λ ps p, ps !! j = Some p) pss outs →
  acc0 !! j = Some a0 →
  foldl (λ acc ps, zip_with xadd acc (map logit ps)) acc0 pss !! j
  = Some (foldl xadd a0 (map logit outs)).
Proof.
  intros H. revert acc0 a0. induction H as [|ps p pss outs Hp _ IH];
    intros acc0 a0 Ha; simpl; [done|].
  apply IH. rewrite lookup_zip_with, Ha. simpl.
  by rewrite list_lookup_fmap, Hp.
Qed.

(** ** The logit *)

Lemma logit_finite (x : R) :
  (0 < x < 1)%R → is_finite (logit (Finite x)).
Proof.
  intros [H0 H1]. unfold logit, xsub. simpl.
  destruct (Req_dec_T (1 + - x) 0) as [E|_]; [lra|]. simpl.
  assert (0 < x / (1 + - x))%R as Hpos
    by (apply Rdiv_lt_0_compat; lra).
  destruct (Req_dec_T (x / (1 + - x)) 0) as [E|_]; [lra|].
  destruct (Rlt_dec 0 (x / (1 + - x))) as [_|Hn]; [done|contradiction].
Qed.

Lemma logit_one : logit (Finite 1) = PInf.
Proof.
  unfold logit, xsub. simpl.
  destruct (Req_dec_T (1 + - (1)) 0) as [_|Hn]; [|lra].
  destruct (Req_dec_T 1 0) as [E|_]; [lra|].
  destruct (Rlt_dec 0 1) as [_|Hn]; [done|lra].
Qed.

Lemma logit_zero : logit (Finite 0) = NInf.
Proof.
  unfold logit, xsub. simpl.
  destruct (Req_dec_T (1 + - 0) 0) as [E|_]; [lra|]. simpl.
  destruct (Req_dec_T (0 / (1 + - 0)) 0) as [_|Hn]; [done|].
  exfalso. apply Hn. lra.
Qed.

Lemma xadd_finite (a b : xreal) : is_finite a → is_finite b → is_finite (xadd a b).
Proof. by destruct a, b. Qed.

Lemma xsum_finite (l : list xreal) : Forall is_finite l → is_finite (xsum l).
Proof.
  induction 1 as [|a l Ha _ IH]; [done|]. simpl. by apply xadd_finite.
Qed.

Lemma xmean_finite (l : list xreal) :
  l ≠ [] → Forall is_finite l → is_finite (xmean l).
Proof.
  intros Hne Hl. unfold xmean, xof_nat.
  pose proof (xsum_finite l Hl) as Hs.
  destruct (xsum l) as [x| | |]; try done. simpl.
  destruct (Req_dec_T (INR (length l)) 0) as [E|_]; [|done].
  apply INR_eq with (m := 0) in E. by destruct l.
Qed.

(** ** The caches *)

Section PipelineFacts.
Context {Vectorizer Model Dataset Kwargs : Type}.
Variable ext : externals Vectorizer Model Dataset Kwargs.
Local Abbreviation state := (state Vectorizer Model Kwargs).
Local Abbreviation event := (event Vectorizer Model Kwargs).
Local Abbreviation content := (content Vectorizer Model).
Local Abbreviation train_event := (@train_event Vectorizer Model Kwargs).
Local Abbreviation plot_events := (@plot_events Vectorizer Model Kwargs).
Local Abbreviation summarize := (@summarize Vectorizer Model Kwargs).
Local Abbreviation svd_on_disk := (@svd_on_disk Vectorizer Model).
Local Abbreviation post_events := (@post_events Vectorizer Model Dataset Kwargs).
Local Abbreviation main_events := (@main_events Vectorizer Model Dataset Kwargs).
Local Abbreviation written_paths := (@written_paths Vectorizer Model Kwargs).
Local Abbreviation predicts := (@predicts Vectorizer Model Kwargs).

Implicit Types (s t : state) (f : Model) (X U : matrix).

Lemma fs_insert_eq p (c : content) fs : fs_insert p c fs p = Some c.
Proof. unfold fs_insert. by rewrite String.eqb_refl. Qed.

Lemma fs_insert_ne p q (c : content) fs : q ≠ p → fs_insert p c fs q = fs q.
Proof.
  intros Hne. unfold fs_insert.
  by apply String.eqb_neq in Hne as ->.
Qed.

Lemma load_model_run p s :
  load_model p s
  = (match files s p with Some (FModel f) => Some f | _ => None end, s).
Proof.
  unfold load_model, read. prog_unfold. unfold bind.
  by destruct (files s p) as [[]|].
Qed.

Lemma joblib_load_run p s :
  joblib_load p s
  = (match files s p with Some (FVectorizer v) => Some v | _ => None end, s).
Proof.
  unfold joblib_load, read. prog_unfold. unfold bind.
  by destruct (files s p) as [[]|].
Qed.

Lemma load_svd_run k d s :
  load_svd k (join_path d "singular_values.txt")
    (join_path d "singular_vectors.npz") s
  = (cached_svd (files s) k d, s).
Proof.
  unfold load_svd, cached_svd, np_loadtxt, np_load, read. prog_unfold.
  unfold bind, lift, ret, raise.
  destruct (files s (join_path d "singular_values.txt")) as [[]|]; try done.
  destruct (files s (join_path d "singular_vectors.npz")) as [[]|]; try done.
  destruct (npz_get "VT" arrays); simpl; [|done].
  destruct (loadtxt_len v); simpl; [|done].
  by destruct (decide (k = n)).
Qed.

Lemma trace_snoc2 (l : list event) (a b : event) :
  (l ++ [a]) ++ [b] = l ++ [a; b].
Proof. by rewrite <- app_assoc. Qed.

Lemma after_nil s : after s [] = s.
Proof. destruct s. unfold after. simpl. by rewrite app_nil_r. Qed.

Lemma after_app s (evs1 evs2 : list event) :
  after (after s evs1) evs2 = after s (evs1 ++ evs2).
Proof.
  unfold after, apply_writes. simpl. by rewrite foldl_app, app_assoc.
Qed.

Lemma load_or_train_vectorizer_run df o p s :
  load_or_train_vectorizer ext df o p s
  = match match files s p with Some (FVectorizer v) => Some v | _ => None end,
          train_vectorizer ext df o with
    | Some v, _ => (Some v, s)
    | None, Some v =>
        (Some v, after s [EvTrainVectorizer df o; EvWrite p (FVectorizer v)])
    | None, None => (None, after s [EvTrainVectorizer df o])
    end.
Proof.
  unfold load_or_train_vectorizer, try_except. rewrite joblib_load_run.
  destruct (match files s p with Some (FVectorizer v) => Some v | _ => None end);
    [done|].
  prog_unfold. unfold bind, emit, lift, write, ret. simpl.
  destruct (train_vectorizer ext df o); [|done].
  unfold after. simpl. by rewrite trace_snoc2.
Qed.

Lemma load_or_compute_features_run df v p s :
  load_or_compute_features ext df v p s
  = match match files s p with Some (FMatrix X) => Some X | _ => None end,
          compute_feature_matrix ext df v with
    | Some X, _ => (Some X, s)
    | None, Some X =>
        (Some X, after s [EvComputeFeatures df v; EvWrite p (FMatrix X)])
    | None, None => (None, after s [EvComputeFeatures df v])
    end.
Proof.
  unfold load_or_compute_features, load_feature_matrix, compute_features,
    save_feature_matrix.
  prog_unfold. unfold bind, emit, lift, write, ret. simpl.
  destruct (match files s p with Some (FMatrix X) => Some X | _ => None end);
    [done|]. simpl.
  destruct (compute_feature_matrix ext df v); [|done].
  unfold after. simpl. by rewrite trace_snoc2.
Qed.

Lemma load_or_train_model_run p layers acts dim method ep bs X (y : list cell) s :
  load_or_train_model ext p layers acts dim method ep bs X y s
  = match match files s p with Some (FModel f) => Some f | _ => None end with
    | Some f => (Some f, s)
    | None =>
        match build_network layers acts dim method with
        | None => (None, s)
        | Some net =>
            match fit ext net X y ep bs with
            | Some f =>
                (Some f, after s [EvFit net X y ep bs; EvWrite p (FModel f)])
            | None => (None, after s [EvFit net X y ep bs])
            end
        end
    end.
Proof.
  unfold load_or_train_model, try_except. rewrite load_model_run.
  destruct (match files s p with Some (FModel f) => Some f | _ => None end);
    [done|].
  prog_unfold. unfold bind, emit, lift, save_model, write, ret. simpl.
  destruct (build_network layers acts dim method) as [net|]; [|done]. simpl.
  destruct (fit ext net X y ep bs); [|done].
  unfold after. simpl. by rewrite trace_snoc2.
Qed.

Lemma sorted_reverse_head (Sv : list xreal) :
  Sv ≠ [] → is_Some (sorted_reverse Sv !! 0).
Proof.
  intros Hne. apply lookup_lt_is_Some.
  unfold sorted_reverse.
  rewrite (Permutation_length (merge_sort_Permutation _ Sv)).
  destruct Sv; [done|simpl; lia].
Qed.

Lemma plot_singular_values_run Sv d s :
  plot_singular_values Sv d s
  = match singular_values_figure Sv with
    | Some fig =>
        (Some (), after s [EvWrite (join_path d "singular_values.png")
                             (FFigure fig)])
    | None => (None, s)
    end.
Proof.
  unfold plot_singular_values, singular_values_figure.
  prog_unfold. unfold bind, lift, write.
  destruct (sorted_reverse Sv !! 0) as [s0|]; [|done]. simpl.
  by destruct (is_finiteb s0).
Qed.

Lemma is_finiteb_true (a : xreal) : is_finite a → is_finiteb a = true.
Proof. by destruct a. Qed.

Lemma singular_values_figure_finite (Sv : list xreal) :
  Sv ≠ [] → Forall is_finite Sv →
  ∃ top,
    sorted_reverse Sv !! 0 = Some top ∧ top ∈ Sv
    ∧ singular_values_figure Sv
      = Some (Figure "Singular values"
                [Curve None (sorted_reverse Sv) "b.-" None]
                (Some (xzero, top))).
Proof.
  intros Hne Hfin. destruct (sorted_reverse_head Sv Hne) as [top Htop].
  assert (Hin : top ∈ Sv).
  { rewrite <- (merge_sort_Permutation (λ a b, ¬ xlt a b) Sv).
    by eapply list_elem_of_lookup_2. }
  exists top. split_and!; try done.
  unfold singular_values_figure. rewrite Htop. simpl.
  rewrite is_finiteb_true; [done|].
  by apply (proj1 (Forall_forall _ _) Hfin).
Qed.

Lemma load_or_compute_svd_hit opts X d k Sv VT s :
  svd_k opts = Some k →
  cached_svd (files s) k d = Some (Sv, VT) →
  load_or_compute_svd ext opts X d s = (Some (Sv, VT), s).
Proof.
  intros Hk Hc. unfold load_or_compute_svd. prog_unfold.
  unfold bind at 1. unfold lift at 1. rewrite Hk.
  unfold try_except. by rewrite load_svd_run, Hc.
Qed.

Lemma load_or_compute_svd_miss opts X d k Sv VT fig s :
  svd_k opts = Some k →
  cached_svd (files s) k d = None →
  compute_svd ext X opts = Some (Sv, VT) →
  singular_values_figure Sv = Some fig →
  load_or_compute_svd ext opts X d s
  = (Some (Sv, VT), after s (fresh_svd_events opts X d Sv VT fig)).
Proof.
  intros Hk Hc Hsvd Hfig. unfold load_or_compute_svd. prog_unfold.
  unfold bind at 1. unfold lift at 1. rewrite Hk.
  unfold try_except. rewrite load_svd_run, Hc.
  unfold bind at 1. unfold emit at 1.
  unfold bind at 1. unfold lift at 1. rewrite Hsvd.
  unfold bind at 1. unfold write at 1.
  unfold bind at 1. unfold write at 1.
  unfold bind at 1. rewrite plot_singular_values_run, Hfig.
  unfold ret, after, fresh_svd_events. simpl. by rewrite <- !app_assoc.
Qed.

Lemma load_or_compute_svd_inv opts X d Sv VT s s' :
  load_or_compute_svd ext opts X d s = (Some (Sv, VT), s') →
  ∃ k, svd_k opts = Some k ∧
    ((cached_svd (files s) k d = Some (Sv, VT) ∧ s' = s)
     ∨ (cached_svd (files s) k d = None
        ∧ compute_svd ext X opts = Some (Sv, VT)
        ∧ ∃ fig, singular_values_figure Sv = Some fig
                 ∧ s' = after s (fresh_svd_events opts X d Sv VT fig))).
Proof.
  intros H. unfold load_or_compute_svd in H. prog_unfold.
  apply bind_inv in H as (k & s1 & [Hk ->]%lift_inv & H).
  exists k. split; [done|].
  destruct (cached_svd (files s) k d) as [[Sv' VT']|] eqn:Hc.
  - left. unfold try_except in H. rewrite load_svd_run, Hc in H.
    by simplify_eq.
  - right. split; [done|].
    unfold try_except in H. rewrite load_svd_run, Hc in H.
    unfold bind at 1 in H. unfold emit at 1 in H.
    unfold bind at 1 in H. unfold lift at 1 in H.
    destruct (compute_svd ext X opts) as [[Sv' VT']|] eqn:Hsvd; [|done].
    unfold bind at 1 in H. unfold write at 1 in H.
    unfold bind at 1 in H. unfold write at 1 in H.
    unfold bind at 1 in H. rewrite plot_singular_values_run in H.
    destruct (singular_values_figure Sv') as [fig|] eqn:Hfig; [|done].
    unfold ret, after in H. simpl in H. rewrite <- !app_assoc in H.
    simplify_eq. split; [done|]. exists fig. split; [done|]. reflexivity.
Qed.

(** ** The fold loop *)

Lemma predict_proba_run f X s :
  predict_proba ext f X s
  = (mapM (predict_row ext f) X, State (files s) (trace s ++ [EvPredict f X])).
Proof. reflexivity. Qed.

Lemma held_out_scores f X idx Xv ps :
  take_rows X idx = Some Xv →
  mapM (predict_row ext f) Xv = Some ps →
  Forall2 (λ i v, v = held_out ext f X i) idx (map logit ps)
  ∧ ∀ i, i ∈ idx → ∃ u p, X !! i = Some u ∧ predict_row ext f u = Some p.
Proof.
  intros HX%take_rows_lookup Hp%mapM_Some_1.
  revert ps Hp. induction HX as [|i u idx Xv Hi HX IH]; intros ps Hp.
  - apply Forall2_nil_inv_l in Hp as ->. split; [constructor|].
    by intros i ?%elem_of_nil.
  - apply Forall2_cons_inv_l in Hp as (p & ps' & Hp & Hps & ->).
    destruct (IH _ Hps) as [IH1 IH2]. split.
    + simpl. constructor; [|done]. unfold held_out. by rewrite Hi, Hp.
    + intros j [->|Hj]%elem_of_cons; eauto.
Qed.

(** One pass through the loop body. *)
Lemma train_fold_inv X (y : list cell) dd layers acts dim method ep bs i tr va
    folds preds folds' preds' s s' :
  train_fold ext X y dd layers acts dim method ep bs i (tr, va)
    (folds, preds) s = (Some (folds', preds'), s') →
  ∃ f X_train y_train X_valid p_valid q s1,
    take_rows X tr = Some X_train ∧
    take_rows y tr = Some y_train ∧
    take_rows X va = Some X_valid ∧
    mapM (predict_row ext f) X_valid = Some p_valid ∧
    scatter preds va (map logit p_valid) = Some preds' ∧
    folds' = folds ++ [q] ∧ fold q = i ∧ dump q = model_path dd i ∧
    load_or_train_model ext (model_path dd i) layers acts dim method ep bs
      X_train y_train s = (Some f, s1) ∧
    s' = after s1 [EvPredict f X_train; EvPredict f X_valid].
Proof.
  intros H. unfold train_fold in H. prog_unfold.
  apply bind_inv in H as (X_train & ? & [HXt ->]%lift_inv & H).
  apply bind_inv in H as (y_train & ? & [Hyt ->]%lift_inv & H).
  apply bind_inv in H as (f & s1 & Hload & H).
  apply bind_inv in H as (p_train & ? & Hpt & H).
  rewrite predict_proba_run in Hpt. injection Hpt as Hpt <-.
  apply bind_inv in H as (? & ? & [_ ->]%lift_inv & H).
  apply bind_inv in H as (? & ? & [_ ->]%lift_inv & H).
  apply bind_inv in H as (? & ? & [_ ->]%lift_inv & H).
  apply bind_inv in H as (? & ? & [_ ->]%lift_inv & H).
  apply bind_inv in H as (X_valid & ? & [HXv ->]%lift_inv & H).
  apply bind_inv in H as (y_valid & ? & [Hyv ->]%lift_inv & H).
  apply bind_inv in H as (p_valid & ? & Hpv & H).
  rewrite predict_proba_run in Hpv. injection Hpv as Hpv <-.
  apply bind_inv in H as (? & ? & [_ ->]%lift_inv & H).
  apply bind_inv in H as (? & ? & [_ ->]%lift_inv & H).
  apply bind_inv in H as (? & ? & [_ ->]%lift_inv & H).
  apply bind_inv in H as (? & ? & [_ ->]%lift_inv & H).
  apply bind_inv in H as (? & ? & [Hsc ->]%lift_inv & H).
  apply ret_inv in H as [[= -> ->] ->].
  eexists f, X_train, y_train, X_valid, p_valid, _, s1.
  repeat split; try done. unfold after. simpl. by rewrite <- app_assoc.
Qed.

Lemma load_or_train_model_inv (p : string) layers acts dim method ep bs X
    (y : list cell) f s s1 :
  load_or_train_model ext p layers acts dim method ep bs X y s = (Some f, s1) →
  files s1 p = Some (FModel f)
  ∧ (∀ q, q ≠ p → files s1 q = files s q)
  ∧ ∃ evs, s1 = after s evs
      ∧ (evs = [] ∨ ∃ net, evs = [EvFit net X y ep bs; EvWrite p (FModel f)]).
Proof.
  rewrite load_or_train_model_run.
  destruct (match files s p with Some (FModel f0) => Some f0 | _ => None end)
    as [f0|] eqn:Hc.
  - intros [= -> <-]. split_and!.
    + destruct (files s p) as [[]|]; by simplify_eq.
    + done.
    + exists []. split; [by rewrite after_nil|by left].
  - destruct (build_network _ _ _ _) as [net|]; [|done].
    destruct (fit _ _ _ _ _ _) as [f'|]; [|done]. intros [= -> <-].
    split_and!.
    + apply fs_insert_eq.
    + intros q Hq. simpl. by apply fs_insert_ne.
    + eauto.
Qed.

Lemma train_event_mono dd n m e :
  n ≤ m → train_event dd n e → train_event dd m e.
Proof.
  intros Hnm. destruct e as [| p c | | | | | |]; simpl; try done.
  destruct c; try done. intros (j & Hj & ->). exists j. split; [lia|done].
Qed.

Lemma train_loop_inv X (y : list cell) dd layers acts dim method ep bs splits
    preds0 s0 acc s' :
  for_enumerate 0 splits
    (train_fold ext X y dd layers acts dim method ep bs) ([], preds0) s0
  = (Some acc, s') →
  train_loop_state ext X dd splits preds0 s0 (length splits) acc s'.
Proof.
  apply (for_enumerate_ind (train_loop_state ext X dd splits preds0 s0)).
  - unfold train_loop_state. split_and!; simpl; try done.
    + exists []. by rewrite after_nil.
    + intros; lia.
  - intros j [tr va] [folds preds] t [folds' preds'] t' Hj
      (Hlen & Hfolds & Hq & (evs & Htr & Hevs) & Hframe & Hmodels & Hrest) Hstep.
    simpl in *.
    apply train_fold_inv in Hstep
      as (f & X_train & y_train & X_valid & p_valid & q & s1 & HXt & Hyt & HXv
          & Hpv & Hsc & -> & Hfq & Hdq & Hload & ->).
    apply load_or_train_model_inv in Hload
      as (Hf & Hother & levs & Htr1 & Hlevs).
    destruct (held_out_scores _ _ _ _ _ HXv Hpv) as [Hvals Hex].
    destruct (scatter_spec _ _ _ _ _ Hsc Hvals) as [Hin Hout].
    unfold train_loop_state. split_and!; simpl.
    + by rewrite (scatter_length _ _ _ _ Hsc).
    + rewrite length_app. simpl. lia.
    + intros j' q' Hq'. apply lookup_app_Some in Hq' as [Hq'|[Hge Hq']].
      * by apply Hq.
      * rewrite Hfolds in *. apply list_lookup_singleton_Some in Hq' as [? <-].
        assert (j' = j) as -> by lia. done.
    + exists (evs ++ levs ++ [EvPredict f X_train; EvPredict f X_valid]).
      split; [by rewrite Htr1, Htr, !after_app|].
      apply Forall_app. split.
      { eapply Forall_impl; [done|]. intros e. apply train_event_mono. lia. }
      apply Forall_app. split; [|by repeat constructor].
      destruct Hlevs as [->|[net ->]]; [done|].
      repeat constructor. exists j. split; [lia|done].
    + intros p Hp. rewrite Hother by (apply Hp; lia).
      apply Hframe. intros j' Hj'. apply Hp. lia.
    + intros j' tr' va' Hj' Hs'.
      destruct (decide (j' = j)) as [->|Hne].
      * rewrite Hj in Hs'. injection Hs' as <- <-.
        exists f. split; [done|]. intros i Hi _. split; [by apply Hin|by apply Hex].
      * destruct (Hmodels j' tr' va') as (f' & Hf' & Hpreds); [lia|done|].
        exists f'. split.
        { rewrite Hother; [done|]. intros Heq%model_path_inj. done. }
        intros i Hi Hlater.
        assert (i ∉ va) as Hni by (apply (Hlater j tr va); [lia|lia|done]).
        rewrite Hout by done. apply Hpreds; [done|].
        intros j'' tr'' va'' ? ? ?. apply (Hlater j'' tr'' va''); [lia|lia|done].
    + intros i Hi.
      assert (i ∉ va) as Hni by (apply (Hi j tr va); [lia|done]).
      rewrite Hout by done. apply Hrest.
      intros j' tr' va' ? ?. apply (Hi j' tr' va'); [lia|done].
Qed.

Lemma train_ff_inv X (y : list cell) o acc s s' :
  train_ff ext X y o s = (Some acc, s') →
  ∃ splits layers acts,
    opt_layers o = Some layers ∧ opt_activations o = Some acts ∧
    length layers = length acts ∧
    skf_split ext X y = Some splits ∧
    train_loop_state ext X (ff_dump_dir (opt_dump_dir o)) splits
      (replicate (length y) xzero)
      (State (files s) (trace s ++ [EvSplit X y])) (length splits) acc s'.
Proof.
  intros H. unfold train_ff in H. prog_unfold.
  apply bind_inv in H as (layers & ? & [Hl ->]%lift_inv & H).
  apply bind_inv in H as (acts & ? & [Ha ->]%lift_inv & H).
  apply bind_inv in H as (? & ? & Hg & H).
  apply guard_inv in Hg as [Hlen ->].
  apply bind_inv in H as (? & s1 & Hemit & H).
  injection Hemit as <- <-.
  apply bind_inv in H as (splits & ? & [Hsp ->]%lift_inv & H).
  apply train_loop_inv in H. exists splits, layers, acts. by split_and!.
Qed.

(** C2.  [train_ff] returns one prediction per label.  A record held
    by the validation set of exactly one fold receives the logit of the
    output, on that record, of the model checkpointed for that fold; so
    when the validation sets partition the records, every record
    receives exactly one held-out prediction. *)
Theorem train_ff_held_out_predictions X (y : list cell) o folds preds s s' :
  train_ff ext X y o s = (Some (folds, preds), s') →
  ∃ splits,
    skf_split ext X y = Some splits
    ∧ length preds = length y
    ∧ (∀ i j,
         in_fold splits j i → (∀ j', in_fold splits j' i → j' = j) →
         ∃ f u pr,
           files s' (model_path (ff_dump_dir (opt_dump_dir o)) j)
           = Some (FModel f)
           ∧ X !! i = Some u
           ∧ predict_row ext f u = Some pr
           ∧ preds !! i = Some (logit pr))
    ∧ (partitions splits (length y) →
       ∀ i, i < length y →
         ∃ j f u pr,
           in_fold splits j i
           ∧ (∀ j', in_fold splits j' i → j' = j)
           ∧ files s' (model_path (ff_dump_dir (opt_dump_dir o)) j)
             = Some (FModel f)
           ∧ X !! i = Some u
           ∧ predict_row ext f u = Some pr
           ∧ preds !! i = Some (logit pr)).
Proof.
  intros H. apply train_ff_inv in H
    as (splits & layers & acts & _ & _ & _ & Hsp & Hlen & _ & _ & _ & _
        & Hmodels & _).
  simpl in *. exists splits.
  assert (Hone : ∀ i j,
    in_fold splits j i → (∀ j', in_fold splits j' i → j' = j) →
    ∃ f u pr,
      files s' (model_path (ff_dump_dir (opt_dump_dir o)) j) = Some (FModel f)
      ∧ X !! i = Some u
      ∧ predict_row ext f u = Some pr
      ∧ preds !! i = Some (logit pr)).
  { intros i j (tr & va & Hj & Hi) Huniq.
    destruct (Hmodels j tr va) as (f & Hf & Hpreds);
      [by eapply lookup_lt_Some|done|].
    destruct (Hpreds i Hi) as (Hp & u & pr & Hu & Hpr).
    { intros j' tr' va' Hlt _ Hj' Hi'.
      assert (j' = j) by (apply Huniq; by exists tr', va'). lia. }
    exists f, u, pr. split_and!; try done.
    rewrite Hp. unfold held_out. by rewrite Hu, Hpr. }
  split_and!; try done.
  - by rewrite Hlen, length_replicate.
  - intros Hpart i Hi. destruct (Hpart i Hi) as (j & Hin & Huniq).
    destruct (Hone i j Hin Huniq) as (f & u & pr & ? & ? & ? & ?).
    exists j, f, u, pr. by split_and!.
Qed.

(** ** Plots, CSV files and the test loop *)

Lemma plot_fold_run qd (q : fold_quality) u s :
  plot_fold qd q u s = (Some (), after s (plot_events qd q)).
Proof.
  unfold plot_fold, plot_quality, makedirs, emit, write. prog_unfold.
  unfold bind, after, plot_events. simpl. by rewrite <- !app_assoc.
Qed.

Lemma plot_loop_run qd (folds : list fold_quality) s :
  for_each folds (plot_fold qd) () s
  = (Some (), after s (concat (map (plot_events qd) folds))).
Proof.
  revert s. induction folds as [|q folds IH]; intros s; simpl.
  - unfold ret. by rewrite after_nil.
  - unfold bind. by rewrite plot_fold_run, IH, after_app.
Qed.

Lemma to_csv_inv df (p : string) u s s' :
  to_csv df p s = (Some u, s') →
  ∃ rows, frame_rows df = Some rows
    ∧ s' = after s [EvWrite p (FCsv (Csv false (map fst (df_cols df)) rows))].
Proof.
  unfold to_csv. prog_unfold.
  intros (rows & ? & [Hr ->]%lift_inv & H)%bind_inv.
  exists rows. split; [done|]. by injection H as _ <-.
Qed.

Lemma apply_model_inv U q df df1 s s1 :
  apply_model ext U q df s = (Some df1, s1) →
  ∃ f ps col col',
    files s (dump q) = Some (FModel f)
    ∧ mapM (predict_row ext f) U = Some ps
    ∧ get_column df "svdff" = Some col
    ∧ series_add col (map logit ps) = Some col'
    ∧ set_column df "svdff" col' = Some df1
    ∧ s1 = after s [EvPredict f U].
Proof.
  unfold apply_model. prog_unfold.
  intros (f & ? & Hf & H)%bind_inv.
  rewrite load_model_run in Hf. injection Hf as Hf <-.
  apply bind_inv in H as (ps & ? & Hp & H).
  rewrite predict_proba_run in Hp. injection Hp as Hp <-.
  apply bind_inv in H as (col & ? & [Hc ->]%lift_inv & H).
  apply bind_inv in H as (col' & ? & [Hc' ->]%lift_inv & H).
  apply lift_inv in H as [Hset ->].
  exists f, ps, col, col'. split_and!; try done.
  destruct (files s (dump q)) as [[]|]; by simplify_eq.
Qed.

Lemma apply_loop_inv U (folds : list fold_quality) df (acc0 : list xreal)
    df' s s' :
  for_each folds (apply_model ext U) df s = (Some df', s') →
  get_column df "svdff" = Some (map CFloat acc0) →
  length acc0 = length U →
  ∃ models pss,
    Forall2 (λ q f, files s (dump q) = Some (FModel f)) folds models
    ∧ Forall2 (λ f ps, mapM (predict_row ext f) U = Some ps) models pss
    ∧ s' = after s (map (λ f, EvPredict f U) models)
    ∧ get_column df' "svdff"
      = Some (map CFloat
                (foldl (λ acc ps, zip_with xadd acc (map logit ps)) acc0 pss))
    ∧ df_nrows df' = df_nrows df
    ∧ ∀ name, name ≠ "svdff" → get_column df' name = get_column df name.
Proof.
  revert df acc0 s. induction folds as [|q folds IH]; intros df acc0 s; simpl.
  - intros [-> ->]%ret_inv Hcol Hlen. exists [], []. simpl.
    split_and!; try done. by rewrite after_nil.
  - intros (df1 & s1 & Hstep & Hrest)%bind_inv Hcol Hlen.
    apply apply_model_inv in Hstep
      as (f & ps & col & col' & Hf & Hps & Hc & Hadd & Hset & ->).
    rewrite Hcol in Hc. injection Hc as <-.
    assert (Hlps : length acc0 = length (map logit ps)).
    { rewrite length_map, Hlen. by eapply length_mapM. }
    rewrite series_add_floats in Hadd by done. injection Hadd as <-.
    apply set_column_inv in Hset as (Hget & Hn & _ & Hother).
    apply IH with (acc0 := zip_with xadd acc0 (map logit ps)) in Hrest
      as (models & pss & Hm & Hp & -> & Hcol' & Hn' & Hother');
      [|done|by rewrite length_zip_with, <- Hlps, Nat.min_id].
    exists (f :: models), (ps :: pss). split_and!.
    + by constructor.
    + by constructor.
    + by rewrite after_app.
    + done.
    + by rewrite Hn'.
    + intros name Hne. rewrite Hother' by done. by apply Hother.
Qed.

(** ** A run of [main], step by step *)

Lemma main_inv conf s s' :
  main ext conf s = (Some (), s') → ∃ r, main_run ext conf s s' r.
Proof.
  intros H. unfold main in H. prog_unfold.
  apply bind_inv in H as (? & s1 & E1 & H). injection E1 as _ <-.
  apply bind_inv in H as (? & s2 & E2 & H). injection E2 as _ <-.
  apply bind_inv in H as (train_df & ? & [Htdf ->]%lift_inv & H).
  apply bind_inv in H as (y & ? & [Hy ->]%lift_inv & H).
  apply bind_inv in H as (v & sV & HV & H).
  apply bind_inv in H as (X & sF & HF & H).
  apply bind_inv in H as ([Sv VT] & sS & HS & H).
  apply bind_inv in H as (P & ? & [HP ->]%lift_inv & H).
  apply bind_inv in H as (U & ? & [HU ->]%lift_inv & H).
  apply bind_inv in H as ([folds preds] & sT & HT & H).
  apply bind_inv in H as (? & s3 & E3 & H). injection E3 as _ <-.
  apply bind_inv in H as (? & s4 & E4 & H).
  rewrite plot_loop_run in E4. injection E4 as _ <-.
  apply bind_inv in H as (train_df' & ? & [Hset ->]%lift_inv & H).
  apply bind_inv in H as (out & ? & [Hsel ->]%lift_inv & H).
  apply bind_inv in H as (? & s5 & E5 & H).
  apply to_csv_inv in E5 as (train_rows & Hrows & ->).
  apply bind_inv in H as (test_df & ? & [Htest ->]%lift_inv & H).
  apply bind_inv in H as (X_test & s6 & E6 & H).
  unfold compute_features in E6. prog_unfold.
  apply bind_inv in E6 as (? & s7 & E7 & E6). injection E7 as _ <-.
  apply lift_inv in E6 as [HXt ->].
  apply bind_inv in H as (P' & ? & [HP' ->]%lift_inv & H).
  apply bind_inv in H as (U_test & ? & [HU' ->]%lift_inv & H).
  apply bind_inv in H as (tdf0 & ? & [Hset0 ->]%lift_inv & H).
  apply bind_inv in H as (tdf1 & sP & Hloop & H).
  apply bind_inv in H as (col & ? & [Hcol ->]%lift_inv & H).
  apply bind_inv in H as (col' & ? & [Hdiv ->]%lift_inv & H).
  apply bind_inv in H as (tdf2 & ? & [Hset2 ->]%lift_inv & H).
  apply bind_inv in H as (out2 & ? & [Hsel2 ->]%lift_inv & H).
  apply to_csv_inv in H as (test_rows & Hrows2 & ->).
  exists (Run train_df y v sV X sF Sv VT sS U folds preds sT out train_rows
            test_df X_test U_test tdf0 tdf1 sP out2 test_rows).
  unfold main_run, train_csv_event, test_csv_event.
  cbn [r_train_df r_y r_vectorizer r_sV r_X r_sF r_Sv r_VT r_sS r_U r_folds
       r_predictions r_sT r_train_out r_train_rows r_test_df r_X_test
       r_U_test r_test_df0 r_test_df1 r_sP r_test_out r_test_rows].
  split_and!; try done.
  - rewrite <- HV. f_equal. unfold after. simpl. by rewrite <- app_assoc.
  - by rewrite HP.
  - by exists train_df'.
  - by rewrite HP'.
  - rewrite <- Hloop. f_equal.
    unfold after, apply_writes. simpl. rewrite foldl_app. simpl.
    f_equal. by rewrite <- !app_assoc.
  - by exists col, col', tdf2.
Qed.

(** ** The calls of a run *)

Lemma summarize_app (evs1 evs2 : list event) :
  summarize (evs1 ++ evs2) = summary_app (summarize evs1) (summarize evs2).
Proof.
  unfold summarize, summary_app, csv_writes, figure_writes, written_paths,
    predicts. simpl.
  by rewrite !omap_app, existsb_app.
Qed.

Lemma apply_writes_frame (evs : list event) fs (p : string) :
  p ∉ written_paths evs → apply_writes evs fs p = fs p.
Proof.
  unfold apply_writes, written_paths. revert fs.
  induction evs as [|e evs IH]; intros fs Hp; [done|]. simpl in *.
  destruct e; try by apply IH.
  apply not_elem_of_cons in Hp as [Hne Hp].
  rewrite IH by done. by apply fs_insert_ne.
Qed.

Lemma train_events_summary dd n (evs : list event) :
  Forall (train_event dd n) evs →
  sum_csv (summarize evs) = []
  ∧ sum_figures (summarize evs) = []
  ∧ sum_svd (summarize evs) = false
  ∧ Forall (λ q, ∃ j, j < n ∧ q = model_path dd j) (sum_paths (summarize evs)).
Proof.
  induction 1 as [|e evs He _ (IH1 & IH2 & IH3 & IH4)]; [by repeat constructor|].
  simpl in *. destruct e as [| p c | | | | | |]; try done.
  destruct c; try done. split_and!; try done. by constructor.
Qed.

Lemma plot_events_summary qd (folds : list fold_quality) :
  summarize (concat (map (plot_events qd) folds))
  = Summary [] (concat (map (λ q, plot_paths qd (fold q)) folds))
      (concat (map (λ q, plot_paths qd (fold q)) folds)) [] false.
Proof.
  induction folds as [|q folds IH]; [done|].
  change (concat (map (plot_events qd) (q :: folds)))
    with (plot_events qd q ++ concat (map (plot_events qd) folds)).
  rewrite !summarize_app, IH. reflexivity.
Qed.

Lemma predict_events_summary U (models : list Model) :
  summarize (map (λ f, EvPredict f U) models)
  = Summary [] [] [] (map (λ f, (f, U)) models) false.
Proof.
  induction models as [|f models IH]; [done|].
  change (map ?g (f :: models)) with ([g f] ++ map g models).
  rewrite summarize_app, IH. reflexivity.
Qed.

(** The folds as [train_ff] numbers them. *)
Lemma folds_numbered (dd : string) (folds : list fold_quality) :
  (∀ j q, folds !! j = Some q → fold q = j ∧ dump q = model_path dd j) →
  map fold folds = seq 0 (length folds).
Proof.
  intros H. apply list_eq. intros j.
  rewrite list_lookup_fmap.
  destruct (folds !! j) as [q|] eqn:Hq; simpl.
  - destruct (H j q Hq) as [-> _]. symmetry. apply lookup_seq.
    split; [done|]. by eapply lookup_lt_Some.
  - symmetry. apply lookup_seq_ge. by apply lookup_ge_None.
Qed.

Lemma folds_plot_paths (qd dd : string) (folds : list fold_quality) :
  (∀ j q, folds !! j = Some q → fold q = j ∧ dump q = model_path dd j) →
  concat (map (λ q, plot_paths qd (fold q)) folds)
  = concat (map (plot_paths qd) (seq 0 (length folds))).
Proof.
  intros H. rewrite <- (folds_numbered dd folds H).
  by rewrite <- list_fmap_compose.
Qed.

Lemma load_or_train_vectorizer_inv df o (p : string) v s s' :
  load_or_train_vectorizer ext df o p s = (Some v, s') →
  ∃ evs, s' = after s evs
    ∧ files s' p = Some (FVectorizer v)
    ∧ (evs = [] ∨ evs = [EvTrainVectorizer df o; EvWrite p (FVectorizer v)]).
Proof.
  rewrite load_or_train_vectorizer_run.
  destruct (match files s p with Some (FVectorizer v0) => Some v0 | _ => None end)
    as [v0|] eqn:Hc.
  - intros [= -> <-]. exists []. rewrite after_nil. split_and!; [done| |by left].
    destruct (files s p) as [[]|]; by simplify_eq.
  - destruct (train_vectorizer ext df o) as [v0|]; [|done].
    intros [= -> <-]. eexists. split_and!; [done| |by right].
    apply fs_insert_eq.
Qed.

Lemma load_or_compute_features_inv df v (p : string) X s s' :
  load_or_compute_features ext df v p s = (Some X, s') →
  ∃ evs, s' = after s evs
    ∧ files s' p = Some (FMatrix X)
    ∧ (evs = [] ∨ evs = [EvComputeFeatures df v; EvWrite p (FMatrix X)]).
Proof.
  rewrite load_or_compute_features_run.
  destruct (match files s p with Some (FMatrix X0) => Some X0 | _ => None end)
    as [X0|] eqn:Hc.
  - intros [= -> <-]. exists []. rewrite after_nil. split_and!; [done| |by left].
    destruct (files s p) as [[]|]; by simplify_eq.
  - destruct (compute_feature_matrix ext df v) as [X0|]; [|done].
    intros [= -> <-]. eexists. split_and!; [done| |by right].
    apply fs_insert_eq.
Qed.

Lemma cached_svd_on_disk fs k d Sv VT :
  cached_svd fs k d = Some (Sv, VT) →
  svd_on_disk fs d Sv VT ∧ loadtxt_len Sv = Some k.
Proof.
  unfold cached_svd, svd_on_disk.
  destruct (fs (join_path d "singular_values.txt")) as [[]|]; try done.
  destruct (fs (join_path d "singular_vectors.npz")) as [[]|]; try done.
  destruct (npz_get "VT" arrays) as [VT'|] eqn:HVT; [|done]. simpl.
  destruct (loadtxt_len v) as [n|] eqn:Hn; [|done]. simpl.
  case_decide; [|done]. intros [= -> ->]. subst. eauto.
Qed.

Lemma load_or_compute_svd_events opts X d Sv VT s s' :
  load_or_compute_svd ext opts X d s = (Some (Sv, VT), s') →
  ∃ evs, s' = after s evs
    ∧ svd_on_disk (files s') d Sv VT
    ∧ (evs = [] ∨ ∃ fig, singular_values_figure Sv = Some fig
                         ∧ evs = fresh_svd_events opts X d Sv VT fig).
Proof.
  intros (k & Hk & [[Hc ->]|(Hc & Hsvd & fig & Hfig & ->)])%load_or_compute_svd_inv.
  - exists []. rewrite after_nil. split_and!; [done| |by left].
    by apply cached_svd_on_disk in Hc as [? _].
  - eexists. split_and!; [done| |right; eauto].
    unfold svd_on_disk, after, fresh_svd_events. simpl. split.
    + do 2 (rewrite fs_insert_ne by (by intros ?%join_path_inj)).
      apply fs_insert_eq.
    + exists [("VT", VT)]. split; [|done].
      rewrite fs_insert_ne by (by intros ?%join_path_inj).
      apply fs_insert_eq.
Qed.

Lemma last_char_not_elem (p : string) (c : ascii) (l : list string) :
  last_char p = Some c →
  Forall (λ q, ∃ c', last_char q = Some c' ∧ c' ≠ c) l →
  p ∉ l.
Proof.
  intros Hp Hl Hin. rewrite Forall_forall in Hl.
  destruct (Hl p Hin) as (c' & Hc' & Hne). congruence.
Qed.

Lemma main_run_events conf s s' r :
  main_run ext conf s s' r →
  let d := conf_dump_dir conf in
  let dd := ff_dump_dir (Some d) in
  ∃ vec_evs feat_evs svd_evs train_evs splits models pss,
    s' = after s (main_events conf r vec_evs feat_evs svd_evs train_evs models)
    ∧ (vec_evs = []
       ∨ vec_evs = [EvTrainVectorizer (r_train_df r) (conf_vectorizer conf);
                    EvWrite (join_path d "vectorizer.pkl")
                      (FVectorizer (r_vectorizer r))])
    ∧ (feat_evs = []
       ∨ feat_evs = [EvComputeFeatures (r_train_df r) (r_vectorizer r);
                     EvWrite (join_path d "features_train.npz")
                       (FMatrix (r_X r))])
    ∧ (svd_evs = []
       ∨ ∃ fig, singular_values_figure (r_Sv r) = Some fig
                ∧ svd_evs = fresh_svd_events (conf_svd conf) (r_X r) d
                              (r_Sv r) (r_VT r) fig)
    ∧ files (r_sF r) (join_path d "features_train.npz") = Some (FMatrix (r_X r))
    ∧ r_sS r = after (r_sF r) svd_evs
    ∧ svd_on_disk (files (r_sS r)) d (r_Sv r) (r_VT r)
    ∧ r_sT r = after (r_sS r) ([EvSplit (r_U r) (r_y r)] ++ train_evs)
    ∧ s' = after (r_sT r) (post_events conf r models)
    ∧ skf_split ext (r_U r) (r_y r) = Some splits
    ∧ Forall (train_event dd (length splits)) train_evs
    ∧ length (r_folds r) = length splits
    ∧ (∀ j q, r_folds r !! j = Some q → fold q = j ∧ dump q = model_path dd j)
    ∧ Forall2 (λ q f, files (r_sT r) (dump q) = Some (FModel f))
        (r_folds r) models
    ∧ Forall2 (λ f ps, mapM (predict_row ext f) (r_U_test r) = Some ps)
        models pss
    ∧ get_column (r_test_df1 r) "svdff"
      = Some (map CFloat
                (foldl (λ acc ps, zip_with xadd acc (map logit ps))
                   (zero_scores (r_U_test r)) pss))
    ∧ df_nrows (r_test_df1 r) = df_nrows (r_test_df r)
    ∧ nrows (r_U_test r) = df_nrows (r_test_df r)
    ∧ (∀ name, name ≠ "svdff" →
         get_column (r_test_df1 r) name = get_column (r_test_df r) name).
Proof.
  intros (Htdf & Hy & HV & HF & HS & HU & HT & Htrain & Hrows & Htest & HXt
          & HU' & Hset0 & Hloop & Hfinal & Hrows' & ->) d dd.
  apply load_or_train_vectorizer_inv in HV as (vec_evs & HsV & _ & Hvec).
  apply load_or_compute_features_inv in HF as (feat_evs & HsF & HfX & Hfeat).
  apply load_or_compute_svd_events in HS as (svd_evs & HsS & Hdisk & Hsvd).
  apply train_ff_inv in HT
    as (splits & layers & acts & _ & _ & _ & Hsp & _ & Hfolds & Hnum
        & (train_evs & HsT & Htevs) & _ & _ & _).
  simpl in Hfolds, Hnum.
  change (State (files (r_sS r)) (trace (r_sS r) ++ [EvSplit (r_U r) (r_y r)]))
    with (after (r_sS r) [EvSplit (r_U r) (r_y r)]) in HsT.
  apply set_column_inv in Hset0 as (Hcol0 & Hn0 & Hlen0 & Hother0).
  rewrite length_replicate in Hlen0.
  apply apply_loop_inv with (acc0 := zero_scores (r_U_test r)) in Hloop
    as (models & pss & Hmodels & Hpss & HsP & Hcol & Hn & Hother).
  2: { rewrite Hcol0. unfold zero_scores. by rewrite fmap_replicate. }
  2: { unfold zero_scores. by rewrite length_replicate. }
  exists vec_evs, feat_evs, svd_evs, train_evs, splits, models, pss.
  split_and!; try done.
  - rewrite HsP, HsT, HsS, HsF, HsV. unfold main_events, post_events.
    rewrite !after_app. f_equal. fold d. simpl. by rewrite <- !app_assoc.
  - by rewrite HsT, after_app.
  - rewrite HsP. unfold post_events. rewrite !after_app. f_equal. fold d.
    simpl. by rewrite <- ?app_assoc.
  - apply Forall2_same_length_lookup. split; [by eapply Forall2_length|].
    intros i q f Hq Hf.
    pose proof (Forall2_lookup_lr _ _ _ _ _ _ Hmodels Hq Hf) as Hfile.
    simpl in Hfile. rewrite apply_writes_frame in Hfile; [done|].
    destruct (Hnum i q Hq) as [_ ->].
    apply last_char_not_elem with (c := "l"%char);
      [apply last_char_model_path|].
    change (EvMakedirs ?a :: ?l ++ ?l') with ([EvMakedirs a] ++ l ++ l').
    change written_paths with (λ evs, sum_paths (summarize evs)).
    cbv beta. rewrite !summarize_app, plot_events_summary. simpl.
    apply Forall_app. split.
    + apply Forall_concat, Forall_fmap, Forall_forall. intros q' _.
      unfold plot_paths. simpl.
      apply Forall_cons; split;
        [eexists; split; [by rewrite last_char_join_path|done]|].
      apply Forall_cons; split; [|apply Forall_nil].
      eexists; split; [by rewrite last_char_join_path|done].
      done.
    + apply Forall_cons; split; [|apply Forall_nil].
      eexists; split; [by rewrite last_char_join_path|done].
      done.
  - by rewrite Hn.
  - intros name Hne. rewrite Hother by done. by apply Hother0.
Qed.

(** ** The claims about a whole run *)

Lemma after_trace s (evs : list event) : trace (after s evs) = trace s ++ evs.
Proof. done. Qed.

Lemma cache_events_summary (evs : list event) (a : event) (p : string)
    (c : content) :
  (evs = [] ∨ evs = [a; EvWrite p c]) →
  match a with EvWrite _ _ | EvPredict _ _ | EvComputeSvd _ _ => False
             | _ => True end →
  match c with FCsv _ | FFigure _ => False | _ => True end →
  summarize evs = Summary [] [] (written_paths evs) [] false.
Proof.
  intros [->| ->] Ha Hc; [done|].
  destruct a; try done; destruct c; done.
Qed.

Lemma train_out_header conf s s' r :
  main_run ext conf s s' r →
  map fst (df_cols (r_train_out r))
  = [FieldsTrain_id; FieldsTrain_is_duplicate; "svdff"]
  ∧ length (r_train_rows r) = df_nrows (r_train_df r)
  ∧ ∀ j row, r_train_rows r !! j = Some row →
      ∃ x, r_predictions r !! j = Some x ∧ row_score row = Some x.
Proof.
  intros (_ & _ & _ & _ & _ & _ & _ & (df & Hset & Hsel) & Hrows & _).
  apply set_column_inv in Hset as (Hget & Hn & _ & _).
  destruct (select_rows_last df [FieldsTrain_id; FieldsTrain_is_duplicate]
              "svdff" _ _ _ Hsel Hrows Hget) as (Hhd & Hlen & Hlast).
  split_and!; [done|by rewrite Hlen|].
  intros j row Hj. destruct (Hlast j row Hj) as (v & Hv & Hl).
  apply list_lookup_fmap_Some in Hv as (x & -> & Hx).
  exists x. split; [done|]. unfold row_score. by rewrite Hl.
Qed.

Lemma test_out_header conf s s' r :
  main_run ext conf s s' r →
  ∃ col,
    get_column (r_test_df1 r) "svdff" = Some col
    ∧ map fst (df_cols (r_test_out r)) = [FieldsTest_test_id; "svdff"]
    ∧ length (r_test_rows r) = df_nrows (r_test_df1 r)
    ∧ ∀ j row, r_test_rows r !! j = Some row →
        ∃ c x, col !! j = Some c ∧ cell_to_float c = Some x
               ∧ row_score row
                 = Some (xdiv x (xof_nat (length (r_folds r)))).
Proof.
  intros (_ & _ & _ & _ & _ & _ & _ & _ & _ & _ & _ & _ & _ & _
          & (col & col' & df & Hcol & Hdiv & Hset & Hsel) & Hrows & _).
  apply set_column_inv in Hset as (Hget & Hn & _ & _).
  destruct (select_rows_last df [FieldsTest_test_id] "svdff" _ _ _
              Hsel Hrows Hget) as (Hhd & Hlen & Hlast).
  exists col. split_and!; [done|done|by rewrite Hlen|].
  intros j row Hj. destruct (Hlast j row Hj) as (v & Hv & Hl).
  unfold series_div in Hdiv. apply mapM_Some_1 in Hdiv.
  destruct (Forall2_lookup_r _ _ _ _ _ Hdiv Hv) as (c & Hc & Hcv).
  destruct (cell_to_float c) as [x|] eqn:Hx; [|done].
  simpl in Hcv. injection Hcv as <-.
  exists c, x. split_and!; try done. unfold row_score. by rewrite Hl.
Qed.

(** C5.  A run writes exactly two CSV files: the train CSV with the
    columns id, is_duplicate and svdff, then the test CSV with the
    columns test_id and svdff, both without an index column. *)
Theorem two_prediction_csv_files conf s s' :
  main ext conf s = (Some (), s') →
  ∃ evs train_rows test_rows,
    trace s' = trace s ++ evs
    ∧ csv_writes evs
      = [(join_path (conf_dump_dir conf) "train.csv",
          Csv false [FieldsTrain_id; FieldsTrain_is_duplicate; "svdff"]
            train_rows);
         (join_path (conf_dump_dir conf) "test.csv",
          Csv false [FieldsTest_test_id; "svdff"] test_rows)].
Proof.
  intros [r Hr]%main_inv.
  destruct (train_out_header _ _ _ _ Hr) as (Hh1 & _ & _).
  destruct (test_out_header _ _ _ _ Hr) as (col & _ & Hh2 & _ & _).
  destruct (main_run_events _ _ _ _ Hr)
    as (vec_evs & feat_evs & svd_evs & train_evs & splits & models & pss
        & -> & Hvec & Hfeat & Hsvd & _ & _ & _ & _ & _ & _ & Htevs & _).
  eexists _, (r_train_rows r), (r_test_rows r). split; [apply after_trace|].
  change csv_writes with (λ evs, sum_csv (summarize evs)). cbv beta.
  unfold main_events, post_events. rewrite !summarize_app.
  rewrite (cache_events_summary vec_evs _ _ _ Hvec) by done.
  rewrite (cache_events_summary feat_evs _ _ _ Hfeat) by done.
  rewrite plot_events_summary, predict_events_summary.
  destruct (train_events_summary _ _ _ Htevs) as (Hc & _).
  assert (sum_csv (summarize svd_evs) = []) as Hs
    by (by destruct Hsvd as [->|(fig & _ & ->)]).
  unfold train_csv_event, test_csv_event. simpl in *.
  by rewrite Hs, Hc, Hh1, Hh2.
Qed.

(** C8, as the code has it.  The per-fold ROC and reliability figures
    are saved on every run, one pair per fold, under the quality
    directory; the singular value figure is saved exactly on the runs
    that compute the decomposition afresh. *)
Theorem plots_rendered conf s s' :
  main ext conf s = (Some (), s') →
  ∃ evs U y splits,
    trace s' = trace s ++ evs
    ∧ EvSplit U y ∈ evs
    ∧ skf_split ext U y = Some splits
    ∧ figure_writes evs
      = (if existsb is_compute_svd evs
         then [join_path (conf_dump_dir conf) "singular_values.png"]
         else [])
        ++ concat (map (plot_paths (join_path (conf_dump_dir conf) "quality"))
                     (seq 0 (length splits))).
Proof.
  intros [r Hr]%main_inv.
  destruct (main_run_events _ _ _ _ Hr)
    as (vec_evs & feat_evs & svd_evs & train_evs & splits & models & pss
        & -> & Hvec & Hfeat & Hsvd & _ & _ & _ & _ & _ & Hsp & Htevs
        & Hlen & Hnum & _).
  eexists _, (r_U r), (r_y r), splits. split_and!; [apply after_trace| |done|].
  { unfold main_events. rewrite !elem_of_app. do 4 right. left.
    apply list_elem_of_here. }
  change figure_writes with (λ evs, sum_figures (summarize evs)).
  change (existsb is_compute_svd) with (λ evs, sum_svd (summarize evs)).
  cbv beta. unfold main_events, post_events. rewrite !summarize_app.
  rewrite (cache_events_summary vec_evs _ _ _ Hvec) by done.
  rewrite (cache_events_summary feat_evs _ _ _ Hfeat) by done.
  rewrite plot_events_summary, predict_events_summary.
  destruct (train_events_summary _ _ _ Htevs) as (_ & Hf & Hs & _).
  rewrite (folds_plot_paths _ _ _ Hnum), Hlen.
  unfold train_csv_event, test_csv_event. simpl in *. rewrite Hf, Hs. simpl.
  rewrite !app_nil_r, !orb_false_r.
  by destruct Hsvd as [->|(fig & _ & ->)].
Qed.

Lemma main_csv_writes conf s s' r vec_evs feat_evs svd_evs train_evs
    (n : nat) models :
  main_run ext conf s s' r →
  (vec_evs = []
   ∨ vec_evs = [EvTrainVectorizer (r_train_df r) (conf_vectorizer conf);
                EvWrite (join_path (conf_dump_dir conf) "vectorizer.pkl")
                  (FVectorizer (r_vectorizer r))]) →
  (feat_evs = []
   ∨ feat_evs = [EvComputeFeatures (r_train_df r) (r_vectorizer r);
                 EvWrite (join_path (conf_dump_dir conf) "features_train.npz")
                   (FMatrix (r_X r))]) →
  (svd_evs = []
   ∨ ∃ fig, singular_values_figure (r_Sv r) = Some fig
            ∧ svd_evs = fresh_svd_events (conf_svd conf) (r_X r)
                          (conf_dump_dir conf) (r_Sv r) (r_VT r) fig) →
  Forall (train_event (ff_dump_dir (Some (conf_dump_dir conf))) n)
    train_evs →
  csv_writes (main_events conf r vec_evs feat_evs svd_evs train_evs models)
  = [(join_path (conf_dump_dir conf) "train.csv",
      Csv false [FieldsTrain_id; FieldsTrain_is_duplicate; "svdff"]
        (r_train_rows r));
     (join_path (conf_dump_dir conf) "test.csv",
      Csv false [FieldsTest_test_id; "svdff"] (r_test_rows r))].
Proof.
  intros Hr Hvec Hfeat Hsvd Htevs.
  destruct (train_out_header _ _ _ _ Hr) as (Hh1 & _ & _).
  destruct (test_out_header _ _ _ _ Hr) as (col & _ & Hh2 & _ & _).
  change csv_writes with (λ evs, sum_csv (summarize evs)). cbv beta.
  unfold main_events, post_events. rewrite !summarize_app.
  rewrite (cache_events_summary vec_evs _ _ _ Hvec) by done.
  rewrite (cache_events_summary feat_evs _ _ _ Hfeat) by done.
  rewrite plot_events_summary, predict_events_summary.
  destruct (train_events_summary _ _ _ Htevs) as (Hc & _).
  assert (sum_csv (summarize svd_evs) = []) as Hs
    by (by destruct Hsvd as [->|(fig & _ & ->)]).
  unfold train_csv_event, test_csv_event. simpl in *.
  by rewrite Hs, Hc, Hh1, Hh2.
Qed.

Lemma post_events_paths conf r models :
  Forall (λ q, ∃ c, last_char q = Some c ∧ c ≠ "l"%char ∧ c ≠ "z"%char
                    ∧ c ≠ "t"%char)
    (written_paths (post_events conf r models)).
Proof.
  change written_paths with (λ evs, sum_paths (summarize evs)). cbv beta.
  unfold post_events. rewrite !summarize_app.
  rewrite plot_events_summary, predict_events_summary. simpl.
  apply Forall_app. split.
  - apply Forall_concat, Forall_fmap, Forall_forall. intros q' _.
    unfold plot_paths. simpl.
    apply Forall_cons; split;
      [eexists; split; [by rewrite last_char_join_path|done]|].
    apply Forall_cons; split; [|apply Forall_nil].
    eexists; split; [by rewrite last_char_join_path|done].
    done.
  - apply Forall_cons; split;
      [eexists; split; [by rewrite last_char_join_path|done]|].
    apply Forall_cons; split; [|apply Forall_nil].
    eexists; split; [by rewrite last_char_join_path|done].
    done.
Qed.

Lemma train_events_paths dd n (evs : list event) :
  Forall (train_event dd n) evs →
  Forall (λ q, last_char q = Some "l"%char) (written_paths evs).
Proof.
  intros (_ & _ & _ & H)%train_events_summary. simpl in H.
  eapply Forall_impl; [done|]. intros q (j & _ & ->).
  apply last_char_model_path.
Qed.

(** The outputs of the fold models on one row, read off their outputs on
    the whole matrix. *)
Lemma outputs_at U (models : list Model) (pss : list (list xreal)) j u :
  Forall2 (λ f ps, mapM (predict_row ext f) U = Some ps) models pss →
  U !! j = Some u →
  ∃ outs, Forall2 (λ ps pr, ps !! j = Some pr) pss outs
          ∧ mapM (λ f, predict_row ext f u) models = Some outs.
Proof.
  intros H Hu. induction H as [|f ps models pss Hf _ (outs & IH1 & IH2)].
  - by exists [].
  - apply mapM_Some_1 in Hf.
    destruct (Forall2_lookup_l _ _ _ _ _ Hf Hu) as (pr & Hpr & Hfu).
    exists (pr :: outs). split; [by constructor|].
    apply mapM_Some_2. constructor; [done|]. by apply mapM_Some_1.
Qed.

(** The score of a test row is the mean of the fold logits of the row. *)
Lemma test_row_scores conf s s' r (models : list Model) pss :
  main_run ext conf s s' r →
  Forall2 (λ f ps, mapM (predict_row ext f) (r_U_test r) = Some ps)
    models pss →
  get_column (r_test_df1 r) "svdff"
  = Some (map CFloat
            (foldl (λ acc ps, zip_with xadd acc (map logit ps))
               (zero_scores (r_U_test r)) pss)) →
  length models = length (r_folds r) →
  ∀ j u row,
    r_U_test r !! j = Some u → r_test_rows r !! j = Some row →
    ∃ outs,
      mapM (λ f, predict_row ext f u) models = Some outs
      ∧ row_score row = Some (xmean (map logit outs)).
Proof.
  intros Hr Hpss Hcol' Hlenm j u row Hu Hrow.
  destruct (test_out_header _ _ _ _ Hr) as (col & Hcol & _ & Hlen & Hrows).
  destruct (Hrows j row Hrow) as (c & x & Hc & Hx & Hscore).
  destruct (outputs_at _ _ _ _ _ Hpss Hu) as (outs & Hat & Houts).
  exists outs. split; [done|]. rewrite Hscore. f_equal.
  rewrite Hcol' in Hcol. injection Hcol as <-.
  apply list_lookup_fmap_Some in Hc as (a & -> & Ha). simpl in Hx.
  injection Hx as <-.
  rewrite (fold_scores_lookup pss outs _ xzero j Hat) in Ha.
  2: { unfold zero_scores. apply lookup_replicate. split; [done|].
       by eapply lookup_lt_Some. }
  injection Ha as <-. rewrite foldl_xadd, xadd_zero_l. unfold xmean.
  do 2 f_equal. rewrite length_map.
  by rewrite <- (length_mapM _ _ _ Houts).
Qed.

(** C1.  The score the test CSV holds for a record is the arithmetic
    mean, over the models checkpointed for the folds, of the logit of
    the model's output on the record's projected features. *)
Theorem test_scores_are_fold_means conf s s' :
  main ext conf s = (Some (), s') →
  let d := conf_dump_dir conf in
  ∃ test_df v X_train Sv VT X_test U_test U y splits models evs train_csv rows,
    load_test_df ext (conf_dataset conf) = Some test_df
    ∧ compute_feature_matrix ext test_df v = Some X_test
    ∧ project X_test VT (make_Sinv Sv X_train) ≫= symmetrize = Some U_test
    ∧ trace s' = trace s ++ evs
    ∧ csv_writes evs
      = [train_csv;
         (join_path d "test.csv", Csv false [FieldsTest_test_id; "svdff"] rows)]
    ∧ length rows = df_nrows test_df
    ∧ length U_test = df_nrows test_df
    ∧ EvSplit U y ∈ evs
    ∧ skf_split ext U y = Some splits
    ∧ length models = length splits
    ∧ (∀ j f, models !! j = Some f →
         files s' (model_path (ff_dump_dir (Some d)) j) = Some (FModel f))
    ∧ ∀ j u row,
        U_test !! j = Some u → rows !! j = Some row →
        ∃ outs,
          mapM (λ f, predict_row ext f u) models = Some outs
          ∧ row_score row = Some (xmean (map logit outs)).
Proof.
  intros [r Hr]%main_inv d.
  destruct (test_out_header _ _ _ _ Hr) as (col & Hcol & _ & Hlen & Hrows).
  destruct (main_run_events _ _ _ _ Hr)
    as (vec_evs & feat_evs & svd_evs & train_evs & splits & models & pss
        & Hs' & Hvec & Hfeat & Hsvd & _ & _ & _ & _ & Hpost & Hsp & Htevs
        & Hfolds & Hnum & Hmodels & Hpss & Hcol' & Hn & HnU & _).
  pose proof (main_csv_writes _ _ _ _ _ _ _ _ _ models Hr Hvec Hfeat Hsvd Htevs)
    as Hcsv.
  assert (Hlenm : length models = length (r_folds r))
    by (symmetry; by eapply Forall2_length).
  pose proof (test_row_scores _ _ _ _ _ _ Hr Hpss Hcol' Hlenm) as Hscores.
  destruct Hr as (_ & _ & _ & _ & _ & _ & _ & _ & _ & Htest & HXt & HU' & _).
  exists (r_test_df r), (r_vectorizer r), (r_X r), (r_Sv r), (r_VT r),
    (r_X_test r), (r_U_test r), (r_U r), (r_y r), splits, models.
  exists (main_events conf r vec_evs feat_evs svd_evs train_evs models).
  eexists _, (r_test_rows r).
  split; [done|]. split; [done|]. split; [done|].
  split; [rewrite Hs'; apply after_trace|].
  split; [apply Hcsv|].
  split; [by rewrite Hlen|].
  split; [done|].
  split_and!; try done.
  - unfold main_events. rewrite !elem_of_app. do 4 right. left.
    apply list_elem_of_here.
  - by rewrite Hlenm.
  - intros j f Hf.
    destruct (Forall2_lookup_r _ _ _ _ _ Hmodels Hf) as (q & Hq & Hfile).
    destruct (Hnum j q Hq) as [_ Hd]. rewrite Hd in Hfile.
    rewrite Hpost. simpl. rewrite apply_writes_frame; [done|].
    apply last_char_not_elem with (c := "l"%char);
      [apply last_char_model_path|].
    eapply Forall_impl; [apply post_events_paths|].
    intros q' (c & Hc & Hne & _). eauto.
Qed.

(** Nothing after the decomposition touches the cached feature matrix
    or the basis. *)
Lemma files_after_svd conf r models (train_evs : list event) n s'
    (p : string) (c : ascii) :
  r_sT r = after (r_sS r) ([EvSplit (r_U r) (r_y r)] ++ train_evs) →
  s' = after (r_sT r) (post_events conf r models) →
  Forall (train_event (ff_dump_dir (Some (conf_dump_dir conf))) n) train_evs →
  last_char p = Some c → c = "z"%char ∨ c = "t"%char →
  files s' p = files (r_sS r) p.
Proof.
  intros HsT -> Htevs Hp Hc. rewrite HsT. simpl.
  rewrite !apply_writes_frame; [done| |].
  - apply train_events_paths in Htevs.
    apply last_char_not_elem with (c := c); [done|].
    eapply Forall_impl; [done|]. intros q Hq. simpl in Hq.
    exists "l"%char. split; [done|]. by destruct Hc as [-> | ->].
  - apply last_char_not_elem with (c := c); [done|].
    eapply Forall_impl; [apply post_events_paths|].
    intros q (c' & Hc' & _ & Hz & Ht). exists c'. split; [done|].
    by destruct Hc as [-> | ->].
Qed.

(** ** Finite scores *)

(** The logits of the outputs of [f] on the rows [idx] of [X]. *)
Lemma logits_of_rows (P : xreal → Prop) f X idx Xv ps :
  take_rows X idx = Some Xv →
  mapM (predict_row ext f) Xv = Some ps →
  (∀ u pr, u ∈ X → predict_row ext f u = Some pr → P (logit pr)) →
  Forall P (map logit ps).
Proof.
  intros HX%take_rows_lookup Hp%mapM_Some_1 HP.
  revert ps Hp. induction HX as [|i u idx Xv Hi _ IH]; intros ps Hp.
  - by apply Forall2_nil_inv_l in Hp as ->.
  - apply Forall2_cons_inv_l in Hp as (pr & ps' & Hpr & Hps & ->). simpl.
    constructor; [|by apply IH].
    apply (HP u pr); [by eapply list_elem_of_lookup_2|done].
Qed.

(** Every entry [train_ff] returns is the zero it started from or the
    logit of the output of a fold's checkpoint on a row of the data. *)
Lemma train_ff_scores X (y : list cell) o folds preds s s' :
  train_ff ext X y o s = (Some (folds, preds), s') →
  ∃ splits,
    skf_split ext X y = Some splits
    ∧ Forall (λ v, v = xzero
                   ∨ fold_logit ext (files s') (ff_dump_dir (opt_dump_dir o))
                       (length splits) X v) preds.
Proof.
  intros H. unfold train_ff in H. prog_unfold.
  apply bind_inv in H as (layers & ? & [Hl ->]%lift_inv & H).
  apply bind_inv in H as (acts & ? & [Ha ->]%lift_inv & H).
  apply bind_inv in H as (? & ? & Hg & H).
  apply guard_inv in Hg as [Hlen ->].
  apply bind_inv in H as (? & s1 & _ & H).
  apply bind_inv in H as (splits & ? & [Hsp ->]%lift_inv & H).
  exists splits. split; [done|]. revert H.
  apply (for_enumerate_ind
           (λ n acc t,
              Forall (λ v, v = xzero
                           ∨ fold_logit ext (files t)
                               (ff_dump_dir (opt_dump_dir o)) n X v) acc.2)).
  - simpl. apply Forall_replicate. by left.
  - intros j [tr va] [folds0 preds0] t [folds1 preds1] t' Hj Hinv Hstep.
    simpl in *.
    apply train_fold_inv in Hstep
      as (f & X_train & y_train & X_valid & p_valid & q & s2 & _ & _ & HXv
          & Hpv & Hsc & _ & _ & _ & Hload & ->).
    apply load_or_train_model_inv in Hload as (Hf & Hother & _).
    eapply scatter_Forall; [done| |].
    + eapply Forall_impl; [done|].
      intros v [->|(j' & f' & u & pr & Hj' & Hf' & Hu & Hpr & ->)];
        [by left|right].
      exists j', f', u, pr. split_and!; try done; [lia|].
      simpl. rewrite Hother; [done|]. intros ?%model_path_inj. lia.
    + eapply logits_of_rows; [done..|]. intros u pr Hu Hpr. right.
      exists j, f, u, pr. split_and!; try done. lia.
Qed.

(** What follows the fold loop leaves the checkpoints alone. *)
Lemma checkpoints_after_training conf r (models : list Model) s' (j : nat) :
  s' = after (r_sT r) (post_events conf r models) →
  files s' (model_path (ff_dump_dir (Some (conf_dump_dir conf))) j)
  = files (r_sT r) (model_path (ff_dump_dir (Some (conf_dump_dir conf))) j).
Proof.
  intros ->. simpl. rewrite apply_writes_frame; [done|].
  apply last_char_not_elem with (c := "l"%char);
    [apply last_char_model_path|].
  eapply Forall_impl; [apply post_events_paths|].
  intros q' (c & Hc & Hne & _). eauto.
Qed.

(** C6, as the code has it.  Each CSV holds one row per record of its
    frame.  The scores of the train CSV are finite when every model
    checkpointed for a fold puts out, on every row of the symmetrized
    train features, a value strictly between 0 and 1; those of the test
    CSV are when the same holds on the rows of the symmetrized test
    features and there is at least one fold. *)
Theorem csv_rows_and_finite_scores conf s s' :
  main ext conf s = (Some (), s') →
  let d := conf_dump_dir conf in
  let dd := ff_dump_dir (Some d) in
  ∃ train_df test_df evs p_train c_train p_test c_test U y splits
    v X Sv VT X_test U_test,
    load_train_df ext (conf_dataset conf) = Some train_df
    ∧ load_test_df ext (conf_dataset conf) = Some test_df
    ∧ trace s' = trace s ++ evs
    ∧ csv_writes evs = [(p_train, c_train); (p_test, c_test)]
    ∧ length (csv_rows c_train) = df_nrows train_df
    ∧ length (csv_rows c_test) = df_nrows test_df
    ∧ EvSplit U y ∈ evs
    ∧ skf_split ext U y = Some splits
    ∧ files s' (join_path d "features_train.npz") = Some (FMatrix X)
    ∧ svd_on_disk (files s') d Sv VT
    ∧ EvComputeFeatures test_df v ∈ evs
    ∧ compute_feature_matrix ext test_df v = Some X_test
    ∧ project X_test VT (make_Sinv Sv X) ≫= symmetrize = Some U_test
    ∧ (fold_outputs_open ext (files s') dd (length splits) U →
       scores_finite c_train)
    ∧ (fold_outputs_open ext (files s') dd (length splits) U_test →
       splits ≠ [] → scores_finite c_test).
Proof.
  intros [r Hr]%main_inv d dd.
  destruct (train_out_header _ _ _ _ Hr) as (_ & Hlen1 & Hrows1).
  destruct (test_out_header _ _ _ _ Hr) as (col & Hcol & _ & Hlen2 & _).
  destruct (main_run_events _ _ _ _ Hr)
    as (vec_evs & feat_evs & svd_evs & train_evs & splits & models & pss
        & Hs' & Hvec & Hfeat & Hsvd & HfX & HsS & (Hsv & arrays & Hvt & HVT)
        & HsT & Hpost & Hsp & Htevs & Hfolds & Hnum & Hmodels & Hpss & Hcol'
        & Hn & HnU & _).
  pose proof (main_csv_writes _ _ _ _ _ _ _ _ _ models Hr Hvec Hfeat Hsvd Htevs)
    as Hcsv.
  assert (Hlenm : length models = length (r_folds r))
    by (symmetry; by eapply Forall2_length).
  pose proof (test_row_scores _ _ _ _ _ _ Hr Hpss Hcol' Hlenm) as Hscores.
  destruct Hr as (Htrain & _ & _ & _ & _ & _ & HT & _ & _ & Htest & HXt & HU'
                  & _).
  exists (r_train_df r), (r_test_df r),
    (main_events conf r vec_evs feat_evs svd_evs train_evs models).
  eexists _, _, _, _, (r_U r), (r_y r), splits.
  exists (r_vectorizer r), (r_X r), (r_Sv r), (r_VT r), (r_X_test r),
    (r_U_test r).
  split; [done|]. split; [done|].
  split; [rewrite Hs'; apply after_trace|].
  split; [apply Hcsv|].
  split; [done|]. split; [simpl; by rewrite Hlen2|].
  split.
  { unfold main_events. rewrite !elem_of_app. do 4 right. left.
    apply list_elem_of_here. }
  split; [done|].
  split.
  { rewrite (files_after_svd _ _ _ _ _ _ _ "z"%char HsT Hpost Htevs);
      [|by rewrite last_char_join_path|by left].
    rewrite HsS. simpl. rewrite apply_writes_frame; [done|].
    destruct Hsvd as [->|(fig & _ & ->)]; [by apply not_elem_of_nil|].
    simpl. rewrite !not_elem_of_cons. fold d.
    split_and!; try (by intros ?%join_path_inj). by apply not_elem_of_nil. }
  split.
  { split.
    - rewrite (files_after_svd _ _ _ _ _ _ _ "t"%char HsT Hpost Htevs);
        [done|by rewrite last_char_join_path|by right].
    - exists arrays. split; [|done].
      rewrite (files_after_svd _ _ _ _ _ _ _ "z"%char HsT Hpost Htevs);
        [done|by rewrite last_char_join_path|by left]. }
  split.
  { unfold main_events, post_events. rewrite !elem_of_app. do 6 right.
    do 2 right. left. apply elem_of_cons. right. apply list_elem_of_here. }
  split; [done|]. split; [done|].
  unfold scores_finite. simpl. split.
  - intros Hopen.
    destruct (train_ff_scores _ _ _ _ _ _ _ HT) as (splits' & Hsp' & Hfin).
    rewrite Hsp in Hsp'. injection Hsp' as <-. simpl in Hfin.
    apply Forall_forall. intros row [j Hj]%list_elem_of_lookup.
    destruct (Hrows1 j row Hj) as (x & Hx & Hrow).
    exists x. split; [done|].
    rewrite Forall_forall in Hfin.
    destruct (Hfin x) as [->|(i & f & u & pr & Hi & Hf & Hu & Hpr & ->)];
      [by eapply list_elem_of_lookup_2|done|].
    rewrite <- (checkpoints_after_training _ _ _ _ _ Hpost) in Hf.
    destruct (Hopen i f u pr Hi Hf Hu Hpr) as (z & -> & Hz).
    by apply logit_finite.
  - intros Hopen Hne. apply Forall_forall.
    intros row [j Hj]%list_elem_of_lookup.
    assert (is_Some (r_U_test r !! j)) as [u Hu].
    { apply lookup_lt_is_Some. apply lookup_lt_Some in Hj.
      unfold nrows in HnU. lia. }
    destruct (Hscores j u row Hu Hj) as (outs & Houts & Hrow).
    eexists. split; [done|].
    apply xmean_finite.
    + intros Hnil%fmap_nil_inv. subst outs.
      apply length_mapM in Houts. simpl in Houts.
      destruct splits; [done|]. rewrite Hlenm, Hfolds in Houts. done.
    + apply Forall_fmap, Forall_forall. intros pr [i Hi]%list_elem_of_lookup.
      apply mapM_Some_1 in Houts.
      destruct (Forall2_lookup_r _ _ _ _ _ Houts Hi) as (f & Hf & Hpr).
      destruct (Forall2_lookup_r _ _ _ _ _ Hmodels Hf) as (q & Hq & Hfile).
      destruct (Hnum i q Hq) as [_ Hd]. rewrite Hd in Hfile.
      rewrite <- (checkpoints_after_training _ _ _ _ _ Hpost) in Hfile.
      destruct (Hopen i f u pr) as (z & -> & Hz); try done.
      * rewrite <- Hfolds. by eapply lookup_lt_Some.
      * by eapply list_elem_of_lookup_2.
      * simpl. by apply logit_finite.
Qed.

(** ** The basis and the projection *)

(** C10.  The test features are projected with the basis and the
    scaling of the training phase: the singular vectors and values the
    dump directory holds, and the square root of the number of rows of
    the train feature matrix. *)
Theorem test_projection_reuses_train_map conf s s' :
  main ext conf s = (Some (), s') →
  let d := conf_dump_dir conf in
  ∃ X Sv VT v y U splits test_df X_test U_test pre c post models,
    files s' (join_path d "features_train.npz") = Some (FMatrix X)
    ∧ svd_on_disk (files s') d Sv VT
    ∧ project X VT (make_Sinv Sv X) ≫= symmetrize = Some U
    ∧ load_test_df ext (conf_dataset conf) = Some test_df
    ∧ compute_feature_matrix ext test_df v = Some X_test
    ∧ project X_test VT (make_Sinv Sv X) ≫= symmetrize = Some U_test
    ∧ trace s' = trace s ++ pre ++ EvWrite (join_path d "train.csv") c :: post
    ∧ EvSplit U y ∈ pre
    ∧ skf_split ext U y = Some splits
    ∧ predicts post = map (λ f, (f, U_test)) models
    ∧ length models = length splits.
Proof.
  intros [r Hr]%main_inv d.
  destruct (main_run_events _ _ _ _ Hr)
    as (vec_evs & feat_evs & svd_evs & train_evs & splits & models & pss
        & Hs' & Hvec & Hfeat & Hsvd & HfX & HsS & (Hsv & arrays & Hvt & HVT)
        & HsT & Hpost & Hsp & Htevs & Hfolds & Hnum & Hmodels & _).
  destruct Hr as (_ & _ & _ & _ & _ & HU & _ & _ & _ & Htest & HXt & HU' & _).
  exists (r_X r), (r_Sv r), (r_VT r), (r_vectorizer r), (r_y r), (r_U r),
    splits, (r_test_df r), (r_X_test r), (r_U_test r).
  exists ([EvMakedirs d; EvWrite (join_path d "application.conf") FConfig]
          ++ vec_evs ++ feat_evs ++ svd_evs
          ++ [EvSplit (r_U r) (r_y r)] ++ train_evs
          ++ [EvMakedirs (join_path d "quality")]
          ++ concat (map (plot_events (join_path d "quality")) (r_folds r))).
  eexists _, ([EvComputeFeatures (r_test_df r) (r_vectorizer r)]
              ++ map (λ f, EvPredict f (r_U_test r)) models
              ++ [test_csv_event d r]), models.
  split_and!; try done.
  - rewrite (files_after_svd _ _ _ _ _ _ _ "z"%char HsT Hpost Htevs);
      [|by rewrite last_char_join_path|by left].
    rewrite HsS. simpl. rewrite apply_writes_frame; [done|].
    destruct Hsvd as [->|(fig & _ & ->)]; [by apply not_elem_of_nil|].
    simpl. rewrite !not_elem_of_cons. fold d.
    split_and!; try (by intros ?%join_path_inj). by apply not_elem_of_nil.
  - split.
    + rewrite (files_after_svd _ _ _ _ _ _ _ "t"%char HsT Hpost Htevs);
        [done|by rewrite last_char_join_path|by right].
    + exists arrays. split; [|done].
      rewrite (files_after_svd _ _ _ _ _ _ _ "z"%char HsT Hpost Htevs);
        [done|by rewrite last_char_join_path|by left].
  - rewrite Hs'. rewrite after_trace. f_equal. unfold main_events, post_events.
    fold d. unfold train_csv_event. rewrite <- !app_assoc. simpl. reflexivity.
  - rewrite !elem_of_app. do 4 right. left. apply list_elem_of_here.
  - change predicts with (λ evs, sum_predicts (summarize evs)). cbv beta.
    rewrite !summarize_app, predict_events_summary. simpl.
    by rewrite app_nil_r.
  - rewrite <- Hfolds. symmetry. by eapply Forall2_length.
Qed.

(** ** The rank of the basis *)

Lemma loadtxt_len_Some (Sv : list xreal) n :
  loadtxt_len Sv = Some n → n = length Sv.
Proof. unfold loadtxt_len. case_decide; [done|]. by intros [= <-]. Qed.

Lemma make_Sinv_rows (Sv : list xreal) X :
  nrows (make_Sinv Sv X) = length Sv.
Proof.
  unfold make_Sinv, mat_mul_scalar, mat_map, diag, nrows.
  by rewrite length_map, length_imap, length_map.
Qed.

(** C7.  Whenever [load_or_compute_svd] hands a basis to the projection
    step, its singular values are as many as the configured k, and so
    [Sinv] has k rows: on the cache path by the assertion of line 195,
    on the fresh path by what [compute_svd] returns. *)
Theorem svd_rank_is_k opts X d Sv VT s s' :
  compute_svd_rank ext →
  load_or_compute_svd ext opts X d s = (Some (Sv, VT), s') →
  svd_k opts = Some (length Sv)
  ∧ nrows (make_Sinv Sv X) = length Sv
  ∧ ((∃ k, cached_svd (files s) k d = Some (Sv, VT) ∧ k = length Sv ∧ s' = s)
     ∨ compute_svd ext X opts = Some (Sv, VT)).
Proof.
  intros Hrank (k & Hk & [[Hc ->]|(Hc & Hsvd & _)])%load_or_compute_svd_inv.
  - destruct (cached_svd_on_disk _ _ _ _ _ Hc) as [_ Hlen%loadtxt_len_Some].
    subst k. split_and!; [done|apply make_Sinv_rows|]. left. eauto.
  - split_and!; [by eapply Hrank|apply make_Sinv_rows|by right].
Qed.

(** ** Caching *)

Lemma load_or_compute_svd_miss_persisted opts X d k Sv VT s :
  svd_k opts = Some k →
  cached_svd (files s) k d = None →
  compute_svd ext X opts = Some (Sv, VT) →
  svd_on_disk (files (load_or_compute_svd ext opts X d s).2) d Sv VT.
Proof.
  intros Hk Hc Hsvd.
  destruct (singular_values_figure Sv) as [fig|] eqn:Hfig.
  - rewrite (load_or_compute_svd_miss _ _ _ _ _ _ _ _ Hk Hc Hsvd Hfig).
    unfold svd_on_disk, fresh_svd_events. simpl. split.
    + do 2 (rewrite fs_insert_ne by (by intros ?%join_path_inj)).
      apply fs_insert_eq.
    + exists [("VT", VT)]. split; [|done].
      rewrite fs_insert_ne by (by intros ?%join_path_inj).
      apply fs_insert_eq.
  - unfold load_or_compute_svd. prog_unfold.
    unfold bind at 1. unfold lift at 1. rewrite Hk.
    unfold try_except. rewrite load_svd_run, Hc.
    unfold bind at 1. unfold emit at 1.
    unfold bind at 1. unfold lift at 1. rewrite Hsvd.
    unfold bind at 1. unfold write at 1.
    unfold bind at 1. unfold write at 1.
    unfold bind at 1. rewrite plot_singular_values_run, Hfig.
    unfold svd_on_disk. simpl. split.
    + rewrite fs_insert_ne by (by intros ?%join_path_inj).
      apply fs_insert_eq.
    + exists [("VT", VT)]. split; [|done]. apply fs_insert_eq.
Qed.

(** C4.  Each of the four cached artifacts is loaded when its cached
    copy loads, and then nothing is computed or written: the state is
    left as it was.  When the copy does not load, whatever the reason,
    the artifact is computed afresh and persisted to the path the load
    was tried from.  For the decomposition the load includes the
    assertion on the rank; a fresh decomposition is persisted in any
    case, and the call returns it when the figure can be drawn, which
    takes a singular value and finite values. *)
Theorem cache_hit_skips_and_miss_recomputes s :
  (∀ df o (p : string) v,
      files s p = Some (FVectorizer v) →
      load_or_train_vectorizer ext df o p s = (Some v, s))
  ∧ (∀ df o (p : string) v,
      (∀ v0, files s p ≠ Some (FVectorizer v0)) →
      train_vectorizer ext df o = Some v →
      ∃ s', load_or_train_vectorizer ext df o p s = (Some v, s')
            ∧ files s' p = Some (FVectorizer v)
            ∧ trace s' = trace s ++ [EvTrainVectorizer df o;
                                     EvWrite p (FVectorizer v)])
  ∧ (∀ df v (p : string) X,
      files s p = Some (FMatrix X) →
      load_or_compute_features ext df v p s = (Some X, s))
  ∧ (∀ df v (p : string) X,
      (∀ X0, files s p ≠ Some (FMatrix X0)) →
      compute_feature_matrix ext df v = Some X →
      ∃ s', load_or_compute_features ext df v p s = (Some X, s')
            ∧ files s' p = Some (FMatrix X)
            ∧ trace s' = trace s ++ [EvComputeFeatures df v;
                                     EvWrite p (FMatrix X)])
  ∧ (∀ opts X d k Sv VT,
      svd_k opts = Some k →
      cached_svd (files s) k d = Some (Sv, VT) →
      load_or_compute_svd ext opts X d s = (Some (Sv, VT), s))
  ∧ (∀ opts X d k Sv VT,
      svd_k opts = Some k →
      cached_svd (files s) k d = None →
      compute_svd ext X opts = Some (Sv, VT) →
      svd_on_disk (files (load_or_compute_svd ext opts X d s).2) d Sv VT
      ∧ (Sv ≠ [] → Forall is_finite Sv →
         ∃ fig,
           load_or_compute_svd ext opts X d s
           = (Some (Sv, VT), after s (fresh_svd_events opts X d Sv VT fig))))
  ∧ (∀ (p : string) layers acts dim method ep bs X (y : list cell) f,
      files s p = Some (FModel f) →
      load_or_train_model ext p layers acts dim method ep bs X y s
      = (Some f, s))
  ∧ (∀ (p : string) layers acts dim method ep bs X (y : list cell) net f,
      (∀ f0, files s p ≠ Some (FModel f0)) →
      build_network layers acts dim method = Some net →
      fit ext net X y ep bs = Some f →
      ∃ s', load_or_train_model ext p layers acts dim method ep bs X y s
            = (Some f, s')
            ∧ files s' p = Some (FModel f)
            ∧ trace s' = trace s ++ [EvFit net X y ep bs;
                                     EvWrite p (FModel f)]).
Proof.
  split_and!.
  - intros df o p v Hp. by rewrite load_or_train_vectorizer_run, Hp.
  - intros df o p v Hp Hv. rewrite load_or_train_vectorizer_run, Hv.
    destruct (files s p) as [[]|] eqn:E; try (eexists; split_and!;
      [done|apply fs_insert_eq|done]).
    by destruct (Hp v0).
  - intros df v p X Hp. by rewrite load_or_compute_features_run, Hp.
  - intros df v p X Hp HX. rewrite load_or_compute_features_run, HX.
    destruct (files s p) as [[]|] eqn:E; try (eexists; split_and!;
      [done|apply fs_insert_eq|done]).
    by destruct (Hp X0).
  - intros opts X d k Sv VT. apply load_or_compute_svd_hit.
  - intros opts X d k Sv VT Hk Hc Hsvd. split.
    + by eapply load_or_compute_svd_miss_persisted.
    + intros Hne Hfin.
      destruct (singular_values_figure_finite Sv Hne Hfin)
        as (top & _ & _ & Hfig).
      eexists. by eapply load_or_compute_svd_miss.
  - intros p layers acts dim method ep bs X y f Hp.
    by rewrite load_or_train_model_run, Hp.
  - intros p layers acts dim method ep bs X y net f Hp Hnet Hfit.
    rewrite load_or_train_model_run, Hnet, Hfit.
    destruct (files s p) as [[]|] eqn:E; try (eexists; split_and!;
      [done|apply fs_insert_eq|done]).
    by destruct (Hp m).
Qed.
End PipelineFacts.

(** ** The network a fold trains *)

Lemma hidden_layers_shifted (activations : list string) (ls : list nat) :
  length ls < length activations →
  ∃ rest,
    mapM (λ '(layer, layer_size),
            a ← activations !! layer; Some (Dense layer_size a None))
         (imap pair ls) = Some rest
    ∧ length rest = length ls
    ∧ ∀ i l, ls !! i = Some l →
             ∃ a, activations !! i = Some a
                  ∧ rest !! i = Some (Dense l a None).
Proof.
  intros Hlen.
  set (f := λ '(layer, layer_size),
          a ← activations !! layer; Some (Dense layer_size a None)).
  assert (Hall : ∀ i l, ls !! i = Some l →
                   ∃ a, activations !! i = Some a
                        ∧ f (i, l) = Some (Dense l a None)).
  { intros i l Hi. apply lookup_lt_Some in Hi.
    destruct (lookup_lt_is_Some_2 activations i) as [a Ha]; [lia|].
    exists a. split; [done|]. simpl. by rewrite Ha. }
  destruct (mapM f (imap pair ls)) as [rest|] eqn:E.
  - apply mapM_Some in E. exists rest. split; [done|].
    pose proof (Forall2_length _ _ _ E) as Hl. rewrite length_imap in Hl.
    split; [done|]. intros i l Hi.
    destruct (Hall i l Hi) as (a & Ha & Hf). exists a. split; [done|].
    assert (Hi' : imap pair ls !! i = Some (i, l)).
    { by rewrite list_lookup_imap, Hi. }
    destruct (Forall2_lookup_l _ _ _ _ _ E Hi') as (d & Hd & Hfd).
    rewrite Hf in Hfd. by simplify_eq.
  - exfalso. apply mapM_None in E. apply Exists_exists in E as ([i l] & Hin & Hf).
    apply list_elem_of_lookup in Hin as [j Hj].
    rewrite list_lookup_imap in Hj.
    destruct (ls !! j) as [l'|] eqn:Hl; simpl in Hj; [|done].
    simplify_eq. destruct (Hall _ _ Hl) as (a & _ & Hfa). by rewrite Hf in Hfa.
Qed.

(** C3 on the code.  With as many activations as layers, and at least one
    layer, the network is built: layer sizes as configured, one sigmoid
    unit at the end, binary cross-entropy as the loss.  The first hidden
    layer has the first activation; every later hidden layer, at index
    [i + 1], has the activation at index [i], the one before its own. *)
Theorem build_network_layers (layers : list nat) (activations : list string)
    (dim : nat) (method : string) :
  length layers = length activations →
  0 < length layers →
  ∃ net,
    build_network layers activations dim method = Some net
    ∧ net_loss net = "binary_crossentropy"
    ∧ length (net_layers net) = S (length layers)
    ∧ (∃ l0 a0, layers !! 0 = Some l0 ∧ activations !! 0 = Some a0
                ∧ net_layers net !! 0 = Some (Dense l0 a0 (Some dim)))
    ∧ (∀ i l, layers !! S i = Some l →
              ∃ a, activations !! i = Some a
                   ∧ net_layers net !! S i = Some (Dense l a None))
    ∧ net_layers net !! length layers = Some (Dense 1 "sigmoid" None).
Proof.
  intros Hlen Hpos.
  destruct layers as [|l0 ls]; [simpl in Hpos; lia|].
  destruct activations as [|a0 acts]; [done|].
  destruct (hidden_layers_shifted (a0 :: acts) ls) as (rest & Hrest & Hl & Hact).
  { simpl in *. lia. }
  unfold build_network, build_layers. simpl.
  simpl in Hrest. rewrite Hrest. simpl.
  eexists. split; [done|]. simpl. split_and!.
  - done.
  - rewrite length_app. simpl. lia.
  - by exists l0, a0.
  - intros i l Hi. destruct (Hact i l Hi) as (a & Ha & Hr).
    exists a. split; [done|]. by rewrite lookup_app_l by (by eapply lookup_lt_Some).
  - rewrite <- Hl. by rewrite list_lookup_middle.
Qed.

(** * More of the script *)

(** ** Rows of a selection *)

Lemma select_rows_cells df names out rows :
  select_columns df names = Some out →
  frame_rows out = Some rows →
  ∀ j r, rows !! j = Some r →
         Forall2 (λ n v, ∃ c, get_column df n = Some c ∧ c !! j = Some v)
           names r.
Proof.
  unfold select_columns, frame_rows. intros Hsel Hrows j r Hj.
  destruct (mapM _ names) as [cols|] eqn:Hcols; [|done].
  injection Hsel as <-. simpl in *.
  apply mapM_Some_1 in Hcols. apply mapM_Some_1 in Hrows.
  destruct (Forall2_lookup_r _ _ _ _ _ Hrows Hj) as (j' & Hj' & Hr).
  apply lookup_seq in Hj' as [-> _]. simpl in Hr.
  apply mapM_Some_1 in Hr. clear -Hcols Hr. revert r Hr.
  induction Hcols as [|n nc names cols Hn _ IH]; intros r Hr.
  - by apply Forall2_nil_inv_l in Hr as ->.
  - apply Forall2_cons_inv_l in Hr as (v & r' & Hv & Hr' & ->).
    constructor; [|by apply IH].
    destruct (get_column df n) as [c|]; [|done]. simpl in Hn.
    injection Hn as <-. by exists c.
Qed.

Section MoreFacts.
Context {Vectorizer Model Dataset Kwargs : Type}.
Variable ext : externals Vectorizer Model Dataset Kwargs.
Local Abbreviation state := (state Vectorizer Model Kwargs).
Local Abbreviation event := (event Vectorizer Model Kwargs).
Local Abbreviation content := (content Vectorizer Model).
Local Abbreviation written_paths := (@written_paths Vectorizer Model Kwargs).
Local Abbreviation apply_writes := (@apply_writes Vectorizer Model Kwargs).
Local Abbreviation summarize := (@summarize Vectorizer Model Kwargs).
Local Abbreviation plot_events := (@plot_events Vectorizer Model Kwargs).
Local Abbreviation post_events := (@post_events Vectorizer Model Dataset Kwargs).
Local Abbreviation main_events := (@main_events Vectorizer Model Dataset Kwargs).

Implicit Types (s t : state) (f : Model) (X U : matrix).

(** ** The fold loop *)

(** X1.  [train_ff] checks its options before it does anything: when the
    key [layers] or the key [activations] is missing, or the two lists
    differ in length, it raises, and no split is asked for, no model is
    fitted and no file is written. *)
Theorem train_ff_rejects_bad_options X (y : list cell) o s :
  (∀ layers acts,
      opt_layers o = Some layers → opt_activations o = Some acts →
      length layers ≠ length acts) →
  train_ff ext X y o s = (None, s).
Proof.
  intros Hbad. unfold train_ff. prog_unfold. unfold bind at 1, lift at 1.
  destruct (opt_layers o) as [layers|]; [|done].
  unfold bind at 1, lift at 1.
  destruct (opt_activations o) as [acts|]; [|done].
  unfold bind at 1.
  destruct (decide (length layers = length acts)) as [Heq|]; [|done].
  by destruct (Hbad layers acts).
Qed.

(** X2.  A successful [train_ff] writes nothing but fold checkpoints:
    after the split is asked for, every path written is the checkpoint
    of one of the folds, no CSV file and no figure is written, and every
    other file is left as it was. *)
Theorem train_ff_writes_only_checkpoints X (y : list cell) o acc s s' :
  train_ff ext X y o s = (Some acc, s') →
  let dd := ff_dump_dir (opt_dump_dir o) in
  ∃ splits evs,
    skf_split ext X y = Some splits
    ∧ trace s' = trace s ++ EvSplit X y :: evs
    ∧ Forall (λ q, ∃ j, j < length splits ∧ q = model_path dd j)
        (written_paths evs)
    ∧ csv_writes evs = [] ∧ figure_writes evs = []
    ∧ ∀ p : string, (∀ j, j < length splits → p ≠ model_path dd j) →
                    files s' p = files s p.
Proof.
  intros H dd. apply train_ff_inv in H
    as (splits & layers & acts & _ & _ & _ & Hsp & _ & _ & _
        & (evs & -> & Hevs) & Hframe & _).
  exists splits, evs. split; [done|].
  destruct (train_events_summary _ _ _ Hevs) as (Hcsv & Hfig & _ & Hpaths).
  split_and!; [|done..|].
  - simpl. by rewrite <- app_assoc.
  - intros p Hp. by rewrite Hframe.
Qed.

(** X3.  The quality record [train_ff] returns has one entry per fold,
    in order: entry [j] carries the fold number [j] and the path of the
    checkpoint of fold [j]. *)
Theorem train_ff_folds_numbered X (y : list cell) o folds preds s s' :
  train_ff ext X y o s = (Some (folds, preds), s') →
  ∃ splits,
    skf_split ext X y = Some splits
    ∧ length folds = length splits
    ∧ map fold folds = seq 0 (length splits)
    ∧ map dump folds
      = map (model_path (ff_dump_dir (opt_dump_dir o))) (seq 0 (length splits)).
Proof.
  intros H. apply train_ff_inv in H
    as (splits & layers & acts & _ & _ & _ & Hsp & _ & Hlen & Hq & _).
  simpl in *. exists splits. split_and!; try done.
  - rewrite <- Hlen. by eapply folds_numbered.
  - rewrite <- Hlen. apply list_eq. intros j.
    rewrite !list_lookup_fmap.
    destruct (folds !! j) as [q|] eqn:Hj; simpl.
    + rewrite lookup_seq_lt by (by eapply lookup_lt_Some). simpl.
      by destruct (Hq j q Hj) as [_ ->].
    + apply lookup_ge_None in Hj. by rewrite lookup_seq_ge.
Qed.

(** X4.  Where validation sets overlap the last fold wins: a record's
    prediction is the logit of the output of the model of the last fold
    whose validation set holds the record. *)
Theorem train_ff_last_fold_wins X (y : list cell) o folds preds s s' splits
    j tr va i :
  train_ff ext X y o s = (Some (folds, preds), s') →
  skf_split ext X y = Some splits →
  splits !! j = Some (tr, va) → i ∈ va →
  (∀ j' tr' va', j < j' → splits !! j' = Some (tr', va') → i ∉ va') →
  ∃ f u pr,
    files s' (model_path (ff_dump_dir (opt_dump_dir o)) j) = Some (FModel f)
    ∧ X !! i = Some u
    ∧ predict_row ext f u = Some pr
    ∧ preds !! i = Some (logit pr).
Proof.
  intros H Hsp Hj Hi Hlast. apply train_ff_inv in H
    as (splits' & layers & acts & _ & _ & _ & Hsp' & _ & _ & _ & _ & _
        & Hmodels & _).
  rewrite Hsp in Hsp'. injection Hsp' as <-. simpl in *.
  destruct (Hmodels j tr va) as (f & Hf & Hpreds);
    [by eapply lookup_lt_Some|done|].
  destruct (Hpreds i Hi) as (Hp & u & pr & Hu & Hpr).
  { intros j' tr' va' Hlt _ Hj'. by eapply Hlast. }
  exists f, u, pr. split_and!; try done.
  rewrite Hp. unfold held_out. by rewrite Hu, Hpr.
Qed.

(** X5.  A record that no validation set holds keeps the score the
    predictions start from, 0.0. *)
Theorem train_ff_unvalidated_zero X (y : list cell) o folds preds s s' splits
    i :
  train_ff ext X y o s = (Some (folds, preds), s') →
  skf_split ext X y = Some splits →
  i < length y →
  (∀ j tr va, splits !! j = Some (tr, va) → i ∉ va) →
  preds !! i = Some xzero.
Proof.
  intros H Hsp Hi Hnone. apply train_ff_inv in H
    as (splits' & layers & acts & _ & _ & _ & Hsp' & _ & _ & _ & _ & _
        & _ & Hrest).
  rewrite Hsp in Hsp'. injection Hsp' as <-. simpl in *.
  rewrite Hrest by (intros j tr va _; apply Hnone).
  by apply lookup_replicate_2.
Qed.

(** X6.  When the checkpoint of every fold is on disk, [train_ff] fits
    nothing and writes nothing: the files are left as they were, and
    after the split the only calls are predictions. *)
Theorem train_ff_cached_refits_nothing X (y : list cell) o acc s s' splits :
  train_ff ext X y o s = (Some acc, s') →
  skf_split ext X y = Some splits →
  (∀ j, j < length splits →
        ∃ f, files s (model_path (ff_dump_dir (opt_dump_dir o)) j)
             = Some (FModel f)) →
  files s' = files s
  ∧ ∃ evs, trace s' = trace s ++ EvSplit X y :: evs
           ∧ Forall (λ e, ∃ f U, e = EvPredict f U) evs.
Proof.
  intros H Hsp Hall. unfold train_ff in H. prog_unfold.
  apply bind_inv in H as (layers & ? & [Hl ->]%lift_inv & H).
  apply bind_inv in H as (acts & ? & [Ha ->]%lift_inv & H).
  apply bind_inv in H as (? & ? & Hg & H).
  apply guard_inv in Hg as [Hlen ->].
  apply bind_inv in H as (? & s1 & Hemit & H).
  injection Hemit as <- <-.
  apply bind_inv in H as (splits' & ? & [Hsp' ->]%lift_inv & H).
  rewrite Hsp in Hsp'. injection Hsp' as <-.
  revert H.
  apply (for_enumerate_ind
           (λ _ _ t, files t = files s
                     ∧ ∃ evs, trace t = trace s ++ EvSplit X y :: evs
                              ∧ Forall (λ e, ∃ f U, e = EvPredict f U) evs)).
  - split; [done|]. exists []. done.
  - intros j [tr va] [folds preds] t [folds' preds'] t' Hj
      (Hfiles & evs & Htr & Hevs) Hstep. simpl in Hstep.
    apply train_fold_inv in Hstep
      as (f & X_train & y_train & X_valid & p_valid & q & t1 & _ & _ & _
          & _ & _ & _ & _ & _ & Hload & ->).
    rewrite load_or_train_model_run, Hfiles in Hload.
    destruct (Hall j) as [f0 Hf0]; [by eapply lookup_lt_Some|].
    rewrite Hf0 in Hload. injection Hload as <- <-.
    split; [done|].
    exists (evs ++ [EvPredict f0 X_train; EvPredict f0 X_valid]).
    rewrite after_trace, Htr. split.
    + by rewrite <- app_assoc.
    + apply Forall_app. split; [done|]. repeat constructor; by eexists _, _.
Qed.

(** X7.  Every model [train_ff] fits is the network built from the
    configured layers and activations for as many inputs as the feature
    matrix has columns, fitted on the training rows of one fold, with
    the optimizer, the number of epochs and the batch size of the
    options, which default to adam, 10 and 100. *)
Theorem train_ff_fits_as_configured X (y : list cell) o acc s s' layers acts :
  train_ff ext X y o s = (Some acc, s') →
  opt_layers o = Some layers → opt_activations o = Some acts →
  ∃ splits evs,
    skf_split ext X y = Some splits
    ∧ trace s' = trace s ++ evs
    ∧ ∀ net Xt (yt : list cell) ep bs,
        EvFit net Xt yt ep bs ∈ evs →
        build_network layers acts (ncols X) (default "adam" (opt_method o))
        = Some net
        ∧ ep = default 10 (opt_epochs o)
        ∧ bs = default 100 (opt_batch_size o)
        ∧ ∃ j tr va, splits !! j = Some (tr, va)
                     ∧ take_rows X tr = Some Xt ∧ take_rows y tr = Some yt.
Proof.
  intros H Hl Ha. unfold train_ff in H. prog_unfold.
  apply bind_inv in H as (layers' & ? & [Hl' ->]%lift_inv & H).
  apply bind_inv in H as (acts' & ? & [Ha' ->]%lift_inv & H).
  rewrite Hl in Hl'. rewrite Ha in Ha'.
  injection Hl' as <-. injection Ha' as <-.
  apply bind_inv in H as (? & ? & Hg & H).
  apply guard_inv in Hg as [Hlen ->].
  apply bind_inv in H as (? & s1 & Hemit & H).
  injection Hemit as <- <-.
  apply bind_inv in H as (splits & ? & [Hsp ->]%lift_inv & H).
  exists splits.
  set (P := λ e : event,
    match e with
    | EvFit net Xt yt ep bs =>
        build_network layers acts (ncols X) (default "adam" (opt_method o))
        = Some net
        ∧ ep = default 10 (opt_epochs o)
        ∧ bs = default 100 (opt_batch_size o)
        ∧ ∃ j tr va, splits !! j = Some (tr, va)
                     ∧ take_rows X tr = Some Xt ∧ take_rows y tr = Some yt
    | _ => True
    end).
  assert (Hinv : ∃ evs, trace s' = trace s ++ evs ∧ Forall P evs).
  { revert H.
    apply (for_enumerate_ind
             (λ _ _ t, ∃ evs, trace t = trace s ++ evs ∧ Forall P evs)).
    - exists [EvSplit X y]. split; [done|]. by repeat constructor.
    - intros j [tr va] [folds preds] t [folds' preds'] t' Hj
        (evs & Htr & Hevs) Hstep. simpl in Hstep.
      apply train_fold_inv in Hstep
        as (f & X_train & y_train & X_valid & p_valid & q & t1 & HXt & Hyt
            & _ & _ & _ & _ & _ & _ & Hload & ->).
      rewrite load_or_train_model_run in Hload.
      destruct (match files t _ with Some (FModel f0) => Some f0 | _ => None
                end) as [f0|].
      + injection Hload as <- <-. eexists. rewrite after_trace, Htr.
        split; [by rewrite <- app_assoc|].
        apply Forall_app. split; [done|]. by repeat constructor.
      + destruct (build_network _ _ _ _) as [net|] eqn:Hnet; [|done].
        destruct (fit ext _ _ _ _ _) as [f1|]; [|done].
        injection Hload as <- <-. eexists.
        rewrite !after_trace, Htr. split; [by rewrite <- !app_assoc|].
        apply Forall_app. split; [done|]. apply Forall_app. split.
        * constructor; [|by repeat constructor]. simpl.
          split_and!; try done. by exists j, tr, va.
        * by repeat constructor. }
  destruct Hinv as (evs & Htr & Hevs). exists evs. split_and!; try done.
  intros net Xt yt ep bs Hin.
  by apply (proj1 (Forall_forall _ _) Hevs) in Hin.
Qed.

(** ** The caches *)

(** X8.  The caches are keyed by path alone.  Once a vectorizer, a
    feature matrix or a model has been obtained for a path, a later
    call for that path yields the same artifact and changes nothing,
    whatever data and options the later call is given. *)
Theorem caches_ignore_their_inputs s :
  (∀ df o df' o' (p : string) v s',
      load_or_train_vectorizer ext df o p s = (Some v, s') →
      load_or_train_vectorizer ext df' o' p s' = (Some v, s'))
  ∧ (∀ df v df' v' (p : string) X s',
      load_or_compute_features ext df v p s = (Some X, s') →
      load_or_compute_features ext df' v' p s' = (Some X, s'))
  ∧ (∀ (p : string) layers acts dim method ep bs X (y : list cell)
       layers' acts' dim' method' ep' bs' X' (y' : list cell) f s',
      load_or_train_model ext p layers acts dim method ep bs X y s
      = (Some f, s') →
      load_or_train_model ext p layers' acts' dim' method' ep' bs' X' y' s'
      = (Some f, s')).
Proof.
  split_and!.
  - intros df o df' o' p v s' (evs & _ & Hf & _)%load_or_train_vectorizer_inv.
    by rewrite load_or_train_vectorizer_run, Hf.
  - intros df v df' v' p X s' (evs & _ & Hf & _)%load_or_compute_features_inv.
    by rewrite load_or_compute_features_run, Hf.
  - intros p layers acts dim method ep bs X y layers' acts' dim' method' ep'
      bs' X' y' f s' (Hf & _)%load_or_train_model_inv.
    by rewrite load_or_train_model_run, Hf.
Qed.

(** X9.  The decomposition round-trips through its two files when it
    has the configured rank and that rank is not 1: a later call then
    loads it, for whatever matrix, and changes nothing. *)
Theorem svd_cache_round_trip opts X X' d k Sv VT s s' :
  load_or_compute_svd ext opts X d s = (Some (Sv, VT), s') →
  svd_k opts = Some k → length Sv = k → k ≠ 1 →
  load_or_compute_svd ext opts X' d s' = (Some (Sv, VT), s').
Proof.
  intros (evs & _ & (Hs & arrays & Hv & Hget) & _)%load_or_compute_svd_events
    Hk Hlen Hne.
  apply load_or_compute_svd_hit with (k := k); [done|].
  unfold cached_svd. rewrite Hs, Hv, Hget. simpl.
  unfold loadtxt_len. rewrite decide_False by lia. simpl.
  by rewrite decide_True.
Qed.

(** X10.  A decomposition of rank 1 is never loaded from the cache: the
    file of singular values then holds a single number, which loads as
    an array without a length, so the rank check raises and the
    decomposition is computed and persisted again on every call. *)
Theorem rank_one_svd_is_recomputed opts X d Sv VT s s' :
  svd_k opts = Some 1 →
  load_or_compute_svd ext opts X d s = (Some (Sv, VT), s') →
  compute_svd ext X opts = Some (Sv, VT)
  ∧ ∃ fig, s' = after s (fresh_svd_events opts X d Sv VT fig).
Proof.
  intros Hk (k & Hk' & H)%load_or_compute_svd_inv.
  rewrite Hk in Hk'. injection Hk' as <-.
  destruct H as [[Hc _]|(_ & Hsvd & fig & _ & ->)]; [|by eauto].
  apply cached_svd_on_disk in Hc as [_ Hlen]. unfold loadtxt_len in Hlen.
  destruct (decide (length Sv = 1)); [done|]. by simplify_eq.
Qed.

(** X11.  A cached decomposition of another rank than the configured
    one is not used: the decomposition, of finite singular values, is
    computed afresh and the two files are overwritten with it. *)
Theorem stale_svd_cache_is_replaced opts X d k Sv0 Sv VT s :
  svd_k opts = Some k →
  files s (join_path d "singular_values.txt") = Some (FText Sv0) →
  length Sv0 ≠ k →
  compute_svd ext X opts = Some (Sv, VT) → Sv ≠ [] → Forall is_finite Sv →
  ∃ fig,
    load_or_compute_svd ext opts X d s
    = (Some (Sv, VT), after s (fresh_svd_events opts X d Sv VT fig))
    ∧ svd_on_disk (files (after s (fresh_svd_events opts X d Sv VT fig)))
        d Sv VT.
Proof.
  intros Hk Hf Hlen Hsvd Hne Hfin.
  destruct (singular_values_figure_finite Sv Hne Hfin)
    as (s0 & _ & _ & Hfig).
  assert (Hmiss : cached_svd (files s) k d = None).
  { unfold cached_svd. rewrite Hf.
    destruct (files s (join_path d "singular_vectors.npz")) as [[]|];
      try done.
    destruct (npz_get "VT" arrays); [|done]. simpl.
    unfold loadtxt_len. destruct (decide (length Sv0 = 1)); [done|]. simpl.
    by rewrite decide_False by (by intros ->). }
  pose proof (load_or_compute_svd_miss ext opts X d k Sv VT _ s Hk Hmiss Hsvd
                Hfig) as Hrun.
  eexists. split; [exact Hrun|].
  by destruct (load_or_compute_svd_events _ _ _ _ _ _ _ _ Hrun)
    as (_ & _ & Hdisk & _).
Qed.

(** ** The singular value figure *)

Lemma xge_total : Total (λ a b : xreal, ¬ xlt a b).
Proof.
  intros [x| | |] [y| | |]; simpl; try tauto. destruct (Rlt_dec x y); [|tauto].
  right. lra.
Qed.

Lemma xge_trans (a b c : xreal) :
  b ≠ NaN → ¬ xlt a b → ¬ xlt b c → ¬ xlt a c.
Proof. destruct a, b, c; simpl; try tauto. lra. Qed.

Lemma sorted_head_bound (x : xreal) (l : list xreal) :
  Forall (λ a, a ≠ NaN) (x :: l) →
  Sorted (λ a b, ¬ xlt a b) (x :: l) →
  Forall (λ a, ¬ xlt x a) l.
Proof.
  revert x. induction l as [|b l IH]; intros x Hnan Hs; [done|].
  apply Sorted_inv in Hs as [Hs Hhd]. apply HdRel_inv in Hhd.
  apply Forall_cons in Hnan as [Hx Hnan].
  constructor; [done|].
  eapply Forall_impl; [by apply IH|]. intros a Ha. simpl in Ha.
  apply xge_trans with (b := b); [|done..].
  by apply Forall_cons in Hnan as [? _].
Qed.

Lemma sorted_reverse_top (Sv : list xreal) :
  Sv ≠ [] → Forall (λ a, a ≠ NaN) Sv →
  ∃ top, sorted_reverse Sv !! 0 = Some top ∧ top ∈ Sv
         ∧ ∀ a, a ∈ Sv → ¬ xlt top a.
Proof.
  intros Hne Hnan. destruct (sorted_reverse_head Sv Hne) as [top Htop].
  pose proof (merge_sort_Permutation (λ a b, ¬ xlt a b) Sv) as Hperm.
  pose proof (@Sorted_merge_sort _ (λ a b, ¬ xlt a b) _ xge_total Sv) as Hsort.
  fold (sorted_reverse Sv) in Hperm, Hsort.
  exists top. split_and!; [done| |].
  - rewrite <- Hperm. by eapply list_elem_of_lookup_2.
  - intros a Ha. rewrite <- Hperm in Ha, Hnan.
    destruct (sorted_reverse Sv) as [|x l]; [done|].
    injection Htop as ->. apply elem_of_cons in Ha as [->|Ha].
    + apply Forall_cons in Hnan as [Hx _]. destruct top; simpl; try tauto. lra.
    + pose proof (sorted_head_bound _ _ Hnan Hsort) as Hb.
      by apply (proj1 (Forall_forall _ _) Hb).
Qed.

Lemma finite_not_nan (Sv : list xreal) :
  Forall is_finite Sv → Forall (λ a, a ≠ NaN) Sv.
Proof. intros H. eapply Forall_impl; [done|]. by intros []. Qed.

(** X12.  For finite singular values, and at least one of them,
    [plot_singular_values] saves one figure, at [singular_values.png] in
    the directory it is given: the values redrawn in descending order,
    on a vertical axis from 0 to the largest of them. *)
Theorem plot_singular_values_draws_sorted Sv d s :
  Sv ≠ [] → Forall is_finite Sv →
  ∃ curve top,
    plot_singular_values Sv d s
    = (Some (),
       after s [EvWrite (join_path d "singular_values.png")
                  (FFigure (Figure "Singular values"
                              [Curve None curve "b.-" None]
                              (Some (xzero, top))))])
    ∧ curve ≡ₚ Sv
    ∧ Sorted (λ a b, ¬ xlt a b) curve
    ∧ top ∈ Sv
    ∧ ∀ a, a ∈ Sv → ¬ xlt top a.
Proof.
  intros Hne Hfin.
  destruct (singular_values_figure_finite Sv Hne Hfin)
    as (top & Htop & Hin & Hfig).
  destruct (sorted_reverse_top Sv Hne (finite_not_nan Sv Hfin))
    as (top' & Htop' & _ & Hmax).
  rewrite Htop in Htop'. injection Htop' as <-.
  exists (sorted_reverse Sv), top. split_and!; try done.
  - by rewrite plot_singular_values_run, Hfig.
  - apply merge_sort_Permutation.
  - apply (@Sorted_merge_sort _ (λ a b, ¬ xlt a b) _ xge_total Sv).
Qed.

(** X13.  On singular values without NaN, [plot_singular_values]
    raises exactly when there is no value, when a value is the positive
    infinity, or when every value is the negative infinity: the upper
    limit of the vertical axis, the largest value, must be there and be
    finite.  Nothing is written by then. *)
Theorem plot_singular_values_raises_iff Sv d s :
  Forall (λ a, a ≠ NaN) Sv →
  (plot_singular_values Sv d s = (None, s)
   ↔ Sv = [] ∨ PInf ∈ Sv ∨ Forall (λ a, a = NInf) Sv).
Proof.
  intros Hnan. rewrite plot_singular_values_run.
  unfold singular_values_figure.
  destruct (decide (Sv = [])) as [->|Hne]; [by split; [left|]|].
  destruct (sorted_reverse_top Sv Hne Hnan) as (top & Htop & Hin & Hmax).
  rewrite Htop. simpl.
  assert (Htn : top ≠ NaN) by (by apply (proj1 (Forall_forall _ _) Hnan)).
  split.
  - intros H. right. destruct top as [x| | |]; simpl in H; try done.
    + by left.
    + right. apply Forall_forall. intros a Ha.
      specialize (Hmax a Ha).
      assert (a ≠ NaN) by (by apply (proj1 (Forall_forall _ _) Hnan)).
      destruct a; simpl in Hmax; tauto.
  - intros [?|[Hinf|Hall]]; [done| |].
    + specialize (Hmax PInf Hinf). destruct top; simpl in *; tauto.
    + rewrite (proj1 (Forall_forall _ _) Hall top Hin). done.
Qed.

(** ** The rows of the two CSV files *)

(** X14.  Row [j] of the train CSV is record [j] of the train frame:
    its id, its label and the prediction [train_ff] returned for it,
    in this order. *)
Theorem train_csv_rows_are_aligned conf s s' :
  main ext conf s = (Some (), s') →
  ∃ train_df ids y U folds preds s1 s2 evs rows test_csv,
    load_train_df ext (conf_dataset conf) = Some train_df
    ∧ get_column train_df FieldsTrain_id = Some ids
    ∧ get_column train_df FieldsTrain_is_duplicate = Some y
    ∧ train_ff ext U y (train_options conf) s1 = (Some (folds, preds), s2)
    ∧ trace s' = trace s ++ evs
    ∧ csv_writes evs
      = [(join_path (conf_dump_dir conf) "train.csv",
          Csv false [FieldsTrain_id; FieldsTrain_is_duplicate; "svdff"] rows);
         test_csv]
    ∧ length rows = df_nrows train_df
    ∧ ∀ j row, rows !! j = Some row →
        ∃ a b x, ids !! j = Some a ∧ y !! j = Some b ∧ preds !! j = Some x
                 ∧ row = [a; b; CFloat x].
Proof.
  intros [r Hr]%main_inv.
  destruct (train_out_header _ _ _ _ _ Hr) as (_ & Hlen & _).
  destruct (main_run_events _ _ _ _ _ Hr)
    as (vec_evs & feat_evs & svd_evs & train_evs & splits & models & pss
        & Hs' & Hvec & Hfeat & Hsvd & _ & _ & _ & _ & _ & _ & Htevs & _).
  pose proof (main_csv_writes _ _ _ _ _ _ _ _ _ _ models Hr Hvec Hfeat Hsvd
                Htevs) as Hcsv.
  destruct Hr as (Hdf & Hy & _ & _ & _ & _ & Hff & (df & Hset & Hsel) & Hrows
                  & _).
  apply set_column_inv in Hset as (Hget & _ & _ & Hother).
  pose proof (select_rows_cells _ _ _ _ Hsel Hrows) as Hcells.
  assert (Hsel' := Hsel). unfold select_columns in Hsel'.
  destruct (mapM _ _) as [cols|] eqn:Hcols; [|done].
  apply mapM_Some_1 in Hcols.
  apply Forall2_cons_inv_l in Hcols as ([n ids] & ? & Hid & _ & _).
  rewrite Hother in Hid by done.
  destruct (get_column (r_train_df r) FieldsTrain_id) as [ids'|] eqn:Hids;
    [|done].
  exists (r_train_df r), ids', (r_y r), (r_U r), (r_folds r),
    (r_predictions r), (r_sS r), (r_sT r).
  eexists _, (r_train_rows r), _.
  split_and!; [done..|by rewrite Hs', after_trace|apply Hcsv|done|].
  intros j row Hj. specialize (Hcells j row Hj).
  apply Forall2_cons_inv_l in Hcells as (a & ? & (c1 & Hc1 & Ha) & Hcells & ->).
  apply Forall2_cons_inv_l in Hcells as (b & ? & (c2 & Hc2 & Hb) & Hcells & ->).
  apply Forall2_cons_inv_l in Hcells as (v & ? & (c3 & Hc3 & Hv) & Hcells & ->).
  apply Forall2_nil_inv_l in Hcells as ->.
  rewrite Hother in Hc1 by done. rewrite Hother in Hc2 by done.
  change (get_column (r_train_df r) "is_duplicate" = Some c2) in Hc2.
  rewrite Hids in Hc1. rewrite Hy in Hc2. rewrite Hget in Hc3.
  simplify_eq. apply list_lookup_fmap_Some in Hv as (z & -> & Hz).
  by exists a, b, z.
Qed.

(** X15.  Row [j] of the test CSV is the test id of record [j] of the
    test frame followed by a float, the record's score. *)
Theorem test_csv_rows_are_aligned conf s s' :
  main ext conf s = (Some (), s') →
  ∃ test_df ids evs train_csv rows,
    load_test_df ext (conf_dataset conf) = Some test_df
    ∧ get_column test_df FieldsTest_test_id = Some ids
    ∧ trace s' = trace s ++ evs
    ∧ csv_writes evs
      = [train_csv;
         (join_path (conf_dump_dir conf) "test.csv",
          Csv false [FieldsTest_test_id; "svdff"] rows)]
    ∧ length rows = df_nrows test_df
    ∧ ∀ j row, rows !! j = Some row →
        ∃ a x, ids !! j = Some a ∧ row = [a; CFloat x].
Proof.
  intros [r Hr]%main_inv.
  destruct (test_out_header _ _ _ _ _ Hr) as (col0 & _ & _ & Hlen & _).
  destruct (main_run_events _ _ _ _ _ Hr)
    as (vec_evs & feat_evs & svd_evs & train_evs & splits & models & pss
        & Hs' & Hvec & Hfeat & Hsvd & _ & _ & _ & _ & _ & _ & Htevs
        & _ & _ & _ & _ & _ & Hn & _ & Hkeep).
  pose proof (main_csv_writes _ _ _ _ _ _ _ _ _ _ models Hr Hvec Hfeat Hsvd
                Htevs) as Hcsv.
  destruct Hr as (_ & _ & _ & _ & _ & _ & _ & _ & _ & Hdf & _ & _ & _ & _
                  & (col & col' & df & Hcol & Hdiv & Hset & Hsel) & Hrows & _).
  apply set_column_inv in Hset as (Hget & _ & _ & Hother).
  pose proof (select_rows_cells _ _ _ _ Hsel Hrows) as Hcells.
  assert (Hsel' := Hsel). unfold select_columns in Hsel'.
  destruct (mapM _ _) as [cols|] eqn:Hcols; [|done].
  apply mapM_Some_1 in Hcols.
  apply Forall2_cons_inv_l in Hcols as ([n ids] & ? & Hid & _ & _).
  rewrite Hother, Hkeep in Hid by done.
  destruct (get_column (r_test_df r) FieldsTest_test_id) as [ids'|] eqn:Hids;
    [|done].
  exists (r_test_df r), ids'. eexists _, _, (r_test_rows r).
  split_and!; [done..|by rewrite Hs', after_trace|apply Hcsv|
               by rewrite Hlen, Hn|].
  intros j row Hj. specialize (Hcells j row Hj).
  apply Forall2_cons_inv_l in Hcells as (a & ? & (c1 & Hc1 & Ha) & Hcells & ->).
  apply Forall2_cons_inv_l in Hcells as (v & ? & (c2 & Hc2 & Hv) & Hcells & ->).
  apply Forall2_nil_inv_l in Hcells as ->.
  rewrite Hother, Hkeep in Hc1 by done.
  rewrite Hids in Hc1. rewrite Hget in Hc2. simplify_eq.
  unfold series_div in Hdiv. apply mapM_Some_1 in Hdiv.
  destruct (Forall2_lookup_r _ _ _ _ _ Hdiv Hv) as (c & Hc & Hcv).
  destruct (cell_to_float c) as [z|]; [|done]. simpl in Hcv.
  injection Hcv as <-. by eexists a, _.
Qed.

(** X16.  Without folds the test scores are not numbers: the sum of no
    scores is divided by the number of folds, 0, in every row. *)
Theorem no_folds_gives_nan_test_scores conf s s' :
  main ext conf s = (Some (), s') →
  ∃ U y evs train_csv rows,
    trace s' = trace s ++ evs
    ∧ EvSplit U y ∈ evs
    ∧ csv_writes evs
      = [train_csv;
         (join_path (conf_dump_dir conf) "test.csv",
          Csv false [FieldsTest_test_id; "svdff"] rows)]
    ∧ (skf_split ext U y = Some [] →
       Forall (λ row, row_score row = Some NaN) rows).
Proof.
  intros [r Hr]%main_inv.
  destruct (test_out_header _ _ _ _ _ Hr) as (col & Hcol & _ & Hlen & Hrows).
  destruct (main_run_events _ _ _ _ _ Hr)
    as (vec_evs & feat_evs & svd_evs & train_evs & splits & models & pss
        & Hs' & Hvec & Hfeat & Hsvd & _ & _ & _ & _ & _ & Hsp & Htevs
        & Hfolds & _ & Hmodels & Hpss & Hcol' & Hn & HnU & _).
  pose proof (main_csv_writes _ _ _ _ _ _ _ _ _ _ models Hr Hvec Hfeat Hsvd
                Htevs) as Hcsv.
  exists (r_U r), (r_y r). eexists _, _, (r_test_rows r).
  split_and!; [by rewrite Hs', after_trace| |apply Hcsv|].
  - unfold main_events. rewrite !elem_of_app. do 4 right. left.
    apply list_elem_of_here.
  - intros Hnone. rewrite Hsp in Hnone. injection Hnone as ->.
    simpl in Hfolds. apply nil_length_inv in Hfolds. rewrite Hfolds in *.
    apply Forall2_nil_inv_l in Hmodels as ->.
    apply Forall2_nil_inv_l in Hpss as ->. simpl in Hcol'.
    rewrite Hcol in Hcol'. injection Hcol' as ->.
    apply Forall_forall. intros row [j Hj]%list_elem_of_lookup.
    destruct (Hrows j row Hj) as (c & x & Hc & Hx & ->).
    apply list_lookup_fmap_Some in Hc as (a & -> & Ha).
    unfold zero_scores in Ha. apply lookup_replicate in Ha as [-> _].
    simpl in Hx. injection Hx as <-. f_equal. simpl.
    destruct (Req_dec_T 0 0); [|lra]. done.
Qed.

(** ** Running again *)

Ltac step_both H :=
  match type of H with
  | context [match ?o with Some _ => _ | None => _ end] =>
      lazymatch o with
      | context [match _ with _ => _ end] => fail
      | _ => destruct o eqn:?; [|discriminate H]
      end
  end.

Lemma train_fold_replay X (y : list cell) dd layers acts dim method ep bs i
    (split : list nat * list nat) acc acc' s s' t :
  train_fold ext X y dd layers acts dim method ep bs i split acc s
  = (Some acc', s') →
  files t (model_path dd i) = files s' (model_path dd i) →
  ∃ f Xt Xv,
    train_fold ext X y dd layers acts dim method ep bs i split acc t
    = (Some acc', after t [EvPredict f Xt; EvPredict f Xv]).
Proof.
  destruct split as [tr va], acc as [folds preds]. intros H Hfile.
  assert (Hinv := H). destruct acc' as [folds' preds'].
  apply train_fold_inv in Hinv
    as (f & X_train & y_train & X_valid & p_valid & q & s1 & HXt & Hyt & HXv
        & _ & _ & _ & _ & _ & Hload & ->).
  pose proof Hload as (Hf & _)%load_or_train_model_inv.
  exists f, X_train, X_valid.
  assert (Hft : files t (model_path dd i) = Some (FModel f)).
  { rewrite Hfile. done. }
  unfold train_fold in *. prog_unfold. unfold bind, lift in *.
  rewrite HXt, Hyt in *. rewrite Hload in H.
  rewrite load_or_train_model_run, Hft.
  rewrite HXv in *.
  repeat first [step_both H | rewrite predict_proba_run in H |- *].
  injection H as <- <-. unfold ret. f_equal.
  unfold after. simpl. by rewrite <- app_assoc.
Qed.

Lemma train_loop_frame X (y : list cell) dd layers acts dim method ep bs
    (splits : list (list nat * list nat)) i0 acc acc' s s' :
  for_enumerate i0 splits
    (train_fold ext X y dd layers acts dim method ep bs) acc s
  = (Some acc', s') →
  ∀ p : string, (∀ j, i0 ≤ j < i0 + length splits → p ≠ model_path dd j) →
                files s' p = files s p.
Proof.
  intros H p. revert H.
  apply (for_enumerate_ind
           (λ n _ t, (∀ j, i0 ≤ j < i0 + n → p ≠ model_path dd j) →
                     files t p = files s p)); [done|].
  intros j [tr va] [folds preds] t [folds' preds'] t' Hj IH Hstep Hp'.
  apply train_fold_inv in Hstep
    as (f & ? & ? & ? & ? & ? & s1 & _ & _ & _ & _ & _ & _ & _ & _ & Hload
        & ->).
  apply load_or_train_model_inv in Hload as (_ & Hother & _).
  simpl. rewrite Hother by (apply Hp'; lia). apply IH.
  intros j' Hj'. apply Hp'. lia.
Qed.

Lemma predictions_write_nothing (evs : list event) fs :
  Forall (λ e, ∃ f U, e = EvPredict f U) evs → apply_writes evs fs = fs.
Proof.
  intros H. revert fs. induction H as [|e evs (f & U & ->) _ IH]; intros fs.
  - done.
  - simpl. apply IH.
Qed.

Lemma train_loop_replay X (y : list cell) dd layers acts dim method ep bs
    (splits : list (list nat * list nat)) i0 acc acc' s s' t :
  for_enumerate i0 splits
    (train_fold ext X y dd layers acts dim method ep bs) acc s
  = (Some acc', s') →
  (∀ j, i0 ≤ j < i0 + length splits →
        files t (model_path dd j) = files s' (model_path dd j)) →
  ∃ evs,
    for_enumerate i0 splits
      (train_fold ext X y dd layers acts dim method ep bs) acc t
    = (Some acc', after t evs)
    ∧ Forall (λ e, ∃ f U, e = EvPredict f U) evs.
Proof.
  revert i0 acc s t. induction splits as [|x splits IH];
    intros i0 acc s t H Hfiles; simpl in *.
  - apply ret_inv in H as [-> ->]. exists []. by rewrite after_nil.
  - apply bind_inv in H as (b & s1 & Hstep & Hrest).
    assert (Hkeep : files s' (model_path dd i0) = files s1 (model_path dd i0)).
    { eapply train_loop_frame; [done|]. intros j Hj Heq%model_path_inj. lia. }
    destruct (train_fold_replay _ _ _ _ _ _ _ _ _ _ _ _ _ _ _ t Hstep)
      as (f & Xt & Xv & Ht).
    { rewrite <- Hkeep. apply Hfiles. lia. }
    destruct (IH (S i0) b s1 (after t [EvPredict f Xt; EvPredict f Xv]) Hrest)
      as (evs & Hevs & Hall).
    { intros j Hj. simpl. apply Hfiles. lia. }
    exists ([EvPredict f Xt; EvPredict f Xv] ++ evs). split.
    + unfold bind. by rewrite Ht, Hevs, after_app.
    + apply Forall_app. split; [|done]. repeat constructor; by eexists _, _.
Qed.

Lemma train_ff_replay X (y : list cell) o acc s s' t splits :
  train_ff ext X y o s = (Some acc, s') →
  skf_split ext X y = Some splits →
  (∀ j, j < length splits →
        files t (model_path (ff_dump_dir (opt_dump_dir o)) j)
        = files s' (model_path (ff_dump_dir (opt_dump_dir o)) j)) →
  ∃ evs,
    train_ff ext X y o t = (Some acc, after t (EvSplit X y :: evs))
    ∧ Forall (λ e, ∃ f U, e = EvPredict f U) evs.
Proof.
  intros H Hsp Hfiles. unfold train_ff in *. prog_unfold.
  apply bind_inv in H as (layers & ? & [Hl ->]%lift_inv & H).
  apply bind_inv in H as (acts & ? & [Ha ->]%lift_inv & H).
  apply bind_inv in H as (? & ? & Hg & H).
  apply guard_inv in Hg as [Hlen ->].
  apply bind_inv in H as (? & s1 & Hemit & H).
  injection Hemit as <- <-.
  apply bind_inv in H as (splits' & ? & [Hsp' ->]%lift_inv & H).
  rewrite Hsp in Hsp'. injection Hsp' as <-.
  eapply train_loop_replay
    with (t := State (files t) (trace t ++ [EvSplit X y])) in H
    as (evs & Hrun & Hall).
  2: { intros j Hj. simpl. apply Hfiles. lia. }
  exists evs. split; [|done].
  unfold bind at 1, lift at 1. rewrite Hl.
  unfold bind at 1, lift at 1. rewrite Ha.
  unfold bind at 1. rewrite decide_True by done. unfold ret at 1.
  unfold bind at 1, emit at 1.
  unfold bind at 1, lift at 1. rewrite Hsp.
  rewrite Hrun. f_equal. unfold after. simpl.
  by rewrite <- app_assoc.
Qed.

Lemma apply_loop_replay U (folds : list fold_quality) df df' s s' t :
  for_each folds (apply_model ext U) df s = (Some df', s') →
  (∀ q, q ∈ folds → files t (dump q) = files s (dump q)) →
  ∃ models,
    s' = after s (map (λ f, EvPredict f U) models)
    ∧ for_each folds (apply_model ext U) df t
      = (Some df', after t (map (λ f, EvPredict f U) models)).
Proof.
  revert df s t. induction folds as [|q folds IH]; intros df s t H Hfiles;
    simpl in *.
  - apply ret_inv in H as [-> ->]. exists []. simpl. by rewrite !after_nil.
  - apply bind_inv in H as (df1 & s1 & Hstep & Hrest).
    assert (Hinv := Hstep).
    apply apply_model_inv in Hinv as (f & ps & col & col' & Hf & _ & _ & _ & _
                                      & ->).
    assert (Ht : apply_model ext U q df t = (Some df1, after t [EvPredict f U])).
    { unfold apply_model in *. prog_unfold. unfold bind, lift in *.
      rewrite load_model_run in Hstep |- *.
      rewrite (Hfiles q) by apply list_elem_of_here. rewrite Hf in *.
      rewrite predict_proba_run in Hstep |- *.
      repeat step_both Hstep. by injection Hstep as <-. }
    destruct (IH df1 _ (after t [EvPredict f U]) Hrest) as (models & -> & Hrun).
    { intros q' Hq'. simpl. apply Hfiles. by apply list_elem_of_further. }
    exists (f :: models). split; [by rewrite after_app|].
    unfold bind. by rewrite Ht, Hrun, after_app.
Qed.

Lemma to_csv_run df (p : string) rows s :
  frame_rows df = Some rows →
  to_csv df p s
  = (Some (), after s [EvWrite p (FCsv (Csv false (map fst (df_cols df)) rows))]).
Proof.
  intros H. unfold to_csv. prog_unfold. unfold bind, lift. by rewrite H.
Qed.

Lemma main_run_intro conf s s' r :
  main_run ext conf s s' r → main ext conf s = (Some (), s').
Proof.
  intros (Hdf & Hy & HV & HF & HS & HU & HT & (df & Hset & Hsel) & Hrows
          & Htest & HXt & HU' & Hset0 & Hloop
          & (col & col' & df2 & Hcol & Hdiv & Hset2 & Hsel2) & Hrows2 & ->).
  unfold main. prog_unfold.
  unfold bind at 1, makedirs at 1, emit at 1.
  unfold bind at 1, write at 1.
  unfold bind at 1, lift at 1. rewrite Hdf.
  unfold bind at 1, lift at 1. rewrite Hy.
  unfold bind at 1. cbn [files trace].
  rewrite <- app_assoc. cbn [app].
  change (State (fs_insert ?p ?c (files s)) (trace s ++ [?a; EvWrite ?p ?c]))
    with (after s [a; EvWrite p c]).
  rewrite HV. unfold bind at 1. rewrite HF.
  unfold bind at 1. rewrite HS. cbv beta iota zeta.
  destruct (project (r_X r) _ _) as [P|] eqn:HP; [|done]. simpl in HU.
  unfold bind at 1, lift at 1.
  unfold bind at 1, lift at 1. rewrite HU.
  unfold bind at 1. fold (train_options conf). rewrite HT.
  unfold bind at 1, makedirs at 1, emit at 1.
  unfold bind at 1. rewrite plot_loop_run.
  unfold bind at 1, lift at 1. rewrite Hset.
  unfold bind at 1, lift at 1. rewrite Hsel.
  unfold bind at 1. rewrite (to_csv_run _ _ _ _ Hrows).
  unfold bind at 1, lift at 1. rewrite Htest.
  unfold bind at 1, compute_features at 1. prog_unfold.
  unfold bind at 1, emit at 1. unfold lift at 1. rewrite HXt.
  destruct (project (r_X_test r) _ _) as [P'|] eqn:HP'; [|done]. simpl in HU'.
  unfold bind at 1, lift at 1.
  unfold bind at 1, lift at 1. rewrite HU'.
  unfold bind at 1, lift at 1. rewrite Hset0.
  match goal with
  | |- bind _ _ ?st = _ =>
      replace st with
        (after (r_sT r)
           (EvMakedirs (join_path (conf_dump_dir conf) "quality")
            :: concat (map (plot_events (join_path (conf_dump_dir conf)
                                           "quality")) (r_folds r))
            ++ [train_csv_event (conf_dump_dir conf) r;
                EvComputeFeatures (r_test_df r) (r_vectorizer r)]))
  end.
  2: { unfold after, apply_writes, train_csv_event. simpl.
       rewrite foldl_app. simpl. f_equal. by rewrite <- !app_assoc. }
  unfold bind at 1. rewrite Hloop.
  unfold bind at 1, lift at 1. rewrite Hcol.
  unfold bind at 1, lift at 1. rewrite Hdiv.
  unfold bind at 1, lift at 1. rewrite Hset2.
  unfold bind at 1, lift at 1. rewrite Hsel2.
  by rewrite (to_csv_run _ _ _ _ Hrows2).
Qed.

Lemma apply_writes_app (evs1 evs2 : list event) fs :
  apply_writes (evs1 ++ evs2) fs = apply_writes evs2 (apply_writes evs1 fs).
Proof. unfold apply_writes. by rewrite foldl_app. Qed.

Lemma written_paths_app (evs1 evs2 : list event) :
  written_paths (evs1 ++ evs2) = written_paths evs1 ++ written_paths evs2.
Proof. unfold written_paths. by rewrite omap_app. Qed.

(** Where a path is written, the files written from do not matter. *)
Lemma apply_writes_written (evs : list event) fs fs' (p : string) :
  p ∈ written_paths evs → apply_writes evs fs p = apply_writes evs fs' p.
Proof.
  induction evs as [|e evs IH] using rev_ind; [by intros ?%elem_of_nil|].
  rewrite written_paths_app, !apply_writes_app, elem_of_app. intros Hp.
  destruct e; simpl in *;
    try (apply IH; destruct Hp as [|?%elem_of_nil]; done).
  destruct (decide (p = path)) as [->|Hne].
  - by rewrite !fs_insert_eq.
  - rewrite !fs_insert_ne by done. apply IH.
    destruct Hp as [|Hp]; [done|]. by apply list_elem_of_singleton in Hp.
Qed.

Lemma frame_by_last_char (evs : list event) fs (p : string) (c : ascii) :
  last_char p = Some c →
  Forall (λ q, ∃ c', last_char q = Some c' ∧ c' ≠ c) (written_paths evs) →
  apply_writes evs fs p = fs p.
Proof.
  intros Hp Hall. apply apply_writes_frame. by eapply last_char_not_elem.
Qed.

Lemma map_predict_writes_nothing U (models : list Model) fs :
  apply_writes (map (λ f, EvPredict f U) models) fs = fs.
Proof.
  apply predictions_write_nothing, Forall_fmap, Forall_forall.
  intros f _. by eexists _, _.
Qed.

Lemma model_path_not_vectorizer (d : string) (j : nat) :
  model_path (ff_dump_dir (Some d)) j ≠ join_path d "vectorizer.pkl".
Proof.
  unfold ff_dump_dir. case_bool_decide as Hd.
  - subst d. done.
  - unfold model_path. by intros ?%join_path_inj.
Qed.

(** The paths written after the fold loop are those of figures and CSV
    files. *)
Lemma post_events_last_chars conf r (models : list Model) :
  Forall (λ q, last_char q = Some "g"%char ∨ last_char q = Some "v"%char)
    (written_paths (post_events conf r models)).
Proof.
  change written_paths with (λ evs, sum_paths (summarize evs)). cbv beta.
  unfold post_events. rewrite !summarize_app.
  rewrite plot_events_summary, predict_events_summary. simpl.
  apply Forall_app. split.
  - apply Forall_concat, Forall_fmap, Forall_forall. intros q' _.
    unfold plot_paths. simpl.
    repeat (apply Forall_cons; split;
            [left; by rewrite last_char_join_path|]).
    apply Forall_nil. done.
  - repeat (apply Forall_cons; split;
            [right; by rewrite last_char_join_path|]).
    apply Forall_nil. done.
Qed.

(** The files a successful run leaves behind, artifact by artifact. *)
Lemma main_run_leaves conf s s' r :
  main_run ext conf s s' r →
  let d := conf_dump_dir conf in
  let dd := ff_dump_dir (Some d) in
  ∃ splits models,
    skf_split ext (r_U r) (r_y r) = Some splits
    ∧ length (r_folds r) = length splits
    ∧ (∀ j q, r_folds r !! j = Some q → fold q = j ∧ dump q = model_path dd j)
    ∧ s' = after (r_sT r) (post_events conf r models)
    ∧ files s' (join_path d "application.conf") = Some FConfig
    ∧ files s' (join_path d "vectorizer.pkl")
      = Some (FVectorizer (r_vectorizer r))
    ∧ files s' (join_path d "features_train.npz") = Some (FMatrix (r_X r))
    ∧ svd_on_disk (files s') d (r_Sv r) (r_VT r)
    ∧ ∀ j, files s' (model_path dd j) = files (r_sT r) (model_path dd j).
Proof.
  intros Hr d dd.
  destruct (main_run_events _ _ _ _ _ Hr)
    as (vec_evs & feat_evs & svd_evs & train_evs & splits & models & pss
        & Hs' & Hvec & Hfeat & Hsvd & HfX & HsS & (Hsv & arrays & Hvt & HVT)
        & HsT & Hpost & Hsp & Htevs & Hfolds & Hnum & Hmodels & _).
  destruct Hr as (_ & _ & HV & HF & _).
  apply load_or_train_vectorizer_inv in HV as (evsV & HsV & HfV & HevsV).
  apply load_or_compute_features_inv in HF as (evsF & HsF & _ & HevsF).
  fold d in HsV, HfV, HsF, HevsF, HevsV, HfX, Hsv, Hvt.
  assert (Hpostc : ∀ (p : string) c fs,
    last_char p = Some c → c ≠ "g"%char → c ≠ "v"%char →
    apply_writes (post_events conf r models) fs p = fs p).
  { intros p c fs Hp Hg Hv. eapply frame_by_last_char; [done|].
    eapply Forall_impl; [apply post_events_last_chars|].
    intros q [Hq|Hq]; eexists; (split; [done|]); congruence. }
  assert (Htrainf : ∀ (p : string) fs,
    (∀ j, p ≠ model_path dd j) → apply_writes train_evs fs p = fs p).
  { intros p fs Hp. apply apply_writes_frame.
    destruct (train_events_summary _ _ _ Htevs) as (_ & _ & _ & Hpaths).
    intros Hin. apply (proj1 (Forall_forall _ _) Hpaths) in Hin as (j & _ & ->).
    by apply (Hp j). }
  assert (Hsvdf : ∀ (p : string) c fs,
    last_char p = Some c → c ≠ "t"%char → c ≠ "z"%char → c ≠ "g"%char →
    apply_writes svd_evs fs p = fs p).
  { intros p c fs Hp Ht Hz Hg. eapply frame_by_last_char; [done|].
    destruct Hsvd as [->|(fig & _ & ->)]; [done|]. simpl.
    repeat (apply Forall_cons; split;
            [eexists; split; [by rewrite last_char_join_path|done]|]).
    apply Forall_nil. done. }
  assert (Hfeatf : ∀ (p : string) c fs,
    last_char p = Some c → c ≠ "z"%char → apply_writes evsF fs p = fs p).
  { intros p c fs Hp Hz. eapply frame_by_last_char; [done|].
    destruct HevsF as [->| ->]; [done|]. simpl.
    apply Forall_cons; split; [|by apply Forall_nil].
    eexists; split; [by rewrite last_char_join_path|done]. }
  exists splits, models. split_and!; try done.
  - rewrite Hpost. cbn [files after].
    rewrite (Hpostc _ "f"%char) by (by rewrite ?last_char_join_path).
    rewrite HsT. cbn [files after]. rewrite apply_writes_app, Htrainf.
    2: { intros j Heq. apply (f_equal last_char) in Heq.
         by rewrite last_char_model_path, last_char_join_path in Heq. }
    change (apply_writes [EvSplit (r_U r) (r_y r)] (files (r_sS r)))
      with (files (r_sS r)).
    rewrite HsS. cbn [files after].
    rewrite (Hsvdf _ "f"%char) by (by rewrite ?last_char_join_path).
    rewrite HsF. cbn [files after].
    rewrite (Hfeatf _ "f"%char) by (by rewrite ?last_char_join_path).
    rewrite HsV. cbn [files after].
    rewrite (frame_by_last_char evsV _ _ "f"%char);
      [|by rewrite last_char_join_path|].
    + simpl. apply fs_insert_eq.
    + destruct HevsV as [->| ->]; [done|]. simpl.
      apply Forall_cons; split; [|by apply Forall_nil].
      eexists; split; [by rewrite last_char_join_path|done].
  - rewrite Hpost. cbn [files after].
    rewrite (Hpostc _ "l"%char) by (by rewrite ?last_char_join_path).
    rewrite HsT. cbn [files after]. rewrite apply_writes_app, Htrainf.
    2: { intros j Heq. by apply (model_path_not_vectorizer d j). }
    change (apply_writes [EvSplit (r_U r) (r_y r)] (files (r_sS r)))
      with (files (r_sS r)).
    rewrite HsS. cbn [files after].
    rewrite (Hsvdf _ "l"%char) by (by rewrite ?last_char_join_path).
    rewrite HsF. cbn [files after].
    by rewrite (Hfeatf _ "l"%char) by (by rewrite ?last_char_join_path).
  - rewrite (files_after_svd _ _ _ _ _ _ _ "z"%char HsT Hpost Htevs);
      [|by rewrite last_char_join_path|by left].
    rewrite HsS. cbn [files after]. rewrite apply_writes_frame; [done|].
    destruct Hsvd as [->|(fig & _ & ->)]; [by apply not_elem_of_nil|].
    simpl. rewrite !not_elem_of_cons. fold d.
    split_and!; try (by intros ?%join_path_inj). by apply not_elem_of_nil.
  - split.
    + rewrite (files_after_svd _ _ _ _ _ _ _ "t"%char HsT Hpost Htevs);
        [done|by rewrite last_char_join_path|by right].
    + exists arrays. split; [|done].
      rewrite (files_after_svd _ _ _ _ _ _ _ "z"%char HsT Hpost Htevs);
        [done|by rewrite last_char_join_path|by left].
  - intros j. rewrite Hpost. cbn [files after].
    by rewrite (Hpostc _ "l"%char) by (by rewrite ?last_char_model_path).
Qed.

(** X17.  Running [main] again on what a successful run left behind
    succeeds and recomputes nothing that is cached, provided the rank
    [k] is not 1 and the file of singular values holds [k] of them: no
    vectorizer is trained, no decomposition is computed, no model is
    fitted, only the test features are computed, and every file ends as
    the first run left it. *)
Theorem second_run_recomputes_nothing conf s s1 k :
  main ext conf s = (Some (), s1) →
  svd_k (conf_svd conf) = Some k → k ≠ 1 →
  (∀ Sv, files s1 (join_path (conf_dump_dir conf) "singular_values.txt")
         = Some (FText Sv) → length Sv = k) →
  ∃ s2 evs,
    main ext conf s1 = (Some (), s2)
    ∧ (∀ p : string, files s2 p = files s1 p)
    ∧ trace s2 = trace s1 ++ evs
    ∧ Forall (λ e, match e with
                   | EvTrainVectorizer _ _ | EvComputeSvd _ _
                   | EvFit _ _ _ _ _ => False
                   | EvComputeFeatures df _ =>
                       load_test_df ext (conf_dataset conf) = Some df
                   | _ => True
                   end) evs.
Proof.
  intros [r Hr]%main_inv Hk Hk1 Hrank.
  destruct (main_run_leaves _ _ _ _ Hr)
    as (splits & models & Hsp & Hfolds & Hnum & Hpost & Hconf & Hvec & Hfeat
        & (Hsv & arrays & Hvt & HVT) & Hmod).
  set (d := conf_dump_dir conf) in *.
  set (dd := ff_dump_dir (Some d)) in *.
  set (qd := join_path d "quality").
  set (a0 := after s1 [EvMakedirs d;
                       EvWrite (join_path d "application.conf") FConfig]).
  assert (Ha0 : ∀ p : string, files a0 p = files s1 p).
  { intros p. simpl.
    destruct (decide (p = join_path d "application.conf")) as [->|Hne].
    - by rewrite fs_insert_eq, Hconf.
    - by rewrite fs_insert_ne. }
  destruct Hr as (Hdf & Hy & HV & HF & HS & HU & HT & Htr & Hrows & Htest
                  & HXt & HU' & Hset0 & Hloop & Hte & Hrows2 & Hs1).
  fold d qd in Hloop.
  destruct (train_ff_replay _ _ _ _ _ _ a0 splits HT Hsp)
    as (evsT & HT2 & HevsT).
  { intros j _. rewrite Ha0. apply Hmod. }
  set (aT := after a0 (EvSplit (r_U r) (r_y r) :: evsT)) in *.
  set (prefix := EvMakedirs qd
                 :: concat (map (plot_events qd) (r_folds r))
                 ++ [train_csv_event d r;
                     EvComputeFeatures (r_test_df r) (r_vectorizer r)]) in *.
  assert (Hprefix : ∀ fs j,
    apply_writes prefix fs (model_path dd j) = fs (model_path dd j)).
  { intros fs j.
    apply (frame_by_last_char _ _ _ "l"%char); [apply last_char_model_path|].
    pose proof (post_events_last_chars conf r []) as Hp.
    unfold post_events in Hp. fold d qd in Hp.
    rewrite !written_paths_app in Hp.
    apply Forall_app in Hp as [H1 Hp]. apply Forall_app in Hp as [H2 Hp].
    apply Forall_app in Hp as [H3 _].
    subst prefix.
    change (EvMakedirs qd :: ?l) with ([EvMakedirs qd] ++ l).
    rewrite !written_paths_app. rewrite !Forall_app. split_and!;
      (eapply Forall_impl; [eassumption|]);
      intros q [Hq|Hq]; eexists; (split; [done|]); congruence. }
  destruct (apply_loop_replay _ _ _ _ _ _ (after aT prefix) Hloop)
    as (models' & HsP & Hloop2).
  { intros q [j Hq]%list_elem_of_lookup. destruct (Hnum j q Hq) as [_ ->].
    cbn [files after]. rewrite !Hprefix. subst aT. cbn [files after].
    change (apply_writes (EvSplit ?U ?y :: evsT) ?fs)
      with (apply_writes evsT fs).
    rewrite predictions_write_nothing by done.
    by rewrite Ha0, Hmod. }
  set (aP := after (after aT prefix)
               (map (λ f, EvPredict f (r_U_test r)) models')) in *.
  set (r2 := Run (r_train_df r) (r_y r) (r_vectorizer r) a0 (r_X r) a0
               (r_Sv r) (r_VT r) a0 (r_U r) (r_folds r) (r_predictions r) aT
               (r_train_out r) (r_train_rows r) (r_test_df r) (r_X_test r)
               (r_U_test r) (r_test_df0 r) (r_test_df1 r) aP (r_test_out r)
               (r_test_rows r)).
  exists (after aP [test_csv_event d r]),
    ([EvMakedirs d; EvWrite (join_path d "application.conf") FConfig]
     ++ (EvSplit (r_U r) (r_y r) :: evsT) ++ prefix
     ++ map (λ f, EvPredict f (r_U_test r)) models'
     ++ [test_csv_event d r]).
  split_and!.
  - apply main_run_intro with (r := r2). unfold main_run.
    cbn [r_train_df r_y r_vectorizer r_sV r_X r_sF r_Sv r_VT r_sS r_U r_folds
         r_predictions r_sT r_train_out r_train_rows r_test_df r_X_test
         r_U_test r_test_df0 r_test_df1 r_sP r_test_out r_test_rows r2].
    fold d. split_and!; try done.
    + fold a0. by rewrite load_or_train_vectorizer_run, Ha0, Hvec.
    + by rewrite load_or_compute_features_run, Ha0, Hfeat.
    + apply load_or_compute_svd_hit with (k := k); [done|].
      unfold cached_svd. fold d. rewrite !Ha0, Hsv, Hvt, HVT. simpl.
      unfold loadtxt_len. rewrite (Hrank _ Hsv).
      rewrite decide_False by done. simpl. by rewrite decide_True.
  - intros p.
    set (w := prefix ++ [test_csv_event d r]).
    assert (H2 : ∀ q : string,
      files (after aP [test_csv_event d r]) q = apply_writes w (files a0) q).
    { intros q. subst aP aT w. cbn [files after].
      rewrite map_predict_writes_nothing, apply_writes_app.
      change (apply_writes (EvSplit ?U ?y :: evsT) ?fs)
        with (apply_writes evsT fs).
      by rewrite (predictions_write_nothing evsT _ HevsT). }
    assert (H1 : ∀ q : string,
      files s1 q = apply_writes w (files (r_sT r)) q).
    { intros q. rewrite Hpost. subst w prefix. cbn [files after].
      unfold post_events. fold d qd.
      change (EvMakedirs qd :: ?l) with ([EvMakedirs qd] ++ l).
      rewrite !apply_writes_app. by rewrite map_predict_writes_nothing. }
    rewrite H2. destruct (decide (p ∈ written_paths w)) as [Hin|Hout].
    + rewrite H1. by apply apply_writes_written.
    + rewrite apply_writes_frame by done. apply Ha0.
  - subst aP aT a0. rewrite !after_app. apply after_trace.
  - repeat apply Forall_app_2; try (by repeat constructor).
    + constructor; [done|]. eapply Forall_impl; [done|].
      by intros e (f & U & ->).
    + subst prefix. constructor; [done|]. apply Forall_app_2.
      * apply Forall_concat, Forall_fmap, Forall_forall. intros q _.
        by repeat constructor.
      * by repeat constructor.
    + apply Forall_fmap, Forall_forall. by intros f _.
Qed.

(** ** The quality record *)

Lemma train_fold_quality X (y : list cell) dd layers acts dim method ep bs i
    tr va folds preds folds' preds' s s' :
  train_fold ext X y dd layers acts dim method ep bs i (tr, va)
    (folds, preds) s = (Some (folds', preds'), s') →
  ∃ f q,
    folds' = folds ++ [q]
    ∧ files s' (model_path dd i) = Some (FModel f)
    ∧ (∀ p : string, p ≠ model_path dd i → files s' p = files s p)
    ∧ metrics_of ext f X y tr (ll_train q) (auc_train q) (roc_train q)
        (reliability_train q)
    ∧ metrics_of ext f X y va (ll_valid q) (auc_valid q) (roc_valid q)
        (reliability_valid q).
Proof.
  intros H. assert (Hinv := H).
  apply train_fold_inv in Hinv
    as (f & X_train & y_train & X_valid & p_valid & q & s1 & HXt & Hyt & HXv
        & _ & _ & _ & _ & _ & Hload & ->).
  pose proof Hload as (Hf & Hother & _)%load_or_train_model_inv.
  unfold train_fold in H. prog_unfold. unfold bind, lift in H.
  rewrite HXt, Hyt, Hload, HXv in H.
  repeat first [step_both H | rewrite predict_proba_run in H].
  injection H as <- _. eexists f, _. split; [done|]. split; [done|].
  split; [done|]. simpl. split.
  - by eexists _, _, _.
  - by eexists _, _, _.
Qed.

(** X21.  Entry [j] of the quality record holds the log-loss, the AUC,
    the ROC curve and the reliability curve (50 bins) of the model
    checkpointed for fold [j], once on the training rows of fold [j] and
    once on its validation rows. *)
Theorem train_ff_quality_of_fold X (y : list cell) o folds preds s s' splits
    j q tr va :
  train_ff ext X y o s = (Some (folds, preds), s') →
  skf_split ext X y = Some splits →
  folds !! j = Some q → splits !! j = Some (tr, va) →
  ∃ f,
    files s' (model_path (ff_dump_dir (opt_dump_dir o)) j) = Some (FModel f)
    ∧ metrics_of ext f X y tr (ll_train q) (auc_train q) (roc_train q)
        (reliability_train q)
    ∧ metrics_of ext f X y va (ll_valid q) (auc_valid q) (roc_valid q)
        (reliability_valid q).
Proof.
  intros H Hsp. unfold train_ff in H. prog_unfold.
  apply bind_inv in H as (layers & ? & [Hl ->]%lift_inv & H).
  apply bind_inv in H as (acts & ? & [Ha ->]%lift_inv & H).
  apply bind_inv in H as (? & ? & Hg & H).
  apply guard_inv in Hg as [Hlen ->].
  apply bind_inv in H as (? & s1 & Hemit & H).
  injection Hemit as <- <-.
  apply bind_inv in H as (splits' & ? & [Hsp' ->]%lift_inv & H).
  rewrite Hsp in Hsp'. injection Hsp' as <-.
  set (dd := ff_dump_dir (opt_dump_dir o)) in *.
  revert j q tr va.
  change (∀ j q tr va, (folds, preds).1 !! j = Some q →
            splits !! j = Some (tr, va) →
            ∃ f, files s' (model_path dd j) = Some (FModel f)
                 ∧ metrics_of ext f X y tr (ll_train q) (auc_train q)
                     (roc_train q) (reliability_train q)
                 ∧ metrics_of ext f X y va (ll_valid q) (auc_valid q)
                     (roc_valid q) (reliability_valid q)).
  assert (Hinv : length (folds, preds).1 = length splits
    ∧ ∀ j q tr va, (folds, preds).1 !! j = Some q →
        splits !! j = Some (tr, va) →
        ∃ f, files s' (model_path dd j) = Some (FModel f)
             ∧ metrics_of ext f X y tr (ll_train q) (auc_train q)
                 (roc_train q) (reliability_train q)
             ∧ metrics_of ext f X y va (ll_valid q) (auc_valid q)
                 (roc_valid q) (reliability_valid q)); [|by destruct Hinv].
  revert H.
  apply (for_enumerate_ind
           (λ n (acc : list fold_quality * list xreal) t,
              length acc.1 = n
              ∧ ∀ j q tr va, acc.1 !! j = Some q →
                  splits !! j = Some (tr, va) →
                  ∃ f, files t (model_path dd j) = Some (FModel f)
                       ∧ metrics_of ext f X y tr (ll_train q) (auc_train q)
                           (roc_train q) (reliability_train q)
                       ∧ metrics_of ext f X y va (ll_valid q) (auc_valid q)
                           (roc_valid q) (reliability_valid q))).
  - split; [done|]. by intros j q tr va.
  - intros n [tr0 va0] [folds0 preds0] t [folds1 preds1] t' Hn [Hlen0 IH] Hstep.
    simpl in *.
    apply train_fold_quality in Hstep
      as (f & q0 & -> & Hf & Hother & Htrain & Hvalid).
    split; [rewrite length_app; simpl; lia|].
    intros j q tr va Hq Hj.
    apply lookup_app_Some in Hq as [Hq|[Hge Hq]].
    + destruct (IH j q tr va Hq Hj) as (f' & Hf' & ?).
      exists f'. split; [|done]. rewrite Hother; [done|].
      intros Heq%model_path_inj. apply lookup_lt_Some in Hq. lia.
    + apply list_lookup_singleton_Some in Hq as [Hz <-].
      assert (j = n) as -> by lia. rewrite Hn in Hj. injection Hj as <- <-.
      by exists f.
Qed.

(** ** Configurations that cannot run *)

Lemma bind_fails {St A B} (m : prog St A) (k : A → prog St B) (s0 : St) :
  (∀ a (u : St), (k a u).1 = None) → (bind m k s0).1 = None.
Proof.
  intros Hk. unfold bind. destruct (m s0) as [[a|] u]; [apply Hk|done].
Qed.

Lemma bind_fails_l {St A B} (m : prog St A) (k : A → prog St B) (s0 : St) :
  (m s0).1 = None → (bind m k s0).1 = None.
Proof. unfold bind. by destruct (m s0) as [[a|] u]. Qed.

(** X22.  [main] cannot succeed on a configuration without the rank [k],
    nor on one whose layers and activations are missing or differ in
    number: it raises, whatever the dump directory holds. *)
Theorem main_rejects_incomplete_configuration conf s :
  svd_k (conf_svd conf) = None
  ∨ (∀ layers acts,
        ff_layers (conf_ff conf) = Some layers →
        ff_activations (conf_ff conf) = Some acts →
        length layers ≠ length acts) →
  (main ext conf s).1 = None.
Proof.
  intros Hbad. unfold main. prog_unfold.
  do 6 (apply bind_fails; intros ? ?).
  destruct Hbad as [Hk|Hff].
  - apply bind_fails_l. unfold load_or_compute_svd. prog_unfold.
    apply bind_fails_l. unfold lift. by rewrite Hk.
  - apply bind_fails. intros [Sv VT] ?. do 2 (apply bind_fails; intros ? ?).
    apply bind_fails_l. unfold train_ff. prog_unfold. simpl.
    unfold bind at 1, lift at 1.
    destruct (ff_layers (conf_ff conf)) as [layers|]; [|done].
    unfold bind at 1, lift at 1.
    destruct (ff_activations (conf_ff conf)) as [acts|]; [|done].
    unfold bind at 1.
    destruct (decide (length layers = length acts)) as [Heq|]; [|done].
    by destruct (Hff layers acts).
Qed.
End MoreFacts.

(** ** Shapes *)

Lemma mat_zip_length (g : xreal → xreal → xreal) (A B : matrix) :
  length A = length B → length (mat_zip g A B) = length A.
Proof. intros H. unfold mat_zip. rewrite length_zip_with. lia. Qed.

Lemma mat_zip_widths (g : xreal → xreal → xreal) (A B : matrix) (m : nat) :
  Forall (λ r, length r = m) A → Forall (λ r, length r = m) B →
  Forall (λ r, length r = m) (mat_zip g A B).
Proof.
  intros HA. revert B. induction HA as [|a A Ha HA IH]; intros B HB; [done|].
  destruct HB as [|b B Hb HB]; [done|]. simpl. constructor; [|by apply IH].
  rewrite length_zip_with. lia.
Qed.

Lemma hstack_widths (A B : matrix) (m n : nat) :
  Forall (λ r, length r = m) A → Forall (λ r, length r = n) B →
  Forall (λ r, length r = m + n) (zip_with app A B).
Proof.
  intros HA. revert B. induction HA as [|a A Ha HA IH]; intros B HB; [done|].
  destruct HB as [|b B Hb HB]; [done|]. simpl. constructor; [|by apply IH].
  rewrite length_app. lia.
Qed.

(** X18.  The symmetrization raises exactly on a matrix with an odd
    number of rows.  On an even number of rows of one width it yields
    half as many rows, each twice as wide. *)
Theorem symmetrize_shape (U : matrix) (m : nat) :
  (symmetrize U = None ↔ Nat.even (length U) = false)
  ∧ ∀ V, symmetrize U = Some V →
         Forall (λ r, length r = m) U →
         length U = 2 * length V ∧ Forall (λ r, length r = 2 * m) V.
Proof.
  unfold symmetrize, vsplit. cbv zeta.
  destruct (Nat.even (length U)) eqn:Hev.
  - apply Nat.even_spec in Hev as [n Hn].
    assert (Hdiv : length U / 2 = n).
    { rewrite Hn, Nat.mul_comm. by apply Nat.div_mul. }
    rewrite Hdiv. cbn [mbind option_bind].
    assert (Htake : length (take n U) = n) by (rewrite length_take; lia).
    assert (Hdrop : length (drop n U) = n) by (rewrite length_drop; lia).
    unfold hstack, mat_div_scalar, mat_map, mat_add, mat_sub.
    rewrite !length_map, !mat_zip_length by lia.
    rewrite decide_True by done. split; [done|].
    intros V [= <-] Hw. split.
    + rewrite length_zip_with, !length_map, !mat_zip_length by lia. lia.
    + replace (2 * m) with (m + m) by lia.
      apply hstack_widths; apply Forall_fmap; simpl;
        (eapply Forall_impl;
         [apply mat_zip_widths;
          [by apply Forall_take|by apply Forall_drop]|]);
        intros r Hr; simpl; by rewrite length_map.
  - cbn [mbind option_bind]. split; [done|]. by intros V.
Qed.

(** ** The scaling *)

Lemma diag_lookup (v : list xreal) (i j : nat) (a : xreal) :
  v !! i = Some a → j < length v →
  diag v !! i ≫= (.!! j) = Some (if decide (i = j) then a else xzero).
Proof.
  intros Hi Hj. unfold diag. rewrite list_lookup_imap, Hi. simpl.
  pose proof (lookup_lt_Some _ _ _ Hi) as Hlt.
  destruct (decide (i = j)) as [<-|Hne].
  - by rewrite list_lookup_middle by (by rewrite length_replicate).
  - destruct (decide (j < i)).
    + rewrite lookup_app_l by (by rewrite length_replicate).
      by apply lookup_replicate_2.
    + rewrite lookup_app_r by (rewrite length_replicate; lia).
      rewrite length_replicate.
      destruct (j - i) as [|n0] eqn:E; [lia|]. simpl.
      apply lookup_replicate_2. lia.
Qed.

Lemma make_Sinv_lookup (Sv : list xreal) (X : matrix) (i j : nat) (x : xreal) :
  Sv !! i = Some x → j < length Sv →
  make_Sinv Sv X !! i ≫= (.!! j)
  = Some (if decide (i = j)
          then xmul (xdiv (Finite 1) x) (xsqrt_nat (nrows X))
          else xzero).
Proof.
  intros Hi Hj. unfold make_Sinv, mat_mul_scalar, mat_map.
  assert (Hd := diag_lookup (map (xdiv (Finite 1)) Sv) i j
                  (xdiv (Finite 1) x)).
  rewrite list_lookup_fmap, Hi, length_map in Hd.
  specialize (Hd eq_refl Hj).
  rewrite list_lookup_fmap.
  destruct (diag (map (xdiv (Finite 1)) Sv) !! i) as [row|]; [|done].
  simpl in *. rewrite list_lookup_fmap, Hd. simpl.
  destruct (decide (i = j)); [done|].
  unfold xzero, xsqrt_nat. simpl. do 2 f_equal. lra.
Qed.

(** X19.  The scaling matrix is square and diagonal: as many rows as
    there are singular values, entry [(i, i)] the reciprocal of the
    [i]-th singular value times the square root of the number of rows
    of the feature matrix, and 0 off the diagonal. *)
Theorem make_Sinv_diagonal (Sv : list xreal) (X : matrix) (i j : nat)
    (x : xreal) :
  Sv !! i = Some x → j < length Sv →
  nrows (make_Sinv Sv X) = length Sv
  ∧ make_Sinv Sv X !! i ≫= (.!! j)
    = Some (if decide (i = j)
            then xmul (xdiv (Finite 1) x) (xsqrt_nat (nrows X))
            else xzero).
Proof.
  intros Hi Hj. split; [|by apply make_Sinv_lookup].
  unfold make_Sinv, mat_mul_scalar, mat_map, diag, nrows.
  by rewrite length_map, length_imap, length_map.
Qed.


Lemma transpose_cols_length (n : nat) (M : matrix) :
  length (transpose_cols n M) = n.
Proof. induction n as [|n IH]; simpl; [done|]. rewrite length_app, IH. simpl. lia. Qed.

Lemma dot_shape (A B C : matrix) :
  dot A B = Some C →
  length C = length A ∧ Forall (λ r, length r = ncols B) C.
Proof.
  unfold dot. case_decide; [|done]. intros [= <-]. split.
  - by rewrite length_map.
  - apply Forall_fmap, Forall_forall. intros r _. unfold compose.
    rewrite length_map. unfold transpose. apply transpose_cols_length.
Qed.

Lemma make_Sinv_ncols (Sv : list xreal) (X : matrix) :
  ncols (make_Sinv Sv X) = length Sv.
Proof.
  unfold make_Sinv, mat_mul_scalar, mat_map, diag.
  destruct Sv as [|a Sv]; [done|]. simpl.
  rewrite length_map. simpl. rewrite length_replicate, length_map. lia.
Qed.

(** X23.  The projection keeps the rows and reduces the columns to the
    rank: for singular vectors of positive width, [X.dot(VT.T.dot(Sinv))]
    has one row per row of [X], each with as many entries as there are
    singular values. *)
Theorem project_shape (X VT : matrix) (Sv : list xreal) (X0 U : matrix) :
  project X VT (make_Sinv Sv X0) = Some U →
  0 < ncols VT →
  length U = length X ∧ Forall (λ r, length r = length Sv) U.
Proof.
  unfold project. intros H Hpos.
  destruct (dot (transpose VT) _) as [P|] eqn:HP; [|done]. simpl in H.
  apply dot_shape in HP as [HlenP HwP].
  apply dot_shape in H as [HlenU HwU]. split; [done|].
  eapply Forall_impl; [done|]. intros r ->.
  unfold transpose in HlenP. rewrite transpose_cols_length in HlenP.
  destruct P as [|p P]; [simpl in HlenP; lia|].
  apply Forall_cons in HwP as [Hp _]. cbn [ncols]. rewrite Hp.
  apply make_Sinv_ncols.
Qed.

(** * The script at work *)

(** Runs are evaluated with the arithmetic of the reals left alone. *)
Ltac eval_run :=
  lazy -[Rplus Rmult Rdiv Rinv Rminus Ropp sqrt ln INR IZR Req_dec_T Rlt_dec
         R0 R1 logit xadd xsub xmul xdiv xneg xlog].

Lemma demo_run_ok : main demo_ext (demo_conf 1) s_empty = (Some (), demo_final).
Proof.
  unfold demo_final.
  rewrite (surjective_pairing (main demo_ext (demo_conf 1) s_empty)) at 1.
  f_equal; eval_run; reflexivity.
Qed.

Lemma cached_run_ok :
  main demo_ext (demo_conf 2) s_cached = (Some (), cached_final).
Proof.
  unfold cached_final.
  rewrite (surjective_pairing (main demo_ext (demo_conf 2) s_cached)) at 1.
  f_equal; eval_run; reflexivity.
Qed.

Lemma demo_train_ok :
  train_ff demo_ext demo_X demo_y demo_options s_empty
  = (Some (demo_train_result.1, demo_train_result.2), demo_train_final).
Proof.
  unfold demo_train_final, demo_train_result.
  rewrite (surjective_pairing
             (train_ff demo_ext demo_X demo_y demo_options s_empty)) at 1.
  f_equal; eval_run; reflexivity.
Qed.

Lemma demo_splits_partition : partitions demo_splits (length demo_y).
Proof.
  intros i Hi. simpl in Hi. exists i. split.
  - destruct i as [|[|i]]; [| |lia].
    + exists [1], [0]. split; [done|]. apply list_elem_of_here.
    + exists [0], [1]. split; [done|]. apply list_elem_of_here.
  - intros j (tr & va & Hj & Hin).
    destruct j as [|[|j]]; simpl in Hj; simplify_eq;
      by apply list_elem_of_singleton in Hin.
Qed.

Lemma demo_outputs_open (rows : matrix) :
  fold_outputs_open demo_ext (files demo_final) "d" 2 rows.
Proof.
  intros j f u pr Hj Hf _ Hpr. injection Hpr as <-.
  assert (f = Finite (1 / 2)) as ->.
  { destruct j as [|[|j]]; [| |lia]; unfold demo_final in Hf;
      revert Hf; eval_run; by intros [= <-]. }
  exists (1 / 2)%R. split; [done|lra].
Qed.

Lemma demo_compute_svd_rank : compute_svd_rank demo_ext.
Proof.
  intros X [[k|] kw] Sv VT; simpl; [|done].
  intros [= <- <-]. by rewrite length_replicate.
Qed.

Lemma demo_svd_ok :
  load_or_compute_svd demo_ext (conf_svd (demo_conf 1)) demo_X "d" s_empty
  = (Some ([Finite 1], [[Finite 1; Finite 0]]),
     (load_or_compute_svd demo_ext (conf_svd (demo_conf 1)) demo_X "d"
        s_empty).2).
Proof.
  rewrite (surjective_pairing
             (load_or_compute_svd demo_ext (conf_svd (demo_conf 1)) demo_X "d"
                s_empty)) at 1.
  f_equal; eval_run; reflexivity.
Qed.


Lemma cached_train_csv :
  files cached_final "d/train.csv"
  = Some (FCsv (Csv false ["id"; "is_duplicate"; "svdff"]
                  [[CInt 0; CInt 0; CFloat PInf];
                   [CInt 1; CInt 1; CFloat PInf]])).
Proof. unfold cached_final. eval_run. by rewrite logit_one. Qed.

(** C1 at work: the run in the empty dump directory. *)
Lemma test_scores_are_fold_means_witness :
  main demo_ext (demo_conf 1) s_empty = (Some (), demo_final)
  ∧ ltac:(let T := type of (test_scores_are_fold_means demo_ext (demo_conf 1)
                              s_empty demo_final demo_run_ok) in exact T).
Proof.
  split; [apply demo_run_ok|].
  apply (test_scores_are_fold_means demo_ext (demo_conf 1) s_empty demo_final
           demo_run_ok).
Defined.

(** C2 at work: two records, two folds that partition them. *)
Lemma train_ff_held_out_predictions_witness :
  train_ff demo_ext demo_X demo_y demo_options s_empty
  = (Some (demo_train_result.1, demo_train_result.2), demo_train_final)
  ∧ skf_split demo_ext demo_X demo_y = Some demo_splits
  ∧ partitions demo_splits (length demo_y)
  ∧ ltac:(let T := type of (train_ff_held_out_predictions demo_ext demo_X
                              demo_y demo_options _ _ s_empty demo_train_final
                              demo_train_ok) in exact T).
Proof.
  split; [apply demo_train_ok|]. split; [done|].
  split; [apply demo_splits_partition|].
  apply (train_ff_held_out_predictions demo_ext demo_X demo_y demo_options _ _
           s_empty demo_train_final demo_train_ok).
Defined.

(** C3 on the code, at work: two hidden layers. *)
Lemma build_network_layers_witness :
  length [4; 2] = length ["relu"; "tanh"]
  ∧ 0 < length [4; 2]
  ∧ ltac:(let T := type of (build_network_layers [4; 2] ["relu"; "tanh"] 3
                              "adam" eq_refl (Nat.lt_0_succ 1)) in exact T).
Proof.
  split; [reflexivity|]. split; [apply Nat.lt_0_succ|].
  apply (build_network_layers [4; 2] ["relu"; "tanh"] 3 "adam" eq_refl
           (Nat.lt_0_succ 1)).
Defined.

(** Two hidden layers: the second one is built with the first activation,
    and the second activation is not used at all. *)
Example build_network_two_layers :
  build_network [4; 2] ["relu"; "tanh"] 3 "adam"
  = Some (Network [Dense 4 "relu" (Some 3); Dense 2 "relu" None;
                   Dense 1 "sigmoid" None]
            "binary_crossentropy" "adam" ["accuracy"]).
Proof. reflexivity. Qed.

(** C4 at work: the checkpoint of fold 0 is there and is loaded; the
    vectorizer is not and is trained and saved. *)
Lemma cache_hit_skips_and_miss_recomputes_witness :
  load_or_train_model demo_ext "d/model_0.pkl" [4; 2] ["relu"; "tanh"] 2
    "adam" 10 100 demo_X demo_y s_cached
  = (Some (Finite 1), s_cached)
  ∧ ∃ s', load_or_train_vectorizer demo_ext demo_train_df () "d/vectorizer.pkl"
            s_cached = (Some (), s')
          ∧ files s' "d/vectorizer.pkl" = Some (FVectorizer ())
          ∧ trace s' = trace s_cached
                       ++ [EvTrainVectorizer demo_train_df ();
                           EvWrite "d/vectorizer.pkl" (FVectorizer ())].
Proof.
  destruct (cache_hit_skips_and_miss_recomputes demo_ext s_cached)
    as (_ & Hvec & _ & _ & _ & _ & Hmodel & _).
  split; [by apply Hmodel|]. by apply Hvec.
Defined.

(** C5 at work. *)
Lemma two_prediction_csv_files_witness :
  main demo_ext (demo_conf 1) s_empty = (Some (), demo_final)
  ∧ ltac:(let T := type of (two_prediction_csv_files demo_ext (demo_conf 1)
                              s_empty demo_final demo_run_ok) in exact T).
Proof.
  split; [apply demo_run_ok|].
  apply (two_prediction_csv_files demo_ext (demo_conf 1) s_empty demo_final
           demo_run_ok).
Defined.

(** C6 fails on the code: with checkpoints whose output has saturated at 1
    the run succeeds and the train CSV holds infinite scores. *)
Lemma saturated_model_gives_infinite_score :
  main demo_ext (demo_conf 2) s_cached = (Some (), cached_final)
  ∧ ∃ c, files cached_final "d/train.csv" = Some (FCsv c)
         ∧ length (csv_rows c) = df_nrows demo_train_df
         ∧ ¬ scores_finite c.
Proof.
  split; [apply cached_run_ok|].
  eexists. split; [apply cached_train_csv|]. split; [done|].
  unfold scores_finite. simpl. intros H.
  apply Forall_cons in H as [(x & Hx & Hfin) _].
  unfold row_score in Hx. simpl in Hx. by simplify_eq.
Qed.

(** C6 as amended, at work: the run in the empty dump directory, whose
    two checkpoints put out one half on every row, writes finite scores
    to both files. *)
Lemma csv_rows_and_finite_scores_witness :
  main demo_ext (demo_conf 1) s_empty = (Some (), demo_final)
  ∧ (∀ rows, fold_outputs_open demo_ext (files demo_final) "d" 2 rows)
  ∧ ∃ p_train c_train p_test c_test,
      csv_writes (trace demo_final) = [(p_train, c_train); (p_test, c_test)]
      ∧ length (csv_rows c_train) = 2 ∧ length (csv_rows c_test) = 1
      ∧ scores_finite c_train ∧ scores_finite c_test.
Proof.
  split; [apply demo_run_ok|]. split; [apply demo_outputs_open|].
  destruct (csv_rows_and_finite_scores demo_ext (demo_conf 1) s_empty
              demo_final demo_run_ok)
    as (train_df & test_df & evs & p1 & c1 & p2 & c2 & U & y & splits & v
        & X & Sv & VT & Xt & Ut & Htr & Hte & Htrace & Hcsv & Hl1 & Hl2 & _
        & Hsp & _ & _ & _ & _ & _ & Hf1 & Hf2).
  change (trace s_empty ++ evs) with evs in Htrace.
  simpl in Htr, Hte, Hsp.
  injection Hsp as <-. injection Htr as <-. injection Hte as <-.
  exists p1, c1, p2, c2. rewrite Htrace.
  split; [exact Hcsv|]. split; [exact Hl1|]. split; [exact Hl2|]. split.
  - apply Hf1, demo_outputs_open.
  - apply Hf2; [apply demo_outputs_open|done].
Defined.

(** C7 at work: a fresh decomposition of rank 1. *)
Lemma svd_rank_is_k_witness :
  compute_svd_rank demo_ext
  ∧ ltac:(let T := type of (svd_rank_is_k demo_ext _ _ _ _ _ _ _
                              demo_compute_svd_rank demo_svd_ok) in exact T).
Proof.
  split; [apply demo_compute_svd_rank|].
  apply (svd_rank_is_k demo_ext _ _ _ _ _ _ _ demo_compute_svd_rank
           demo_svd_ok).
Defined.

(** C8 fails on the code: with the decomposition cached the run saves the
    per-fold figures and no singular value figure. *)
Lemma cached_svd_renders_no_spectrum :
  main demo_ext (demo_conf 2) s_cached = (Some (), cached_final)
  ∧ figure_writes (trace cached_final)
    = ["d/quality/fold0/roc.png"; "d/quality/fold0/reliability.png";
       "d/quality/fold1/roc.png"; "d/quality/fold1/reliability.png"]
  ∧ "d/singular_values.png" ∉ figure_writes (trace cached_final).
Proof.
  split; [apply cached_run_ok|].
  assert (H : figure_writes (trace cached_final)
    = ["d/quality/fold0/roc.png"; "d/quality/fold0/reliability.png";
       "d/quality/fold1/roc.png"; "d/quality/fold1/reliability.png"]).
  { unfold cached_final. eval_run. reflexivity. }
  split; [done|]. rewrite H. intros Hin.
  repeat (apply elem_of_cons in Hin as [Hin|Hin]; [discriminate|]).
  by apply elem_of_nil in Hin.
Qed.

(** C8 as amended, at work: a fresh run saves the singular value figure
    too. *)
Lemma plots_rendered_witness :
  main demo_ext (demo_conf 1) s_empty = (Some (), demo_final)
  ∧ ltac:(let T := type of (plots_rendered demo_ext (demo_conf 1) s_empty
                              demo_final demo_run_ok) in exact T).
Proof.
  split; [apply demo_run_ok|].
  apply (plots_rendered demo_ext (demo_conf 1) s_empty demo_final demo_run_ok).
Defined.



(** The entries that agree give [+0] in the second block whichever half
    comes first, where negation gives [-0]. *)
Example swapped_zero_keeps_its_sign :
  mat64_half (mat64_sub demo_Uq2 demo_Uq1)
  ≠ mat64_neg (mat64_half (mat64_sub demo_Uq1 demo_Uq2)).
Proof.
  intros H.
  apply (f_equal (λ m : matrix64,
           match m with
           | [[_; x]] => PrimFloat.Leibniz.eqb x 0
           | _ => false
           end)) in H.
  vm_compute in H. discriminate.
Qed.

(** C10 at work. *)
Lemma test_projection_reuses_train_map_witness :
  main demo_ext (demo_conf 1) s_empty = (Some (), demo_final)
  ∧ ltac:(let T := type of (test_projection_reuses_train_map demo_ext
                              (demo_conf 1) s_empty demo_final demo_run_ok)
          in exact T).
Proof.
  split; [apply demo_run_ok|].
  apply (test_projection_reuses_train_map demo_ext (demo_conf 1) s_empty
           demo_final demo_run_ok).
Defined.

(** ** More of the script at work *)

Ltac run_ok :=
  match goal with
  | |- ?m = (Some ?a, ?s) =>
      rewrite (surjective_pairing m) at 1; f_equal; eval_run; reflexivity
  end.

Lemma overlap_train_ok :
  train_ff (split_ext overlap_splits) demo_X demo_y demo_options s_two_models
  = (Some (overlap_train_result.1, overlap_train_result.2),
     overlap_train_final).
Proof. unfold overlap_train_final, overlap_train_result. run_ok. Qed.

Lemma partial_train_ok :
  train_ff (split_ext partial_splits) demo_X demo_y demo_options s_empty
  = (Some (partial_train_result.1, partial_train_result.2),
     partial_train_final).
Proof. unfold partial_train_final, partial_train_result. run_ok. Qed.

Lemma cached_train_ok :
  train_ff demo_ext demo_X demo_y demo_options s_cached
  = (Some cached_train_result, cached_train_final).
Proof. unfold cached_train_final, cached_train_result. run_ok. Qed.

Lemma nofold_run_ok :
  main (split_ext []) (demo_conf 1) s_empty = (Some (), nofold_final).
Proof. unfold nofold_final. run_ok. Qed.

Lemma cached_svd_ok :
  load_or_compute_svd demo_ext (demo_svd_options 2) demo_X "d" s_cached
  = (Some ([Finite 1; Finite 1], [[Finite 1; Finite 0]; [Finite 0; Finite 1]]),
     s_cached).
Proof. reflexivity. Qed.

Lemma cached_final_singular_values (Sv : list xreal) :
  files cached_final "d/singular_values.txt" = Some (FText Sv) →
  length Sv = 2.
Proof. unfold cached_final. eval_run. by intros [= <-]. Qed.

Lemma bad_options_mismatch (layers : list nat) (acts : list string) :
  opt_layers bad_options = Some layers →
  opt_activations bad_options = Some acts →
  length layers ≠ length acts.
Proof. by intros [= <-] [= <-]. Qed.

(** X1 at work: one activation for two layers. *)
Lemma train_ff_rejects_bad_options_witness :
  ltac:(let T := type of (train_ff_rejects_bad_options demo_ext demo_X demo_y
                            bad_options s_empty bad_options_mismatch)
        in exact T).
Proof.
  apply (train_ff_rejects_bad_options demo_ext demo_X demo_y bad_options
           s_empty bad_options_mismatch).
Defined.

(** X2 at work. *)
Lemma train_ff_writes_only_checkpoints_witness :
  train_ff demo_ext demo_X demo_y demo_options s_empty
  = (Some (demo_train_result.1, demo_train_result.2), demo_train_final)
  ∧ ltac:(let T := type of (train_ff_writes_only_checkpoints demo_ext demo_X
                              demo_y demo_options _ s_empty demo_train_final
                              demo_train_ok) in exact T).
Proof.
  split; [apply demo_train_ok|].
  apply (train_ff_writes_only_checkpoints demo_ext demo_X demo_y demo_options
           _ s_empty demo_train_final demo_train_ok).
Defined.

(** X3 at work. *)
Lemma train_ff_folds_numbered_witness :
  train_ff demo_ext demo_X demo_y demo_options s_empty
  = (Some (demo_train_result.1, demo_train_result.2), demo_train_final)
  ∧ ltac:(let T := type of (train_ff_folds_numbered demo_ext demo_X demo_y
                              demo_options _ _ s_empty demo_train_final
                              demo_train_ok) in exact T).
Proof.
  split; [apply demo_train_ok|].
  apply (train_ff_folds_numbered demo_ext demo_X demo_y demo_options _ _
           s_empty demo_train_final demo_train_ok).
Defined.

Lemma overlap_last_fold (j' : nat) (tr' va' : list nat) :
  1 < j' → overlap_splits !! j' = Some (tr', va') → 1 ∉ va'.
Proof. intros Hlt H. by destruct j' as [|[|[|j']]]; [lia..| |]. Qed.

(** X4 at work: record 1 is held out by both folds, and fold 1 is the
    last. *)
Lemma train_ff_last_fold_wins_witness :
  train_ff (split_ext overlap_splits) demo_X demo_y demo_options s_two_models
  = (Some (overlap_train_result.1, overlap_train_result.2),
     overlap_train_final)
  ∧ overlap_splits !! 0 = Some ([1], [0; 1])
  ∧ overlap_splits !! 1 = Some ([0], [1])
  ∧ ltac:(let T := type of (train_ff_last_fold_wins (split_ext overlap_splits)
                              demo_X demo_y demo_options _ _ s_two_models
                              overlap_train_final overlap_splits 1 [0] [1] 1
                              overlap_train_ok eq_refl eq_refl
                              (list_elem_of_here 1 []) overlap_last_fold)
          in exact T).
Proof.
  split; [apply overlap_train_ok|]. split; [done|]. split; [done|].
  apply (train_ff_last_fold_wins (split_ext overlap_splits) demo_X demo_y
           demo_options _ _ s_two_models overlap_train_final overlap_splits
           1 [0] [1] 1 overlap_train_ok eq_refl eq_refl
           (list_elem_of_here 1 []) overlap_last_fold).
Defined.

Lemma partial_unvalidated (j : nat) (tr va : list nat) :
  partial_splits !! j = Some (tr, va) → 1 ∉ va.
Proof.
  destruct j as [|j]; [|done]. intros [= <- <-].
  by intros ?%list_elem_of_singleton.
Qed.

(** X5 at work: record 1 is held out by no fold. *)
Lemma train_ff_unvalidated_zero_witness :
  train_ff (split_ext partial_splits) demo_X demo_y demo_options s_empty
  = (Some (partial_train_result.1, partial_train_result.2),
     partial_train_final)
  ∧ 1 < length demo_y
  ∧ partial_train_result.2 !! 1 = Some xzero.
Proof.
  split; [apply partial_train_ok|]. split; [simpl; lia|].
  apply (train_ff_unvalidated_zero (split_ext partial_splits) demo_X demo_y
           demo_options _ _ s_empty partial_train_final partial_splits 1
           partial_train_ok eq_refl (Nat.lt_succ_diag_r 1)
           partial_unvalidated).
Defined.

Lemma cached_checkpoints (j : nat) :
  j < length demo_splits →
  ∃ f, files s_cached (model_path (ff_dump_dir (opt_dump_dir demo_options)) j)
       = Some (FModel f).
Proof.
  intros Hj. exists (Finite 1). by destruct j as [|[|j]]; [..|simpl in Hj; lia].
Qed.

(** X6 at work: both checkpoints are on disk. *)
Lemma train_ff_cached_refits_nothing_witness :
  train_ff demo_ext demo_X demo_y demo_options s_cached
  = (Some cached_train_result, cached_train_final)
  ∧ ltac:(let T := type of (train_ff_cached_refits_nothing demo_ext demo_X
                              demo_y demo_options _ s_cached
                              cached_train_final demo_splits cached_train_ok
                              eq_refl cached_checkpoints) in exact T).
Proof.
  split; [apply cached_train_ok|].
  apply (train_ff_cached_refits_nothing demo_ext demo_X demo_y demo_options _
           s_cached cached_train_final demo_splits cached_train_ok eq_refl
           cached_checkpoints).
Defined.

(** X8 at work: the checkpoint obtained for one fold of one run answers
    a call with other layers and other data. *)
Lemma caches_ignore_their_inputs_witness :
  load_or_train_model demo_ext "d/model_0.pkl" [4; 2] ["relu"; "tanh"] 2
    "adam" 10 100 demo_X demo_y s_cached
  = (Some (Finite 1), s_cached)
  ∧ load_or_train_model demo_ext "d/model_0.pkl" [8] ["tanh"] 7 "sgd" 1 1
      [] [] s_cached
    = (Some (Finite 1), s_cached).
Proof.
  split; [reflexivity|].
  destruct (caches_ignore_their_inputs demo_ext s_cached) as (_ & _ & H).
  by apply (H "d/model_0.pkl" [4; 2] ["relu"; "tanh"] 2 "adam" 10 100 demo_X
              demo_y).
Defined.

(** X9 at work: a decomposition of rank 2. *)
Lemma svd_cache_round_trip_witness :
  load_or_compute_svd demo_ext (demo_svd_options 2) demo_X "d" s_cached
  = (Some ([Finite 1; Finite 1], [[Finite 1; Finite 0]; [Finite 0; Finite 1]]),
     s_cached)
  ∧ load_or_compute_svd demo_ext (demo_svd_options 2) [] "d" s_cached
    = (Some ([Finite 1; Finite 1],
             [[Finite 1; Finite 0]; [Finite 0; Finite 1]]),
       s_cached).
Proof.
  split; [apply cached_svd_ok|].
  apply (svd_cache_round_trip demo_ext (demo_svd_options 2) demo_X [] "d" 2
           _ _ s_cached s_cached cached_svd_ok eq_refl eq_refl).
  lia.
Defined.

(** X10 at work: a decomposition of rank 1. *)
Lemma rank_one_svd_is_recomputed_witness :
  svd_k (conf_svd (demo_conf 1)) = Some 1
  ∧ ltac:(let T := type of (rank_one_svd_is_recomputed demo_ext _ _ _ _ _ _ _
                              (eq_refl : svd_k (conf_svd (demo_conf 1))
                                         = Some 1) demo_svd_ok)
          in exact T).
Proof.
  split; [done|].
  apply (rank_one_svd_is_recomputed demo_ext _ _ _ _ _ _ _
           (eq_refl : svd_k (conf_svd (demo_conf 1)) = Some 1) demo_svd_ok).
Defined.

Lemma three_ones_nonempty : replicate 3 (Finite 1) ≠ [].
Proof. done. Qed.

Lemma three_ones_finite : Forall is_finite (replicate 3 (Finite 1)).
Proof. by repeat constructor. Qed.

(** X11 at work: rank 3 is asked for and rank 2 is cached. *)
Lemma stale_svd_cache_is_replaced_witness :
  files s_cached (join_path "d" "singular_values.txt")
  = Some (FText [Finite 1; Finite 1])
  ∧ ltac:(let T := type of (stale_svd_cache_is_replaced demo_ext
                              (demo_svd_options 3) demo_X "d" 3
                              [Finite 1; Finite 1] _ _ s_cached eq_refl
                              eq_refl (Nat.lt_neq 2 3 (Nat.lt_succ_diag_r 2))
                              eq_refl three_ones_nonempty three_ones_finite)
          in exact T).
Proof.
  split; [done|].
  apply (stale_svd_cache_is_replaced demo_ext (demo_svd_options 3) demo_X "d"
           3 [Finite 1; Finite 1] _ _ s_cached eq_refl eq_refl
           (Nat.lt_neq 2 3 (Nat.lt_succ_diag_r 2)) eq_refl
           three_ones_nonempty three_ones_finite).
Defined.

Lemma one_two_plain :
  [Finite 1; Finite 2] ≠ [] ∧ Forall is_finite [Finite 1; Finite 2].
Proof. split; [done|]. by repeat constructor. Qed.

(** X12 at work: the values 1 and 2. *)
Lemma plot_singular_values_draws_sorted_witness :
  ltac:(let T := type of (plot_singular_values_draws_sorted
                            (Vectorizer := ()) (Model := xreal) (Kwargs := ())
                            [Finite 1; Finite 2] "d" s_empty
                            (proj1 one_two_plain) (proj2 one_two_plain))
        in exact T).
Proof.
  apply (plot_singular_values_draws_sorted
           (Vectorizer := ()) (Model := xreal) (Kwargs := ())
           [Finite 1; Finite 2] "d" s_empty
           (proj1 one_two_plain) (proj2 one_two_plain)).
Defined.

Lemma one_inf_plain : Forall (λ a, a ≠ NaN) [Finite 1; PInf].
Proof. by repeat constructor. Qed.

(** X13 at work: the values 1 and infinity. *)
Lemma plot_singular_values_raises_iff_witness :
  Forall (λ a, a ≠ NaN) [Finite 1; PInf]
  ∧ (plot_singular_values [Finite 1; PInf] "d" (s_empty (Model := xreal))
     = (None, s_empty)
     ↔ [Finite 1; PInf] = [] ∨ PInf ∈ [Finite 1; PInf]
       ∨ Forall (λ a, a = NInf) [Finite 1; PInf]).
Proof.
  split; [apply one_inf_plain|].
  apply (plot_singular_values_raises_iff (Vectorizer := ()) (Model := xreal)
           (Kwargs := ()) [Finite 1; PInf] "d" s_empty one_inf_plain).
Defined.

(** X19 at work: the singular values 2 and 4. *)
Lemma make_Sinv_diagonal_witness :
  [Finite 2; Finite 4] !! 0 = Some (Finite 2)
  ∧ 1 < length [Finite 2; Finite 4]
  ∧ ltac:(let T := type of (make_Sinv_diagonal [Finite 2; Finite 4] demo_X 0 1
                              (Finite 2) eq_refl (Nat.lt_succ_diag_r 1))
          in exact T).
Proof.
  split; [done|]. split; [simpl; lia|].
  apply (make_Sinv_diagonal [Finite 2; Finite 4] demo_X 0 1 (Finite 2)
           eq_refl (Nat.lt_succ_diag_r 1)).
Defined.



(** X14 at work. *)
Lemma train_csv_rows_are_aligned_witness :
  main demo_ext (demo_conf 1) s_empty = (Some (), demo_final)
  ∧ ltac:(let T := type of (train_csv_rows_are_aligned demo_ext (demo_conf 1)
                              s_empty demo_final demo_run_ok) in exact T).
Proof.
  split; [apply demo_run_ok|].
  apply (train_csv_rows_are_aligned demo_ext (demo_conf 1) s_empty demo_final
           demo_run_ok).
Defined.

(** X15 at work. *)
Lemma test_csv_rows_are_aligned_witness :
  main demo_ext (demo_conf 1) s_empty = (Some (), demo_final)
  ∧ ltac:(let T := type of (test_csv_rows_are_aligned demo_ext (demo_conf 1)
                              s_empty demo_final demo_run_ok) in exact T).
Proof.
  split; [apply demo_run_ok|].
  apply (test_csv_rows_are_aligned demo_ext (demo_conf 1) s_empty demo_final
           demo_run_ok).
Defined.

(** X16 at work: a splitter that yields no fold. *)
Lemma no_folds_gives_nan_test_scores_witness :
  main (split_ext []) (demo_conf 1) s_empty = (Some (), nofold_final)
  ∧ ltac:(let T := type of (no_folds_gives_nan_test_scores (split_ext [])
                              (demo_conf 1) s_empty nofold_final
                              nofold_run_ok) in exact T).
Proof.
  split; [apply nofold_run_ok|].
  apply (no_folds_gives_nan_test_scores (split_ext []) (demo_conf 1) s_empty
           nofold_final nofold_run_ok).
Defined.

(** X17 at work: the run on the cached dump directory, run again. *)
Lemma second_run_recomputes_nothing_witness :
  main demo_ext (demo_conf 2) s_cached = (Some (), cached_final)
  ∧ ltac:(let T := type of (second_run_recomputes_nothing demo_ext
                              (demo_conf 2) s_cached cached_final 2
                              cached_run_ok eq_refl
                              (Nat.neq_succ_diag_l 1)
                              cached_final_singular_values) in exact T).
Proof.
  split; [apply cached_run_ok|].
  apply (second_run_recomputes_nothing demo_ext (demo_conf 2) s_cached
           cached_final 2 cached_run_ok eq_refl (Nat.neq_succ_diag_l 1)
           cached_final_singular_values).
Defined.

(** X7 at work. *)
Lemma train_ff_fits_as_configured_witness :
  train_ff demo_ext demo_X demo_y demo_options s_empty
  = (Some (demo_train_result.1, demo_train_result.2), demo_train_final)
  ∧ ltac:(let T := type of (train_ff_fits_as_configured demo_ext demo_X demo_y
                              demo_options _ s_empty demo_train_final
                              [4; 2] ["relu"; "tanh"] demo_train_ok eq_refl
                              eq_refl) in exact T).
Proof.
  split; [apply demo_train_ok|].
  apply (train_ff_fits_as_configured demo_ext demo_X demo_y demo_options _
           s_empty demo_train_final [4; 2] ["relu"; "tanh"] demo_train_ok
           eq_refl eq_refl).
Defined.

Lemma demo_fold_0 :
  demo_train_result.1 !! 0
  = Some (FoldQuality 0 "d/model_0.pkl" xzero xzero xzero xzero ([], [])
            ([], []) ([], []) ([], [])).
Proof. unfold demo_train_result. eval_run. reflexivity. Qed.

(** X21 at work: fold 0 of the two. *)
Lemma train_ff_quality_of_fold_witness :
  train_ff demo_ext demo_X demo_y demo_options s_empty
  = (Some (demo_train_result.1, demo_train_result.2), demo_train_final)
  ∧ ltac:(let T := type of (train_ff_quality_of_fold demo_ext demo_X demo_y
                              demo_options _ _ s_empty demo_train_final
                              demo_splits 0 _ [1] [0] demo_train_ok eq_refl
                              demo_fold_0 eq_refl) in exact T).
Proof.
  split; [apply demo_train_ok|].
  apply (train_ff_quality_of_fold demo_ext demo_X demo_y demo_options _ _
           s_empty demo_train_final demo_splits 0 _ [1] [0] demo_train_ok
           eq_refl demo_fold_0 eq_refl).
Defined.

(** X22 at work: no rank in the configuration. *)
Lemma main_rejects_incomplete_configuration_witness :
  svd_k (conf_svd conf_without_k) = None
  ∧ (main demo_ext conf_without_k s_empty).1 = None.
Proof.
  split; [done|].
  apply (main_rejects_incomplete_configuration demo_ext conf_without_k
           s_empty (or_introl eq_refl)).
Defined.

Lemma demo_project_ok :
  project demo_row demo_row (make_Sinv [Finite 1] demo_row)
  = Some demo_projected.
Proof. reflexivity. Qed.

(** X23 at work. *)
Lemma project_shape_witness :
  project demo_row demo_row (make_Sinv [Finite 1] demo_row)
  = Some demo_projected
  ∧ 0 < ncols demo_row
  ∧ length demo_projected = length demo_row
  ∧ Forall (λ r, length r = length [Finite 1]) demo_projected.
Proof.
  split; [apply demo_project_ok|]. split; [simpl; lia|].
  apply (project_shape demo_row demo_row [Finite 1] demo_row demo_projected
           demo_project_ok (Nat.lt_0_succ 1)).
Defined.
